(** * The query pipeline of the retrieval-augmented answering engine

  A shallow embedding of the parts of [rag_system] that the specification
  makes claims about, and of the retrievers they call:

  - [core/advanced_rag_v2.py]: cache-key normalisation, intent
    classification, the lists of the fast model, the strategy planner, the
    vector, memory and temporal agents, de-duplication of retriever
    output, re-ranking, context compression, query planning and the
    control flow of [query];
  - [utils/cache.py]: the on-disk query cache;
  - [rag_system/core/mcp_direct.py]: the memory search client;
  - [utils/keyword_retriever.py]: the choice of the token to scan for;
  - [utils/entity_graph.py]: the entity graph search;
  - [utils/serena_code_index.py]: the code symbol search.

  Conventions.  A Python [str] is a list of code points, so that [len],
  slicing and [in] mean what they mean in Python.  A Python [int] is a
  [Z].  A finite Python [float] is modelled by its exact value: as a
  rational where the code only compares, adds and prints it, and as a real
  number in the temporal boost, which calls [math.exp].  What the code
  gets from the outside world (the LLM, the cross-encoder, the memory
  subprocess, the clock, the interpreter's Unicode tables, [json.loads],
  [hashlib], [hash]) is a parameter of the definitions. *)

From Stdlib Require Import ZArith QArith Reals Lra Lia List String Ascii.
From Stdlib Require Import DecimalString Qabs Sorted.
From Stdlib Require Lqa.
From stdpp Require Import gmap list.
Import ListNotations.

Open Scope Z_scope.

(* ================================================================== *)
(** * Python strings *)
(* ================================================================== *)

Abbreviation pystr := (list N).

Module PyStr.

(** An ASCII literal of the source, as code points. *)
Definition py (s : string) : pystr :=
  map N_of_ascii (list_ascii_of_string s).

Definition len {A} (s : list A) : Z := Z.of_nat (length s).

(** [s[:n]], for any integer [n] (a negative [n] counts from the end). *)
Definition slice_to {A} (n : Z) (s : list A) : list A :=
  if 0 <=? n then firstn (Z.to_nat n) s
  else firstn (length s - Z.to_nat (- n)) s.

(** [sep.join(parts)]. *)
Fixpoint join (sep : pystr) (parts : list pystr) : pystr :=
  match parts with
  | [] => []
  | [p] => p
  | p :: rest => p ++ sep ++ join sep rest
  end.

Definition eqb_str (a b : pystr) : bool := bool_decide (a = b).

Fixpoint starts_with (p s : pystr) : bool :=
  match p, s with
  | [], _ => true
  | _ :: _, [] => false
  | a :: p', b :: s' => (a =? b)%N && starts_with p' s'
  end.

(** [sub in s]. *)
Fixpoint contains (sub s : pystr) : bool :=
  starts_with sub s ||
  match s with
  | [] => false
  | _ :: s' => contains sub s'
  end.

(** [any(w in s for w in words)]. *)
Definition any_in (words : list pystr) (s : pystr) : bool :=
  existsb (fun w => contains w s) words.

(** [s.split('\n')]: never empty, [''.split('\n') == ['']]. *)
Fixpoint split_on (d : N) (s : pystr) : list pystr :=
  match s with
  | [] => [[]]
  | c :: s' =>
      if (c =? d)%N then [] :: split_on d s'
      else match split_on d s' with
           | [] => [[c]]
           | w :: ws => (c :: w) :: ws
           end
  end.

(** [s.replace(c, t)] for a one-character pattern [c]. *)
Definition replace_char (c : N) (t : pystr) (s : pystr) : pystr :=
  flat_map (fun x => if (x =? c)%N then t else [x]) s.

(** Decimal rendering of a non-negative integer, as [str(n)] prints it. *)
Definition digits (n : N) : pystr :=
  py (NilZero.string_of_uint (N.to_uint n)).

Definition str_of_Z (z : Z) : pystr :=
  if z <? 0 then py "-" ++ digits (Z.to_N (- z)) else digits (Z.to_N z).

(** [sorted(l, key=key, reverse=True)]: largest key first; elements with
    equal keys keep the order they had in [l]. *)
Fixpoint insert_desc {A} (key : A -> Q) (x : A) (l : list A) : list A :=
  match l with
  | [] => [x]
  | y :: l' =>
      if Qle_bool (key y) (key x) then x :: y :: l'
      else y :: insert_desc key x l'
  end.

Definition sorted_reverse {A} (key : A -> Q) (l : list A) : list A :=
  fold_right (insert_desc key) [] l.

(** [l[n:]]. *)
Definition slice_from {A} (n : Z) (l : list A) : list A :=
  if 0 <=? n then skipn (Z.to_nat n) l
  else skipn (length l - Z.to_nat (- n)) l.

End PyStr.
Import PyStr.

(** The interpreter's Unicode tables: [str.isspace] (which is also what
  [str.strip] and the pattern [\s] use), the pattern [\w], and the
  lower-case mapping of every code point ([str.lower] maps code points one
  by one, and one code point may map to several). *)
Class CharTables := {
is_space : N -> bool;
is_word : N -> bool;
lower_cp : N -> pystr
}.

Section Unicode.
Context `{CharTables}.

(** [s.lower()]. *)
Definition lower (s : pystr) : pystr := flat_map lower_cp s.

(** [s.lstrip()], [s.rstrip()], [s.strip()]. *)
Fixpoint lstrip (s : pystr) : pystr :=
  match s with
  | [] => []
  | c :: s' => if is_space c then lstrip s' else s
  end.

Definition rstrip (s : pystr) : pystr := rev (lstrip (rev s)).

Definition strip (s : pystr) : pystr := rstrip (lstrip s).

(** [re.sub(r'[^\w\s]', '', s)]. *)
Definition drop_punctuation (s : pystr) : pystr :=
  List.filter (fun c => is_word c || is_space c) s.

(** [re.sub(r'\s+', ' ', s)]: every maximal run of white space becomes one
    space.  [in_run] tells that the previous character was white space. *)
Fixpoint collapse_from (in_run : bool) (s : pystr) : pystr :=
  match s with
  | [] => []
  | c :: s' =>
      if is_space c then
        if in_run then collapse_from true s'
        else 32%N :: collapse_from true s'
      else c :: collapse_from false s'
  end.

Definition collapse_spaces (s : pystr) : pystr := collapse_from false s.

End Unicode.

(** The shape of a normalised query: every character is the space or a
    lower-case word character, and no two white-space characters are
    adjacent. *)
Section Shapes.
Context `{CharTables}.

Definition settled (c : N) : Prop :=
  c = 32%N \/ (is_space c = false /\ is_word c = true /\ lower_cp c = [c]).

Definition starts_clean (s : pystr) : Prop :=
  match s with
  | c :: _ => is_space c = false
  | [] => True
  end.

Fixpoint single_spaced (s : pystr) : Prop :=
  match s with
  | a :: t => (is_space a = true -> starts_clean t) /\ single_spaced t
  | [] => True
  end.

Definition tidy (s : pystr) : Prop := Forall settled s /\ single_spaced s.

End Shapes.

(** The tables on the code points below U+0100, which cover every literal of
  the source; the code points above are left alone and are neither white
  space nor word characters here. *)
Module Latin1.

Definition in_range (lo hi c : N) : bool := ((lo <=? c) && (c <=? hi))%N.

Definition space (c : N) : bool :=
  in_range 9 13 c || in_range 28 32 c || (c =? 133)%N || (c =? 160)%N.

Definition word (c : N) : bool :=
  in_range 48 57 c || in_range 65 90 c || (c =? 95)%N || in_range 97 122 c
  || (c =? 170)%N || in_range 178 179 c || (c =? 181)%N
  || in_range 185 186 c || in_range 188 190 c
  || in_range 192 214 c || in_range 216 246 c || in_range 248 255 c.

Definition lower1 (c : N) : pystr :=
  if in_range 65 90 c || in_range 192 214 c || in_range 216 222 c
  then [(c + 32)%N] else [c].

#[export] Instance tables : CharTables :=
  {| is_space := space; is_word := word; lower_cp := lower1 |}.

End Latin1.

(* ================================================================== *)
(** * Floats that are only compared and printed *)
(* ================================================================== *)

Module PyFloat.

(** The double nearest to the literal [0.8]. *)
Definition f0_8 : Q := 3602879701896397 # 4503599627370496.

(** [a > b] on finite floats. *)
Definition gtb (a b : Q) : bool := negb (Qle_bool a b).

(** Round a non-negative rational to the nearest integer, ties to even. *)
Definition round_half_even (q : Q) : Z :=
  let n := Qnum q in
  let d := Z.pos (Qden q) in
  let fl := n / d in
  let r := n mod d in
  if 2 * r <? d then fl
  else if d <? 2 * r then fl + 1
  else if Z.even fl then fl else fl + 1.

Definition two_digits (z : Z) : pystr :=
  (if z <? 10 then py "0" else []) ++ str_of_Z z.

(** [f"{x:.2f}"]. *)
Definition format_2f (x : Q) : pystr :=
  let c := round_half_even (Qabs x * 100) in
  (if Qle_bool 0 x then [] else py "-")
    ++ str_of_Z (c / 100) ++ py "." ++ two_digits (c mod 100).

End PyFloat.
Import PyFloat.


(* ================================================================== *)
(** * Exceptions *)
(* ================================================================== *)

(** The exceptions the code tells apart; [OtherException] is any other
    subclass of [Exception]. *)
Inductive Exn := TimeoutExpired | JSONDecodeError | OtherException.

(** A computation that returns or raises. *)
Inductive result (A : Type) : Type :=
| Ok (a : A)
| Raise (e : Exn).

Arguments Ok {A} a.
Arguments Raise {A} e.

#[global] Instance result_ret : MRet result := fun A a => Ok a.

#[global] Instance result_bind : MBind result :=
  fun A B f m => match m with Ok a => f a | Raise e => Raise e end.

(* ================================================================== *)
(** * Documents *)
(* ================================================================== *)

(** A JSON value, as [json.loads] returns it; [F] carries the numbers. *)
#[warnings="-register-all"]
Inductive json (F : Type) : Type :=
| JNull
| JBool (b : bool)
| JNum (x : F)
| JStr (s : pystr)
| JArr (items : list (json F))
| JObj (fields : list (pystr * json F)).

Arguments JNull {F}.
Arguments JBool {F} b.
Arguments JNum {F} x.
Arguments JStr {F} s.
Arguments JArr {F} items.
Arguments JObj {F} fields.

(** The dictionary every retriever returns.  Only ['content'] is always
    there; an absent key is [None] (an absent ['metadata'] is the empty
    map, which is what [doc.get('metadata', {})] reads). *)
Record Doc (F : Type) : Type := mkDoc {
  doc_id : option pystr;
  content : pystr;
  source : option pystr;
  metadata : gmap pystr (json F);
  score : option F;
  vector_score : option F;
  temporal_boost : option F;
  final_score : option F
}.

Arguments mkDoc {F}.
Arguments doc_id {F} d.
Arguments content {F} d.
Arguments source {F} d.
Arguments metadata {F} d.
Arguments score {F} d.
Arguments vector_score {F} d.
Arguments temporal_boost {F} d.
Arguments final_score {F} d.

(** A document as the memory client builds it: content, score 1.0 and
    metadata, no ['id']. *)
Definition memory_doc {F} (one : F) (text : pystr) (meta : gmap pystr (json F)) : Doc F :=
  mkDoc None text None meta (Some one) None None None.

(** A document of the memory client: more than 100 characters of content,
    score 1.0, no ['id'], no other score. *)
Definition memory_shaped (d : Doc Q) : Prop :=
  100 < len (content d) /\ score d = Some 1%Q /\ doc_id d = None
  /\ final_score d = None /\ temporal_boost d = None.

(* ================================================================== *)
(** * Stage 1: query analysis *)
(* ================================================================== *)

Inductive Intent := code | config | explain | status | general.

#[global] Instance Intent_eq_dec : EqDecision Intent.
Proof. solve_decision. Defined.

Definition intent_name (i : Intent) : pystr :=
  match i with
  | code => py "code"
  | config => py "config"
  | explain => py "explain"
  | status => py "status"
  | general => py "general"
  end.

(** The result of [extract_temporal]. *)
Record Temporal := mkTemporal {
  has_temporal : bool;
  days_back : option Z;
  keyword : option pystr
}.

(** The dictionary [process_query] returns. *)
Record ProcessedQuery := mkProcessed {
  original : pystr;
  concepts : list pystr;
  expansions : list pystr;
  temporal : Temporal;
  intent : Intent
}.

(** The literals of the source that are not ASCII, by code point. *)
Module Words.
Definition codigo : pystr := py "c" ++ [243%N] ++ py "digo".
Definition funcao : pystr := py "fun" ++ [231%N; 227%N] ++ py "o".
Definition implementacao : pystr := py "implementa" ++ [231%N; 227%N] ++ py "o".
Definition mes : pystr := py "m" ++ [234%N] ++ py "s".
Definition ultimo : pystr := [250%N] ++ py "ltimo".
Definition parametro : pystr := py "par" ++ [226%N] ++ py "metro".
Definition o_que_e : pystr := py "o que " ++ [233%N].
Definition definicao_de : pystr := py "defini" ++ [231%N; 227%N] ++ py "o de".
End Words.

Section Analysis.
Context `{CharTables}.

Definition temporal_keywords : list (pystr * Z) :=
  [ (py "hoje", 0); (py "ontem", 1); (py "anteontem", 2);
    (py "semana", 7); (Words.mes, 30); (py "recente", 7);
    (Words.ultimo, 3); (py "nova", 3); (py "atual", 1) ].

Fixpoint first_temporal (table : list (pystr * Z)) (query_lower : pystr) : Temporal :=
  match table with
  | [] => mkTemporal false None None
  | (keyword, days) :: rest =>
      if contains keyword query_lower
      then mkTemporal true (Some days) (Some keyword)
      else first_temporal rest query_lower
  end.

Definition extract_temporal (query : pystr) : Temporal :=
  first_temporal temporal_keywords (lower query).

Definition classify_intent (query : pystr) : Intent :=
  let query_lower := lower query in
  if any_in [Words.codigo; Words.funcao; py "classe"; Words.implementacao;
             py "bug"; py "erro"] query_lower then code
  else if any_in [py "configurar"; py "setup"; py "instalar"; py "config"]
            query_lower then config
  else if any_in [py "como"; py "porque"; py "explique"; py "entender";
                  py "funciona"] query_lower then explain
  else if any_in [py "status"; py "progresso"; py "fase"; py "andamento"]
            query_lower then status
  else general.

(** [process_query]; the concepts and the expansions come from the fast
    model (each extractor returns the empty list when its call fails). *)
Definition process_query (extract_concepts expand_query : pystr -> list pystr)
    (query : pystr) : ProcessedQuery :=
  mkProcessed query (extract_concepts query) (expand_query query)
    (extract_temporal query) (classify_intent query).

(* ================================================================== *)
(** * The strategy planner *)
(* ================================================================== *)

Inductive Mode := hybrid | mode_none.

Record Strategy := mkStrategy {
  mode : Mode;
  use_vector : bool;
  use_memory : bool;
  use_recent : bool;
  use_code : bool;
  use_keywords : bool;
  use_graph : bool;
  top_k : Z;
  vector_n_results : Z;
  memory_limit : Z;
  memory_concepts : Z;
  use_planning : bool
}.

Definition objective_markers : list pystr :=
  [py "onde"; py "qual arquivo"; py "linha"; Words.parametro; py "flag"; py "comando"].

Definition generic_terms : list pystr :=
  [Words.o_que_e; py "defina"; Words.definicao_de].

Definition project_tokens : list pystr :=
  [py "selector21"; py "botscalp"; py "mcp"; py "rag"].

Definition planning_triggers : list pystr :=
  [py "pipeline"; py "fluxo"; py "passos"; py "decompor"; py "entender";
   py "descrever"; py "inteiro"].

(** The dictionary literal the planner starts from. *)
Definition base_strategy (pq : ProcessedQuery) : Strategy :=
  let intent := intent pq in
  {| mode := hybrid;
     use_vector := true;
     use_memory := true;
     use_recent := has_temporal (temporal pq);
     use_code := bool_decide (intent = code);
     use_keywords := negb (bool_decide (intent = code));
     use_graph := bool_decide (intent = status) || bool_decide (intent = explain)
                  || bool_decide (intent = general);
     top_k := 20;
     vector_n_results := 10;
     memory_limit := 20;
     memory_concepts := 3;
     use_planning := false |}.

Definition set_budgets (s : Strategy) (k n m : Z) : Strategy :=
  {| mode := mode s; use_vector := use_vector s; use_memory := use_memory s;
     use_recent := use_recent s; use_code := use_code s;
     use_keywords := use_keywords s; use_graph := use_graph s;
     top_k := k; vector_n_results := n; memory_limit := m;
     memory_concepts := memory_concepts s; use_planning := use_planning s |}.

(** Intent-based adjustments. *)
Definition adjust_for_intent (default_top_k : Z) (intent : Intent) (s : Strategy) : Strategy :=
  match intent with
  | code =>
      {| mode := mode s; use_vector := use_vector s; use_memory := use_memory s;
         use_recent := use_recent s; use_code := true;
         use_keywords := use_keywords s; use_graph := use_graph s;
         top_k := 15; vector_n_results := 15; memory_limit := 10;
         memory_concepts := memory_concepts s; use_planning := use_planning s |}
  | status | config => set_budgets s 15 8 15
  | explain => set_budgets s (Z.max default_top_k 50) 15 30
  | general => s
  end.

(** Objective versus open-ended questions. *)
Definition adjust_for_shape (default_top_k : Z) (is_objective : bool) (qlen : Z)
    (s : Strategy) : Strategy :=
  if is_objective then
    {| mode := mode s; use_vector := use_vector s; use_memory := use_memory s;
       use_recent := use_recent s; use_code := use_code s;
       use_keywords := true; use_graph := false;
       top_k := Z.min (top_k s) 12;
       vector_n_results := Z.min (vector_n_results s) 8;
       memory_limit := memory_limit s;
       memory_concepts := memory_concepts s; use_planning := use_planning s |}
  else if 120 <? qlen then
    set_budgets s (Z.max (top_k s) (Z.max default_top_k 50))
      (Z.max (vector_n_results s) 18) (memory_limit s)
  else s.

(** The no-retrieval heuristic. *)
Definition skip_retrieval (s : Strategy) : Strategy :=
  {| mode := mode_none; use_vector := false; use_memory := false;
     use_recent := use_recent s; use_code := false;
     use_keywords := false; use_graph := false;
     top_k := top_k s; vector_n_results := vector_n_results s;
     memory_limit := memory_limit s;
     memory_concepts := memory_concepts s; use_planning := use_planning s |}.

Definition is_generic_definition (intent : Intent) (q_lower : pystr) : bool :=
  bool_decide (intent = explain) && any_in generic_terms q_lower
  && negb (any_in project_tokens q_lower).

Definition set_planning (s : Strategy) (b : bool) : Strategy :=
  {| mode := mode s; use_vector := use_vector s; use_memory := use_memory s;
     use_recent := use_recent s; use_code := use_code s;
     use_keywords := use_keywords s; use_graph := use_graph s;
     top_k := top_k s; vector_n_results := vector_n_results s;
     memory_limit := memory_limit s;
     memory_concepts := memory_concepts s; use_planning := b |}.

Definition _decide_retrieval_strategy (default_top_k : Z) (processed_query : ProcessedQuery)
    : Strategy :=
  let intent := intent processed_query in
  let q := original processed_query in
  let qlen := len q in
  let is_objective := any_in objective_markers (lower q) in
  let strategy := base_strategy processed_query in
  let strategy := adjust_for_intent default_top_k intent strategy in
  let strategy := adjust_for_shape default_top_k is_objective qlen strategy in
  let strategy :=
    if is_generic_definition intent (lower q) then skip_retrieval strategy
    else strategy in
  set_planning strategy
    ((160 <? len q) || any_in planning_triggers (lower q)).

(** [_plan_query]; [reply] is the text of the fast model's answer to the
    decomposition prompt, or [None] when anything in the [try] block raised. *)
Definition _plan_query (reply : option pystr) (query : pystr) : list pystr :=
  match reply with
  | Some text =>
      let subs :=
        map strip
          (List.filter (fun s => negb (bool_decide (strip s = [])))
             (split_on 10 (strip text))) in
      match subs with
      | [] => [query]
      | _ => slice_to 3 subs
      end
  | None => [query]
  end.

End Analysis.

(* ================================================================== *)
(** * Stage 2: de-duplication in [multi_agent_retrieval] *)
(* ================================================================== *)

Inductive AgentType := MEMORY | CODE | VECTOR | RECENT | KEYWORD | GRAPH.

Section Retrieval.
Context {F : Type}.

(** The interpreter's [hash] on strings. *)
Variable hash : pystr -> Z.

(** The loop over [all_documents]. *)
Fixpoint dedup_loop (all_documents : list (Doc F)) (seen : gset Z)
    (unique_docs : list (Doc F)) : list (Doc F) :=
  match all_documents with
  | [] => unique_docs
  | doc :: rest =>
      let doc_hash := hash (slice_to 200 (content doc)) in
      if decide (doc_hash ∈ seen) then dedup_loop rest seen unique_docs
      else dedup_loop rest ({[doc_hash]} ∪ seen) (unique_docs ++ [doc])
  end.

(** What the loop over [as_completed(futures)] gathers: the result of every
    agent that returned; an agent that raised contributes nothing. *)
Definition gather (completed : list (result (list (Doc F)))) : list (Doc F) :=
  flat_map (fun r => match r with Ok docs => docs | Raise _ => [] end) completed.

(** The de-duplication that ends [multi_agent_retrieval]. *)
Definition deduplicate (all_documents : list (Doc F)) : list (Doc F) :=
  dedup_loop all_documents ∅ [].

(** What each specialised agent does with the analysed query. *)
Variable agent : AgentType -> ProcessedQuery -> Strategy -> result (list (Doc F)).

(** The order in which the thread pool completes the futures. *)
Variable as_completed :
  list (result (list (Doc F))) -> list (result (list (Doc F))).

(** The futures, in the order they are submitted. *)
Definition launch (processed_query : ProcessedQuery) (strategy : Strategy)
    : list (result (list (Doc F))) :=
  let submit (enabled : bool) (a : AgentType) :=
    if enabled then [agent a processed_query strategy] else [] in
  submit (use_vector strategy) VECTOR
  ++ submit (use_memory strategy) MEMORY
  ++ submit (use_recent strategy) RECENT
  ++ submit (use_code strategy) CODE
  ++ submit (use_keywords strategy) KEYWORD
  ++ submit (use_graph strategy) GRAPH.

Definition multi_agent_retrieval (processed_query : ProcessedQuery)
    (strategy : Strategy) : list (Doc F) :=
  deduplicate (gather (as_completed (launch processed_query strategy))).

End Retrieval.

(* ================================================================== *)
(** * Stage 4: [compress_context] *)
(* ================================================================== *)

(** One element of [context_parts]: the f-string, split into what comes
    before the document text, the document text it embeds, and what comes
    after. *)
Record Part := mkPart {
  part_head : pystr;
  part_body : pystr;
  part_tail : pystr
}.

Definition render (p : Part) : pystr := part_head p ++ part_body p ++ part_tail p.

(** [doc.get('final_score', 0)]. *)
Definition final_score_or_0 (doc : Doc Q) : Q :=
  match final_score doc with Some s => s | None => 0%Q end.

(** ["[Doc {i+1}] (Score: {s:.2f})\n"]. *)
Definition score_head (i : Z) (doc : Doc Q) : pystr :=
  py "[Doc " ++ str_of_Z (i + 1) ++ py "] (Score: "
    ++ format_2f (final_score_or_0 doc) ++ py ")" ++ [10%N].

(** ["[Doc {i+1}] (Summary)\n"]. *)
Definition summary_head (i : Z) : pystr :=
  py "[Doc " ++ str_of_Z (i + 1) ++ py "] (Summary)" ++ [10%N].

(** The [for i, doc in enumerate(documents)] loop, with its two [break]s.
    The state is [(context_parts, current_size)]. *)
Fixpoint compress_loop (max_chars : Z) (i : Z) (documents : list (Doc Q))
    (context_parts : list Part) (current_size : Z) : list Part * Z :=
  match documents with
  | [] => (context_parts, current_size)
  | doc :: rest =>
      let content := content doc in
      if (i <? 10) || gtb (final_score_or_0 doc) f0_8 then
        if current_size + len content <=? max_chars then
          compress_loop max_chars (i + 1) rest
            (context_parts ++ [mkPart (score_head i doc) content [10%N]])
            (current_size + len content)
        else
          let remaining := max_chars - current_size in
          if 500 <? remaining then
            (context_parts
               ++ [mkPart (score_head i doc) (slice_to remaining content)
                          (py "... [truncated]" ++ [10%N])],
             current_size + remaining)
          else (context_parts, current_size)
      else
        let summary :=
          if 1500 <? len content then slice_to 1500 content else content in
        if current_size + len summary <=? max_chars then
          compress_loop max_chars (i + 1) rest
            (context_parts ++ [mkPart (summary_head i) summary (py "..." ++ [10%N])])
            (current_size + len summary)
        else (context_parts, current_size)
  end.

Definition compress_run (documents : list (Doc Q)) (max_chars : Z) : list Part * Z :=
  compress_loop max_chars 0 documents [] 0.

(** The document text that went into the context, in characters. *)
Definition packed_chars (parts : list Part) : Z :=
  fold_right (fun p acc => len (part_body p) + acc) 0 parts.

Definition compress_context (documents : list (Doc Q)) (max_chars : Z) : pystr :=
  match documents with
  | [] => []
  | _ => join [10%N] (map render (fst (compress_run documents max_chars)))
  end.

(** A ranked document that carries nothing but its text. *)
Definition plain_doc (text : pystr) : Doc Q :=
  mkDoc None text None ∅ None None None None.


(* ================================================================== *)
(** * The cache key *)
(* ================================================================== *)

(** [json.dumps] of a string with [ensure_ascii=False]: the quote, the
    backslash and the control characters are escaped, the rest is verbatim. *)
Definition hex_digit (n : N) : N := if (n <? 10)%N then (48 + n)%N else (87 + n)%N.

Definition json_escape (c : N) : pystr :=
  if (c =? 34)%N then [92; 34]%N
  else if (c =? 92)%N then [92; 92]%N
  else if (c =? 10)%N then [92; 110]%N
  else if (c =? 13)%N then [92; 114]%N
  else if (c =? 9)%N then [92; 116]%N
  else if (c =? 8)%N then [92; 98]%N
  else if (c =? 12)%N then [92; 102]%N
  else if (c <? 32)%N then [92; 117; 48; 48; hex_digit (c / 16); hex_digit (c mod 16)]%N
  else [c].

Definition json_string (s : pystr) : pystr := [34%N] ++ flat_map json_escape s ++ [34%N].

Definition json_bool (b : bool) : pystr := if b then py "true" else py "false".

(** The keyword arguments [_build_cache_key] passes to [make_key]. *)
Record KeyParts := mkKeyParts {
  kp_project : pystr;
  kp_query : pystr;
  kp_intent : pystr;
  kp_top_k : Z;
  kp_context_max : Z;
  kp_vector : bool;
  kp_memory : bool;
  kp_recent : bool
}.

(** [json.dumps(parts, sort_keys=True, ensure_ascii=False)]. *)
Definition dumps_key_parts (p : KeyParts) : pystr :=
  py "{" ++ json_string (py "context_max") ++ py ": " ++ str_of_Z (kp_context_max p)
  ++ py ", " ++ json_string (py "intent") ++ py ": " ++ json_string (kp_intent p)
  ++ py ", " ++ json_string (py "memory") ++ py ": " ++ json_bool (kp_memory p)
  ++ py ", " ++ json_string (py "project") ++ py ": " ++ json_string (kp_project p)
  ++ py ", " ++ json_string (py "query") ++ py ": " ++ json_string (kp_query p)
  ++ py ", " ++ json_string (py "recent") ++ py ": " ++ json_bool (kp_recent p)
  ++ py ", " ++ json_string (py "top_k") ++ py ": " ++ str_of_Z (kp_top_k p)
  ++ py ", " ++ json_string (py "vector") ++ py ": " ++ json_bool (kp_vector p)
  ++ py "}".

Section CacheKey.
Context `{CharTables}.

(** [hashlib.sha256(text.encode("utf-8")).hexdigest()]. *)
Variable sha256_hexdigest : pystr -> pystr.

(** [QueryCache.make_key]. *)
Definition make_key (parts : KeyParts) : pystr :=
  sha256_hexdigest (dumps_key_parts parts).

(** The three normalisation steps at the head of [_build_cache_key]. *)
Definition normalize_query (query : pystr) : pystr :=
  collapse_spaces (drop_punctuation (lower (strip query))).

(** [_build_cache_key]; [cache_enabled] is [bool(self.cache)]. *)
Definition _build_cache_key (cache_enabled : bool) (project_name : pystr)
    (context_max_chars : Z) (query : pystr) (processed_query : ProcessedQuery)
    (strategy : Strategy) : option pystr :=
  if cache_enabled then
    Some (make_key
            {| kp_project := project_name;
               kp_query := normalize_query query;
               kp_intent := intent_name (intent processed_query);
               kp_top_k := top_k strategy;
               kp_context_max := context_max_chars;
               kp_vector := use_vector strategy;
               kp_memory := use_memory strategy;
               kp_recent := use_recent strategy |})
  else None.

End CacheKey.

(* ================================================================== *)
(** * The query cache ([utils/cache.py]) *)
(* ================================================================== *)

(** What a file of the cache directory holds: the record [set] wrote, or
    text that [json.loads] rejects. *)
Inductive FileText (P : Type) : Type :=
| Garbled
| Stored (ts : Q) (ttl : Z) (payload : P).

Arguments Garbled {P}.
Arguments Stored {P} ts ttl payload.

Record File (P : Type) : Type := mkFile {
  st_mtime : Q;
  text : FileText P
}.

Arguments mkFile {P}.
Arguments st_mtime {P} f.
Arguments text {P} f.

Record QueryCache := mkCache {
  default_ttl : Z;
  max_entries : Z
}.

(** [QueryCache.__init__]. *)
Definition QueryCache_init (ttl_seconds max_entries : Z) : QueryCache :=
  {| default_ttl := Z.max 0 ttl_seconds; max_entries := Z.max 0 max_entries |}.

Section Cache.
Context {P : Type}.

(** The directory: one file per key. *)
Abbreviation Dir := (gmap pystr (File P)).

(** [self.cache_dir.glob("*.json")]: the files, in the order the file
    system lists them. *)
Variable glob : Dir -> list (pystr * File P).

(** [sorted(files, key=lambda p: p.stat().st_mtime, reverse=True)]. *)
Definition newest_first (l : list (pystr * File P)) : list (pystr * File P) :=
  sorted_reverse (fun kf => st_mtime (snd kf)) l.

Definition unlink_all (stale : list (pystr * File P)) (dir : Dir) : Dir :=
  fold_right (fun kf d => delete (fst kf) d) dir stale.

Definition _prune (c : QueryCache) (dir : Dir) : Dir :=
  let files := newest_first (glob dir) in
  unlink_all (slice_from (max_entries c) files) dir.

(** [QueryCache.get] at wall-clock time [now]: the answer and the directory
    it leaves. *)
Definition cache_get (c : QueryCache) (now : Q) (key : pystr) (dir : Dir) : option P * Dir :=
  match dir !! key with
  | None => (None, dir)
  | Some f =>
      match text f with
      | Garbled => (None, delete key dir)
      | Stored ts ttl payload =>
          if negb (ttl =? 0) && gtb (now - ts) (inject_Z ttl)
          then (None, delete key dir)
          else (Some payload, dir)
      end
  end.

(** [QueryCache.set] at wall-clock time [now]; the file it writes gets the
    modification time [mtime]. *)
Definition cache_set (c : QueryCache) (now mtime : Q) (key : pystr) (payload : P)
    (ttl : option Z) (dir : Dir) : Dir :=
  if max_entries c =? 0 then dir
  else
    let record :=
      Stored now (match ttl with Some t => t | None => default_ttl c end) payload in
    _prune c (<[key := mkFile mtime record]> dir).

End Cache.

(* ================================================================== *)
(** * Stage 3: [rerank_documents] *)
(* ================================================================== *)

Definition or_0 (o : option Q) : Q := match o with Some x => x | None => 0%Q end.

Definition with_final_score (doc : Doc Q) (s : Q) : Doc Q :=
  mkDoc (doc_id doc) (content doc) (source doc) (metadata doc) (score doc)
    (vector_score doc) (temporal_boost doc) (Some s).

Section Rerank.
Context `{CharTables}.

(** The cross-encoder's score of one [(query, text)] pair. *)
Variable predict : pystr -> pystr -> Q.

(** The signals combined into [final_score]; the arithmetic is carried out
    exactly. *)
Definition combined_score (query : pystr) (doc : Doc Q) : Q :=
  let s := predict query (slice_to 1000 (content doc)) in
  let s := match vector_score doc with Some v => (s + v * (2 # 10))%Q | None => s end in
  let s := match temporal_boost doc with Some b => (s * b)%Q | None => s end in
  if contains (lower query) (lower (content doc)) then (s * (12 # 10))%Q else s.

Definition rerank_documents (query : pystr) (documents : list (Doc Q)) (top_k : Z)
    : list (Doc Q) :=
  match documents with
  | [] => []
  | _ =>
      let quick_sorted :=
        sorted_reverse (fun x => (or_0 (score x) + or_0 (vector_score x))%Q) documents in
      let candidates_limit := Z.min (len quick_sorted) (Z.max 50 (top_k * 2)) in
      let candidates := slice_to candidates_limit quick_sorted in
      let candidates :=
        map (fun doc => with_final_score doc (combined_score query doc)) candidates in
      slice_to top_k (sorted_reverse (fun x => or_0 (final_score x)) candidates)
  end.

End Rerank.

(* ================================================================== *)
(** * The temporal agent *)
(* ================================================================== *)

Definition meta_get {F} (key : pystr) (meta : gmap pystr (json F)) : json F :=
  match meta !! key with Some v => v | None => JNull end.

Definition with_temporal_boost {F} (doc : Doc F) (b : F) : Doc F :=
  mkDoc (doc_id doc) (content doc) (source doc) (metadata doc) (score doc)
    (vector_score doc) (Some b) (final_score doc).

Section TemporalAgent.
Open Scope R_scope.

(** [datetime.now(timezone.utc)], in seconds since the epoch. *)
Variable now : R.

(** [datetime.fromtimestamp(x, tz=timezone.utc)]: the instant, or [None]
    when the call raises. *)
Variable fromtimestamp : R -> option R.

(** [datetime.fromisoformat(s)]: the instant when [s] parses to a datetime
    that carries an offset, [None] when parsing raises or when the result is
    naive (subtracting it from [now] raises). *)
Variable fromisoformat : pystr -> option R.

(** [str(v)] for a value that is not a string. *)
Variable str_of : json R -> pystr.

(** Truth value of a JSON value. *)
Definition truthy (v : json R) : bool :=
  match v with
  | JNull => false
  | JBool b => b
  | JNum x => if Req_dec_T x 0 then false else true
  | JStr s => negb (bool_decide (s = []))
  | JArr items => negb (bool_decide (length items = 0%nat))
  | JObj fields => negb (bool_decide (length fields = 0%nat))
  end.

(** [a or b]. *)
Definition py_or (a b : json R) : json R := if truthy a then a else b.

(** The two branches on [isinstance(ts_str, (int, float))]. *)
Definition parse_timestamp (ts_str : json R) : option R :=
  match ts_str with
  | JNum x => fromtimestamp x
  | JBool b => fromtimestamp (if b then 1 else 0)
  | JStr s => fromisoformat (replace_char 90 (py "+00:00") s)
  | v => fromisoformat (replace_char 90 (py "+00:00") (str_of v))
  end.

(** The decay schedule; [None] when the division raises. *)
Definition decay (half_life_days : Z) (age_days : R) : option R :=
  if Rle_dec age_days 1 then Some 3
  else if Rle_dec age_days 3 then Some 2
  else if Rle_dec age_days 7 then Some (15 / 10)
  else if (half_life_days =? 0)%Z then None
  else Some (1 + exp (- age_days / IZR half_life_days)).

Definition is_backtest_result (meta : gmap pystr (json R)) : bool :=
  match meta_get (py "doc_type") meta with
  | JStr s => bool_decide (s = py "backtest_result")
  | _ => false
  end.

(** The body of the [try] block: the boost, or [None] when it raises. *)
Definition boost_from_timestamp (half_life_days : Z) (meta : gmap pystr (json R))
    (ts_str : json R) : option R :=
  match parse_timestamp ts_str with
  | None => None
  | Some dt =>
      let age_days := Rmax 0 ((now - dt) / 86400) in
      match decay half_life_days age_days with
      | None => None
      | Some boost =>
          Some (if is_backtest_result meta then boost * (13 / 10) else boost)
      end
  end.

(** The boost the loop of [_temporal_agent] gives one document. *)
Definition boost_of (half_life_days : Z) (doc : Doc R) : R :=
  let meta := metadata doc in
  let ts_str := py_or (meta_get (py "updatedAt") meta) (meta_get (py "createdAt") meta) in
  if truthy ts_str then
    match boost_from_timestamp half_life_days meta ts_str with
    | Some boost => boost
    | None => 11 / 10
    end
  else 1.

(** [_temporal_agent], on the documents the memory search returned;
    [half_life_days] is [int(strategy.get('half_life_days', 3))], which is 3
    for every strategy the planner builds. *)
Definition _temporal_agent (half_life_days : Z) (results : list (Doc R)) : list (Doc R) :=
  map (fun doc => with_temporal_boost doc (boost_of half_life_days doc)) results.

End TemporalAgent.

(* ================================================================== *)
(** * The memory search client ([mcp_direct.py]) *)
(* ================================================================== *)

(** Run every computation of a list, in order, and stop at the first that
    raises. *)
Fixpoint for_each {A B} (f : A -> result (list B)) (l : list A) : result (list B) :=
  match l with
  | [] => Ok []
  | x :: l' => ys ← f x; zs ← for_each f l'; Ok (ys ++ zs)
  end.

(** What [subprocess.run] returns. *)
Record CompletedProcess := mkCompleted {
  returncode : Z;
  stdout : pystr
}.

(** The suffix of [s] that starts at the first [c]: [s[s.find(c):]]. *)
Fixpoint seek (c : N) (s : pystr) : option pystr :=
  match s with
  | [] => None
  | x :: s' => if (x =? c)%N then Some s else seek c s'
  end.

(** [s.replace(ab, rep)] for a two-character pattern. *)
Fixpoint replace2 (a b : N) (rep : pystr) (s : pystr) : pystr :=
  match s with
  | x :: s' =>
      match s' with
      | y :: s'' =>
          if ((x =? a) && (y =? b))%N then rep ++ replace2 a b rep s''
          else x :: replace2 a b rep s'
      | [] => s
      end
  | [] => []
  end.

(** The check mark that opens the result block, and the opening brace. *)
Definition check_mark : N := 9989%N.
Definition open_brace : N := 123%N.

Definition dict_get (key : pystr) (fields : list (pystr * json Q)) : option (json Q) :=
  match List.find (fun kv => bool_decide (fst kv = key)) fields with
  | Some kv => Some (snd kv)
  | None => None
  end.

Definition truthy_Q (v : json Q) : bool :=
  match v with
  | JNull => false
  | JBool b => b
  | JNum x => negb (Qeq_bool x 0)
  | JStr s => negb (bool_decide (s = []))
  | JArr items => negb (bool_decide (length items = 0%nat))
  | JObj fields => negb (bool_decide (length fields = 0%nat))
  end.

(** [entity.get(a) or entity.get(b)]. *)
Definition get_or_get (a b : pystr) (fields : list (pystr * json Q)) : json Q :=
  let x := match dict_get a fields with Some v => v | None => JNull end in
  if truthy_Q x then x
  else match dict_get b fields with Some v => v | None => JNull end.

Section MemoryClient.
Context `{CharTables}.

(** [ansi_escape.sub('', output)]. *)
Variable ansi_strip : pystr -> pystr.

(** [json.loads]. *)
Variable json_loads : pystr -> result (json Q).

(** [re.findall(pattern, text)] for the observations pattern: the text
    between the quotes of the first observation of every match. *)
Variable find_observations : pystr -> list pystr.

(** ['entities' in data]. *)
Definition has_entities (data : json Q) : result bool :=
  match data with
  | JObj fields =>
      Ok (match dict_get (py "entities") fields with Some _ => true | None => false end)
  | JArr items =>
      Ok (existsb (fun v => match v with
                            | JStr s => bool_decide (s = py "entities")
                            | _ => false
                            end) items)
  | JStr s => Ok (contains (py "entities") s)
  | _ => Raise OtherException
  end.

(** [data['entities'][:limit]], as the list the [for] loop runs over. *)
Definition entities_slice (data : json Q) (limit : Z) : result (list (json Q)) :=
  match data with
  | JObj fields =>
      match dict_get (py "entities") fields with
      | Some (JArr items) => Ok (slice_to limit items)
      | Some (JStr s) => Ok (map (fun c => JStr [c]) (slice_to limit s))
      | _ => Raise OtherException
      end
  | _ => Raise OtherException
  end.

(** [for obs in observations]. *)
Definition iterate (v : json Q) : result (list (json Q)) :=
  match v with
  | JArr items => Ok items
  | JStr s => Ok (map (fun c => JStr [c]) s)
  | JObj fields => Ok (map (fun kv => JStr (fst kv)) fields)
  | _ => Raise OtherException
  end.

Definition observation_docs (meta : gmap pystr (json Q)) (obs : json Q)
    : result (list (Doc Q)) :=
  match obs with
  | JStr s => Ok (if 100 <? len (strip s) then [memory_doc 1%Q s meta] else [])
  | _ => Raise OtherException
  end.

(** The body of [for entity in ...]. *)
Definition entity_docs (entity : json Q) : result (list (Doc Q)) :=
  match entity with
  | JObj fields =>
      let observations :=
        match dict_get (py "observations") fields with Some v => v | None => JArr [] end in
      let ent_name :=
        match dict_get (py "name") fields with Some v => v | None => JStr [] end in
      let ent_type :=
        match dict_get (py "entityType") fields with Some v => v | None => JStr [] end in
      let ent_created := get_or_get (py "createdAt") (py "created_at") fields in
      let ent_updated := get_or_get (py "updatedAt") (py "updated_at") fields in
      let meta : gmap pystr (json Q) :=
        <[py "entity" := ent_name]> (<[py "type" := ent_type]>
          (<[py "createdAt" := ent_created]> (<[py "updatedAt" := ent_updated]> ∅))) in
      items ← iterate observations;
      for_each (observation_docs meta) items
  | _ => Raise OtherException
  end.

(** From [data = json.loads(json_str)] to [return docs[:limit]]. *)
Definition docs_of_json (json_str : pystr) (limit : Z) : result (list (Doc Q)) :=
  data ← json_loads json_str;
  present ← has_entities data;
  docs ← (if present : bool then
            entities ← entities_slice data limit;
            for_each entity_docs entities
          else Ok []);
  Ok (slice_to limit docs).

(** The three [replace] calls that undo the JSON escapes. *)
Definition unescape (m : pystr) : pystr :=
  replace2 92 92 [92%N] (replace2 92 34 [34%N] (replace2 92 110 [10%N] m)).

Definition regex_doc (text : pystr) : Doc Q :=
  memory_doc 1%Q text (<[py "source" := JStr (py "regex_extraction")]> ∅).

(** [_extract_via_regex]. *)
Definition _extract_via_regex (text : pystr) (limit : Z) : list (Doc Q) :=
  let matches := find_observations (slice_to 500000 text) in
  flat_map (fun m =>
              let content := unescape m in
              if 100 <? len content then [regex_doc content] else [])
           (slice_to limit matches).

(** The body of the outer [try] of [search]; [run] is what
    [subprocess.run] did. *)
Definition search_try (run : result CompletedProcess) (limit : Z) : result (list (Doc Q)) :=
  proc ← run;
  if negb (returncode proc =? 0) then Ok []
  else
    let clean := ansi_strip (stdout proc) in
    match seek check_mark clean with
    | Some from_mark =>
        match seek open_brace from_mark with
        | Some json_str =>
            match docs_of_json json_str limit with
            | Raise JSONDecodeError => Ok (_extract_via_regex clean limit)
            | r => r
            end
        | None => Ok []
        end
    | None => Ok []
    end.

(** [MCPMemoryDirect.search]: the [try] with its two handlers. *)
Definition search (run : result CompletedProcess) (limit : Z) : result (list (Doc Q)) :=
  match search_try run limit with
  | Ok docs => Ok docs
  | Raise TimeoutExpired => Ok []
  | Raise _ => Ok []
  end.

End MemoryClient.

(* ================================================================== *)
(** * The pipeline controller: [query] *)
(* ================================================================== *)

(** The record a run logs and caches. *)
Record RunRecord := mkRun {
  run_query : pystr;
  run_intent : Intent;
  retrieved : Z;
  reranked : Z;
  context_chars : Z;
  confidence : Q;
  elapsed_sec : Q;
  from_cache : bool;
  answer : pystr;
  project : pystr;
  timestamp : pystr;
  cache_ttl : Z
}.

(** What the run reads from the clock: the time of the cache probe, the
    time of the cache write and the modification time the written file gets,
    the rounded elapsed time and the ISO time stamp of the record. *)
Record Clock := mkClock {
  t_probe : Q;
  t_store : Q;
  t_mtime : Q;
  elapsed : Q;
  stamp : pystr
}.

(** What a run leaves behind: the pair it returns, the record it hands to
    the monitor, and the cache directory. *)
Record Outcome := mkOutcome {
  out_answer : pystr;
  out_confidence : Q;
  out_record : RunRecord;
  out_dir : gmap pystr (File RunRecord)
}.

(** The answer given when there is no context. *)
Definition no_information : pystr :=
  [10060%N] ++ py " N" ++ [227%N] ++ py "o encontrei informa" ++ [231%N; 245%N]
  ++ py "es relevantes na base de conhecimento.".

(** [min(100, x)]. *)
Definition min_100 (x : Q) : Q := if Qle_bool 100 x then 100%Q else x.

Section Pipeline.
Context `{CharTables}.

Variable sha256_hexdigest : pystr -> pystr.
Variable hash : pystr -> Z.
Variable glob : gmap pystr (File RunRecord) -> list (pystr * File RunRecord).

(** The fast model: concepts, expansions, and the reply to the planning
    prompt. *)
Variable extract_concepts : pystr -> list pystr.
Variable expand_query : pystr -> list pystr.
Variable plan_reply : pystr -> option pystr.

Variable agent : AgentType -> ProcessedQuery -> Strategy -> result (list (Doc Q)).
Variable as_completed :
  list (result (list (Doc Q))) -> list (result (list (Doc Q))).
Variable predict : pystr -> pystr -> Q.

(** The main model, from what the prompt is built of: the query, the
    context, the intent, the concepts and the two document counts. *)
Variable main_llm : pystr -> pystr -> Intent -> list pystr -> Z -> Z -> result pystr.

(** The fields [__init__] sets. *)
Variable project_name : pystr.
Variable context_max_chars : Z.
Variable default_top_k : Z.
Variable cache : option QueryCache.
Variable intent_cache_policy : Intent -> option Z.

Definition _cache_ttl_for_intent (intent : Intent) : Z :=
  match cache with
  | None => 0
  | Some c =>
      match intent_cache_policy intent with
      | None => default_ttl c
      | Some ttl => if ttl <? 0 then default_ttl c else ttl
      end
  end.

Definition generate_answer (query context : pystr) (intent : Intent)
    (concepts : list pystr) (total_docs reranked_docs : Z) : result pystr :=
  match context with
  | [] => Ok no_information
  | _ => main_llm query context intent concepts total_docs reranked_docs
  end.

(** [if cache_key: self.cache.set(cache_key, record, ttl=cache_ttl)]. *)
Definition store (clock : Clock) (cache_key : option pystr) (record : RunRecord)
    (dir : gmap pystr (File RunRecord)) : gmap pystr (File RunRecord) :=
  match cache, cache_key with
  | Some c, Some key =>
      cache_set glob c (t_store clock) (t_mtime clock) key record
        (Some (cache_ttl record)) dir
  | _, _ => dir
  end.

(** Stage 2 of [query]: one retrieval, or one per sub-question. *)
Definition retrieve (user_query : pystr) (processed_query : ProcessedQuery)
    (strategy : Strategy) : list (Doc Q) :=
  if use_planning strategy then
    flat_map
      (fun sq =>
         multi_agent_retrieval hash agent as_completed
           (process_query extract_concepts expand_query sq) strategy)
      (_plan_query (plan_reply user_query) user_query)
  else multi_agent_retrieval hash agent as_completed processed_query strategy.

Definition query (clock : Clock) (dir : gmap pystr (File RunRecord))
    (user_query : pystr) : result Outcome :=
  let processed_query := process_query extract_concepts expand_query user_query in
  let intent := intent processed_query in
  let strategy := _decide_retrieval_strategy default_top_k processed_query in
  let cache_key :=
    _build_cache_key sha256_hexdigest
      (match cache with Some _ => true | None => false end)
      project_name context_max_chars user_query processed_query strategy in
  let probe :=
    match cache, cache_key with
    | Some c, Some key => cache_get c (t_probe clock) key dir
    | _, _ => (None, dir)
    end in
  let dir := snd probe in
  let record (n_retrieved n_reranked n_chars : Z) (conf : Q) (text : pystr) :=
    {| run_query := user_query; run_intent := intent;
       retrieved := n_retrieved; reranked := n_reranked;
       context_chars := n_chars; confidence := conf;
       elapsed_sec := elapsed clock; from_cache := false; answer := text;
       project := project_name; timestamp := stamp clock;
       cache_ttl := _cache_ttl_for_intent intent |} in
  match fst probe with
  | Some cached_payload =>
      let log_entry :=
        {| run_query := user_query; run_intent := intent;
           retrieved := retrieved cached_payload;
           reranked := reranked cached_payload;
           context_chars := context_chars cached_payload;
           confidence := confidence cached_payload;
           elapsed_sec := elapsed clock; from_cache := true;
           answer := answer cached_payload;
           project := project_name; timestamp := stamp clock;
           cache_ttl := cache_ttl cached_payload |} in
      Ok (mkOutcome (answer cached_payload) (confidence cached_payload) log_entry dir)
  | None =>
      match mode strategy with
      | mode_none =>
          text ← generate_answer user_query [] intent [] 0 0;
          let stats := record 0 0 0 50%Q text in
          Ok (mkOutcome text 50%Q stats (store clock cache_key stats dir))
      | hybrid =>
          let documents := retrieve user_query processed_query strategy in
          match documents with
          | [] =>
              let no_data_stats := record 0 0 0 0%Q no_information in
              Ok (mkOutcome no_information 0%Q no_data_stats
                    (store clock cache_key no_data_stats dir))
          | _ =>
              let reranked_docs :=
                rerank_documents predict user_query documents (top_k strategy) in
              let compressed_context :=
                compress_context reranked_docs context_max_chars in
              text ← generate_answer user_query compressed_context intent
                       (concepts processed_query) (len documents) (len reranked_docs);
              let confidence := min_100 (inject_Z (len reranked_docs) * 2)%Q in
              let run_payload :=
                record (len documents) (len reranked_docs)
                  (len compressed_context) confidence text in
              Ok (mkOutcome text confidence run_payload
                    (store clock cache_key run_payload dir))
          end
      end
  end.

End Pipeline.

(* ================================================================== *)
(** * The fast model's lists: [extract_concepts], [expand_query] *)
(* ================================================================== *)

Section FastModel.
Context `{CharTables}.

(** [[c.strip() for c in text.strip().split('\n') if c.strip()]]. *)
Definition nonblank_lines (text : pystr) : list pystr :=
  map strip
    (List.filter (fun s => negb (bool_decide (strip s = [])))
       (split_on 10 (strip text))).

(** [extract_concepts]; [reply] is the text of the model's answer, or
    [None] when anything in the [try] block raised. *)
Definition extract_concepts (reply : option pystr) : list pystr :=
  match reply with
  | Some text => slice_to 5 (nonblank_lines text)
  | None => []
  end.

(** [expand_query]. *)
Definition expand_query (reply : option pystr) : list pystr :=
  match reply with
  | Some text => slice_to 3 (nonblank_lines text)
  | None => []
  end.

End FastModel.

(* ================================================================== *)
(** * The vector and memory agents *)
(* ================================================================== *)

Section Agents.

(** [self.vector_store.search(q, n_results=n)]. *)
Variable vector_search : pystr -> Z -> list (Doc Q).

(** [self.mcp_client.search(q, limit=n)]. *)
Variable memory_search : pystr -> Z -> list (Doc Q).

(** [sum(1 for doc in all_results if doc.get('score', 0) > 0.8)]. *)
Definition high_quality (all_results : list (Doc Q)) : Z :=
  len (List.filter (fun doc => gtb (or_0 (score doc)) f0_8) all_results).

(** The loop over the query variants, with its early stop. *)
Fixpoint vector_loop (n_results : Z) (all_queries : list pystr)
    (all_results : list (Doc Q)) : list (Doc Q) :=
  match all_queries with
  | [] => all_results
  | q :: rest =>
      let all_results := all_results ++ vector_search q n_results in
      if 30 <=? high_quality all_results then all_results
      else vector_loop n_results rest all_results
  end.

Definition _vector_agent (processed_query : ProcessedQuery) (strategy : Strategy)
    : list (Doc Q) :=
  let all_queries :=
    [original processed_query] ++ concepts processed_query
      ++ expansions processed_query in
  vector_loop (vector_n_results strategy) all_queries [].

Definition _memory_agent (processed_query : ProcessedQuery) (strategy : Strategy)
    : list (Doc Q) :=
  let limit := memory_limit strategy in
  let per_concept := memory_concepts strategy in
  memory_search (original processed_query) limit
  ++ flat_map (fun concept => memory_search concept (Z.max 5 (limit / 2)))
       (slice_to per_concept (concepts processed_query)).

End Agents.

(* ================================================================== *)
(** * The keyword scanner's token ([keyword_retriever.py]) *)
(* ================================================================== *)

(** [re.split(pattern, s)] for a pattern that is one or more characters
    outside a class: the pieces between the runs of separators, with the
    empty pieces at the ends.  [cur] is the piece being read, reversed. *)
Fixpoint re_split_from (in_class : N -> bool) (in_sep : bool) (cur : pystr)
    (s : pystr) : list pystr :=
  match s with
  | [] => [rev cur]
  | c :: s' =>
      if in_class c then re_split_from in_class false (c :: cur) s'
      else if in_sep then re_split_from in_class true cur s'
      else rev cur :: re_split_from in_class true [] s'
  end.

Definition re_split (in_class : N -> bool) (s : pystr) : list pystr :=
  re_split_from in_class false [] s.

(** [w] is made of characters of the class; [w] occurs in [s] as a run of
    consecutive characters. *)
Definition run_of (in_class : N -> bool) (w : pystr) : Prop :=
  Forall (fun c => in_class c = true) w.

Definition occurs_in (w s : pystr) : Prop := exists a b, s = a ++ w ++ b.

(** The class [[A-Za-z0-9_]]. *)
Definition token_char (c : N) : bool :=
  Latin1.in_range 65 90 c || Latin1.in_range 97 122 c
  || Latin1.in_range 48 57 c || (c =? 95)%N.

(** [KeywordRetriever._select_token]. *)
Definition _select_token (query : pystr) : option pystr :=
  let tokens := List.filter (fun t => 3 <? len t) (re_split token_char query) in
  match sorted_reverse (fun t => inject_Z (len t)) tokens with
  | t :: _ => Some t
  | [] => None
  end.

(* ================================================================== *)
(** * The entity graph ([entity_graph.py]) *)
(* ================================================================== *)

Record Entity := mkEntity {
  ent_name : pystr;
  ent_type : pystr;
  ent_description : pystr;
  ent_documents : list pystr;
  ent_depends_on : list pystr;
  ent_feeds : list pystr;
  ent_tags : list pystr
}.

Section EntityGraph.
Context `{CharTables}.

(** [EntityGraph._tokenize]. *)
Definition graph_tokenize (query : pystr) : list pystr :=
  match List.filter (fun t => negb (bool_decide (t = [])))
          (re_split is_word (lower query)) with
  | [] => [lower query]
  | tokens => tokens
  end.

(** What one token adds to the score of an entity. *)
Definition token_score (entity : Entity) (token : pystr) : Q :=
  ((if contains token (lower (ent_name entity)) then 2 else 0)
   + (if contains token (lower (ent_description entity)) then 1 else 0)
   + (if contains token (lower (join (py ",") (ent_tags entity))) then 3 # 2 else 0))%Q.

(** The three fields [_score] looks into. *)
Definition entity_mentions (entity : Entity) (token : pystr) : bool :=
  contains token (lower (ent_name entity))
  || contains token (lower (ent_description entity))
  || contains token (lower (join (py ",") (ent_tags entity))).

(** [EntityGraph._score]. *)
Definition graph_score (entity : Entity) (tokens : list pystr) : Q :=
  fold_left (fun score token => (score + token_score entity token)%Q) tokens 0%Q.

(** ["entity::{ent.name}"]. *)
Definition entity_id (entity : Entity) : pystr := py "entity::" ++ ent_name entity.

(** The [(score, ent)] pairs of the entities that score above zero, after
    [scored.sort(key=lambda item: item[0], reverse=True)]. *)
Definition graph_scored (entities : list Entity) (tokens : list pystr)
    : list (Q * Entity) :=
  sorted_reverse fst
    (List.filter (fun se => gtb (fst se) 0)
       (map (fun ent => (graph_score ent tokens, ent)) entities)).

(** The dictionary built for one pair; [serialize] is [Entity.serialize].
    The score is a sum of 2.0, 1.0 and 1.5, which [round(score, 3)] leaves
    as it is. *)
Definition graph_doc (serialize : Entity -> pystr) (se : Q * Entity) : Doc Q :=
  mkDoc (Some (entity_id (snd se))) (serialize (snd se))
    (Some (py "entity_graph"))
    (<[py "entity" := JStr (ent_name (snd se))]>
       (<[py "entity_type" := JStr (ent_type (snd se))]>
          (<[py "score" := JNum (fst se)]> ∅)))
    None None None None.

(** [EntityGraph.search], on the entities the graph loaded. *)
Definition graph_search (serialize : Entity -> pystr) (entities : list Entity)
    (query : pystr) (limit : Z) : list (Doc Q) :=
  match entities with
  | [] => []
  | _ =>
      map (graph_doc serialize)
        (slice_to limit (graph_scored entities (graph_tokenize query)))
  end.

End EntityGraph.

(* ================================================================== *)
(** * The code symbol index ([serena_code_index.py]) *)
(* ================================================================== *)

Record SerenaSymbol := mkSymbol {
  sym_name : pystr;
  sym_full_name : pystr;
  sym_relative_path : pystr;
  sym_start_line : Z;
  sym_end_line : Z
}.

(** The order-preserving de-duplication at the end of [_tokenize]. *)
Fixpoint unique_from (seen : gset pystr) (tokens : list pystr) : list pystr :=
  match tokens with
  | [] => []
  | token :: rest =>
      if decide (token ∈ seen) then unique_from seen rest
      else token :: unique_from ({[token]} ∪ seen) rest
  end.

Section CodeIndex.
Context `{CharTables}.

(** [SerenaCodeIndex._tokenize]. *)
Definition serena_tokenize (queries : list pystr) : list pystr :=
  unique_from ∅
    (flat_map
       (fun query =>
          match query with
          | [] => []
          | _ => List.filter (fun p => negb (bool_decide (p = [])))
                   (re_split token_char (lower query))
          end)
       queries).

(** What one token adds to the score of a symbol. *)
Definition symbol_gain (symbol : SerenaSymbol) (token : pystr) : Q :=
  if contains token (lower (sym_name symbol)) then 3
  else if contains token (lower (sym_full_name symbol)) then 2
  else if contains token (lower (sym_relative_path symbol)) then 1
  else 0.

(** [SerenaCodeIndex._score_symbol]. *)
Definition _score_symbol (symbol : SerenaSymbol) (tokens : list pystr) : Q :=
  fold_left
    (fun score token =>
       if contains token (lower (sym_name symbol)) then (score + 3)%Q
       else if contains token (lower (sym_full_name symbol)) then (score + 2)%Q
       else if contains token (lower (sym_relative_path symbol)) then (score + 1)%Q
       else score)
    tokens 0%Q.

(** [SerenaCodeIndex._read_snippet] with its [context_lines] of 8;
    [lines] is [text.splitlines()] of the symbol's file, or [None] when
    reading it raised. *)
Definition _read_snippet (lines : option (list pystr)) (symbol : SerenaSymbol)
    : option pystr :=
  match lines with
  | None => None
  | Some lines =>
      let start := Z.max 0 (sym_start_line symbol - 8) in
      let end_ := Z.min (len lines) (sym_end_line symbol + 8 + 1) in
      let snippet_lines := slice_from start (slice_to end_ lines) in
      let header :=
        py "# File: " ++ sym_relative_path symbol ++ py ":"
          ++ str_of_Z (start + 1) ++ py "-" ++ str_of_Z end_ ++ [10%N] in
      Some (header ++ join [10%N] snippet_lines)
  end.

(** ["serena::{sym.relative_path}:{sym.start_line + 1}"]. *)
Definition serena_id (symbol : SerenaSymbol) : pystr :=
  py "serena::" ++ sym_relative_path symbol ++ py ":"
    ++ str_of_Z (sym_start_line symbol + 1).

(** The loop of [SerenaCodeIndex.search] over [scored[:limit]]. *)
Definition serena_results (read_lines : SerenaSymbol -> option (list pystr))
    (scored : list (Q * SerenaSymbol)) : list (Doc Q) :=
  flat_map
    (fun ss =>
       match _read_snippet (read_lines (snd ss)) (snd ss) with
       | None | Some [] => []
       | Some snippet =>
           [mkDoc (Some (serena_id (snd ss))) snippet (Some (py "serena_code"))
              (<[py "path" := JStr (sym_relative_path (snd ss))]>
                 (<[py "start_line" := JNum (inject_Z (sym_start_line (snd ss) + 1))]>
                    (<[py "end_line" := JNum (inject_Z (sym_end_line (snd ss) + 1))]>
                       (<[py "symbol" := JStr (sym_full_name (snd ss))]>
                          (<[py "score" := JNum (fst ss)]> ∅)))))
              None None None None]
       end)
    scored.

(** The [(score, sym)] pairs of the symbols that score above zero, after
    [scored.sort(key=lambda item: item[0], reverse=True)]. *)
Definition serena_scored (symbols : list SerenaSymbol) (tokens : list pystr)
    : list (Q * SerenaSymbol) :=
  sorted_reverse fst
    (List.filter (fun ss => gtb (fst ss) 0)
       (map (fun sym => (_score_symbol sym tokens, sym)) symbols)).

(** [SerenaCodeIndex.search], on the symbols the index loaded. *)
Definition serena_search (read_lines : SerenaSymbol -> option (list pystr))
    (symbols : list SerenaSymbol) (queries : list pystr) (limit : Z)
    : list (Doc Q) :=
  match symbols, queries with
  | [], _ | _, [] => []
  | _, _ =>
      match serena_tokenize queries with
      | [] => []
      | tokens =>
          serena_results read_lines (slice_to limit (serena_scored symbols tokens))
      end
  end.

(** The three fields [_score_symbol] looks into. *)
Definition symbol_mentions (symbol : SerenaSymbol) (token : pystr) : bool :=
  contains token (lower (sym_name symbol))
  || contains token (lower (sym_full_name symbol))
  || contains token (lower (sym_relative_path symbol)).

End CodeIndex.

(* ================================================================== *)
(** * A concrete environment for running the definitions *)
(* ================================================================== *)

Module Demo.

#[local] Existing Instance Latin1.tables.

(** Stand-ins for the interpreter's hashes. *)
Definition hash (s : pystr) : Z := fold_right (fun c acc => Z.of_N c + 31 * acc) 7 s.
Definition sha256_hexdigest (s : pystr) : pystr := str_of_Z (hash s).

(** A fast model that is down: no concepts, no expansions, no plan. *)
Definition no_list (q : pystr) : list pystr := [].
Definition no_reply (q : pystr) : option pystr := None.

(** A memory observation of 120 characters. *)
Definition observation : pystr := repeat 97%N 120.

(** Only the memory agent finds something. *)
Definition agent (a : AgentType) (pq : ProcessedQuery) (st : Strategy)
    : result (list (Doc Q)) :=
  match a with
  | MEMORY => Ok [memory_doc 1%Q observation ∅]
  | _ => Ok []
  end.

Definition in_order (l : list (result (list (Doc Q)))) := l.

Definition predict (q text : pystr) : Q := 1 # 2.

Definition main_llm (q ctx : pystr) (i : Intent) (cs : list pystr) (n m : Z)
    : result pystr := Ok (py "answer").

Definition listing {P} (dir : gmap pystr (File P)) : list (pystr * File P) :=
  map_to_list dir.

Definition clock : Clock := mkClock 10 11 11 (1 # 2) (py "2025-01-01T00:00:00Z").

Definition policy (i : Intent) : option Z :=
  match i with
  | status => Some 180
  | general => Some 600
  | explain => Some 600
  | code => Some 90
  | config => None
  end.

(** A pipeline with the defaults of [__init__], but for the context
    budget. *)
Definition run_with (context_max_chars : Z) (dir : gmap pystr (File RunRecord))
    (q : pystr) : result Outcome :=
  query sha256_hexdigest hash listing no_list no_list no_reply agent in_order
    predict main_llm (py "scalp") context_max_chars 40
    (Some (QueryCache_init 900 256)) policy clock dir q.

Definition run (dir : gmap pystr (File RunRecord)) (q : pystr) : result Outcome :=
  run_with 120000 dir q.

(** The same pipeline with [RAG_DISABLE_CACHE=1]. *)
Definition run_uncached (dir : gmap pystr (File RunRecord)) (q : pystr)
    : result Outcome :=
  query sha256_hexdigest hash listing no_list no_list no_reply agent in_order
    predict main_llm (py "scalp") 120000 40 None policy clock dir q.

(** "defina cache" and a question that is generic and an explanation. *)
Definition defina_cache : pystr := py "defina cache".
Definition o_que_e_cache : pystr := Words.o_que_e ++ py " cache e como funciona".

(** A directory that already holds a record for "defina cache", stored
    with ttl 0. *)
Definition stored_record : RunRecord :=
  mkRun defina_cache general 1 1 143 2 (1 # 2) false (py "answer") (py "scalp")
    (py "2025-01-01T00:00:00Z") 0.

Definition warm_dir : gmap pystr (File RunRecord) :=
  match
    _build_cache_key sha256_hexdigest true (py "scalp") 120000 defina_cache
      (process_query no_list no_list defina_cache)
      (_decide_retrieval_strategy 40 (process_query no_list no_list defina_cache))
  with
  | Some key => <[key := mkFile 0 (Stored 0 0 stored_record)]> ∅
  | None => ∅
  end.

(** What a run returned, for a run that did return. *)
Definition outcome_of (r : result Outcome) : Outcome :=
  match r with
  | Ok o => o
  | Raise _ =>
      mkOutcome [] 0%Q (mkRun [] general 0 0 0 0%Q 0%Q false [] [] [] 0) ∅
  end.

Definition returned {A} (r : result A) : bool :=
  match r with Ok _ => true | Raise _ => false end.

(** A memory service whose output is cut short: the result block opens but
    [json.loads] rejects it, and the pattern finds one observation. *)
Definition same_text (s : pystr) : pystr := s.
Definition rejects (s : pystr) : result (json Q) := Raise JSONDecodeError.
Definition one_observation (s : pystr) : list pystr := [observation].
Definition cut_short : CompletedProcess :=
  mkCompleted 0 ([check_mark] ++ py " Resultados: {" ++ [34%N] ++ py "entities").

(** A clock at the epoch, numeric time stamps taken as they are, and no
    ISO string that parses. *)
Definition epoch_seconds (x : R) : option R := Some x.
Definition no_iso (s : pystr) : option R := None.
Definition no_str (v : json R) : pystr := [].

(** A memory document updated [days] days before the epoch. *)
Definition updated_days_ago (days : R) : Doc R :=
  memory_doc 1%R observation
    (<[py "updatedAt" := JNum (- (days * 86400))%R]> ∅).

(** A question about a bug: its intent is [code]. *)
Definition bug_query : ProcessedQuery :=
  process_query no_list no_list (py "bug no cache").

End Demo.


(* ================================================================== *)
(** * Properties *)
(* ================================================================== *)

(** ** Lists and strings *)

Lemma len_nonneg {A} (s : list A) : 0 <= len s.
Proof. unfold len. lia. Qed.

Lemma len_app {A} (a b : list A) : len (a ++ b) = len a + len b.
Proof. unfold len. rewrite length_app. lia. Qed.

Lemma len_slice_to {A} (n : Z) (s : list A) :
  0 <= n <= len s -> len (slice_to n s) = n.
Proof.
  unfold slice_to, len. intros [H0 H1].
  destruct (0 <=? n) eqn:E; [|lia].
  rewrite length_firstn. lia.
Qed.

Lemma len_slice_to_le {A} (n : Z) (s : list A) : len (slice_to n s) <= len s.
Proof.
  unfold slice_to, len. destruct (0 <=? n); rewrite length_firstn; lia.
Qed.

Lemma length_slice_to_le {A} (n : Z) (s : list A) :
  0 <= n -> (length (slice_to n s) <= Z.to_nat n)%nat.
Proof.
  unfold slice_to. intros Hn. destruct (0 <=? n) eqn:E; [|lia].
  rewrite length_firstn. lia.
Qed.

Lemma In_firstn {A} (n : nat) (s : list A) (x : A) : In x (firstn n s) -> In x s.
Proof.
  revert n. induction s as [|a s IH]; intros [|n]; simpl; try tauto.
  intros [->|Hx]; [left; reflexivity | right; exact (IH n Hx)].
Qed.

Lemma In_slice_to {A} (n : Z) (s : list A) (x : A) : In x (slice_to n s) -> In x s.
Proof. unfold slice_to. destruct (0 <=? n); apply In_firstn. Qed.

(** ** C1: the context budget *)

Lemma packed_chars_app (parts : list Part) (p : Part) :
  packed_chars (parts ++ [p]) = packed_chars parts + len (part_body p).
Proof.
  induction parts as [|q parts IH]; simpl; [lia|]. rewrite IH. lia.
Qed.

Lemma packed_chars_nonneg (parts : list Part) : 0 <= packed_chars parts.
Proof.
  induction parts as [|q parts IH]; simpl; [lia|].
  pose proof (len_nonneg (part_body q)). lia.
Qed.

(** The loop keeps [current_size] equal to the document text it has
    packed, and within the budget. *)
Lemma compress_loop_budget (max_chars : Z) (documents : list (Doc Q)) :
  forall (i : Z) (parts : list Part) (size : Z),
    packed_chars parts = size -> size <= max_chars ->
    packed_chars (fst (compress_loop max_chars i documents parts size))
      = snd (compress_loop max_chars i documents parts size)
    /\ snd (compress_loop max_chars i documents parts size) <= max_chars.
Proof.
  induction documents as [|doc rest IH]; intros i parts size Hsum Hle; simpl.
  - split; assumption.
  - destruct ((i <? 10) || gtb (final_score_or_0 doc) f0_8).
    + destruct (size + len (content doc) <=? max_chars) eqn:Hfit.
      * apply IH; [rewrite packed_chars_app; simpl; lia | lia].
      * destruct (500 <? max_chars - size) eqn:Hrem; simpl.
        -- rewrite packed_chars_app; simpl.
           rewrite len_slice_to; [lia|].
           pose proof (len_nonneg (content doc)). lia.
        -- split; assumption.
    + destruct (size + len (if 1500 <? len (content doc)
                            then slice_to 1500 (content doc)
                            else content doc) <=? max_chars) eqn:Hfit.
      * apply IH; [rewrite packed_chars_app; simpl; lia | lia].
      * simpl. split; assumption.
Qed.

Lemma len_join_render (sep : pystr) (parts : list Part) :
  packed_chars parts <= len (join sep (map render parts)).
Proof.
  induction parts as [|p parts IH]; simpl; [unfold len; simpl; lia|].
  destruct parts as [|q parts].
  - simpl. unfold render. rewrite !len_app.
    pose proof (len_nonneg (part_head p)). pose proof (len_nonneg (part_tail p)). lia.
  - change (map render (q :: parts)) with (render q :: map render parts) in *.
    cbn [join] in *. rewrite !len_app. unfold render at 1. rewrite !len_app.
    pose proof (len_nonneg (part_head p)). pose proof (len_nonneg (part_tail p)).
    pose proof (len_nonneg sep).
    cbn [packed_chars fold_right] in *. lia.
Qed.

(** C1, as amended.  For a budget [max_chars >= 0], the document text packed
    into the context (the contents, truncated contents and summaries that
    the parts embed, which is what [current_size] counts) is at most
    [max_chars]; the returned string holds that text plus, for every part,
    a header, a suffix and a separator, which the budget does not count. *)
Theorem compress_context_packs_within_budget
    (documents : list (Doc Q)) (max_chars : Z) :
  0 <= max_chars ->
  let parts := fst (compress_run documents max_chars) in
  packed_chars parts = snd (compress_run documents max_chars)
  /\ 0 <= packed_chars parts <= max_chars
  /\ (documents <> [] ->
      compress_context documents max_chars = join [10%N] (map render parts)
      /\ packed_chars parts <= len (compress_context documents max_chars)).
Proof.
  intros Hmax parts.
  destruct (compress_loop_budget max_chars documents 0 [] 0 eq_refl Hmax) as [Hsum Hle].
  fold (compress_run documents max_chars) in Hsum, Hle. fold parts in Hsum.
  split; [exact Hsum|]. split.
  - split; [apply packed_chars_nonneg | lia].
  - intros Hne. destruct documents as [|d ds]; [congruence|].
    assert (Heq : compress_context (d :: ds) max_chars = join [10%N] (map render parts))
      by reflexivity.
    split; [exact Heq|]. rewrite Heq. apply len_join_render.
Qed.

Lemma compress_context_packs_within_budget_witness :
  0 <= 600
  /\ packed_chars (fst (compress_run [plain_doc (repeat 97%N 600)] 600)) <= 600.
Proof.
  split; [lia|].
  apply (compress_context_packs_within_budget [plain_doc (repeat 97%N 600)] 600).
  lia.
Defined.

(** C1 as stated fails: one document of 600 characters under a budget of
    600 gives a string of 623 characters, and a run whose budget is 120
    records 143 context characters. *)
Lemma compress_context_exceeds_budget :
  ~ (len (compress_context [plain_doc (repeat 97%N 600)] 600) <= 600)
  /\ (exists o, Demo.run_with 120 ∅ Demo.defina_cache = Ok o
                /\ ~ (context_chars (out_record o) <= 120)).
Proof.
  split.
  - vm_compute. intros Hle. apply Hle. reflexivity.
  - assert (Hok : Demo.returned (Demo.run_with 120 ∅ Demo.defina_cache) = true)
      by (vm_compute; reflexivity).
    assert (Hchars : context_chars (out_record
              (Demo.outcome_of (Demo.run_with 120 ∅ Demo.defina_cache))) = 143)
      by (vm_compute; reflexivity).
    destruct (Demo.run_with 120 ∅ Demo.defina_cache) as [o|e]; [|discriminate].
    exists o. split; [reflexivity|]. simpl in Hchars. rewrite Hchars. lia.
Qed.

(** ** C4: de-duplication *)

Section RetrievalFacts.
Context {F : Type} (hash : pystr -> Z).

(** The key the orchestrator de-duplicates on. *)
Let key (d : Doc F) : Z := hash (slice_to 200 (content d)).

Lemma dedup_loop_keys (docs : list (Doc F)) :
  forall (seen : gset Z) (unique_docs : list (Doc F)),
    (forall h, h ∈ seen <-> h ∈ map key unique_docs) ->
    NoDup (map key unique_docs) ->
    NoDup (map key (dedup_loop hash docs seen unique_docs))
    /\ (forall d, d ∈ dedup_loop hash docs seen unique_docs ->
                  d ∈ unique_docs \/ d ∈ docs)
    /\ (forall d, d ∈ unique_docs \/ d ∈ docs ->
                  key d ∈ map key (dedup_loop hash docs seen unique_docs)).
Proof.
  induction docs as [|doc rest IH]; intros seen unique_docs Hseen Hnd; simpl.
  - split; [exact Hnd|]. split; [auto|].
    intros d [Hd|Hd]; [|inversion Hd].
    apply list_elem_of_In, in_map, list_elem_of_In, Hd.
  - fold (key doc). destruct (decide (key doc ∈ seen)) as [Hin|Hout].
    + destruct (IH seen unique_docs Hseen Hnd) as (H1 & H2 & H3).
      split; [exact H1|]. split.
      * intros d Hd. destruct (H2 d Hd) as [Hu|Hr]; [left; exact Hu|].
        right. apply elem_of_cons. right. exact Hr.
      * intros d [Hu|Hd]; [apply H3; left; exact Hu|].
        apply elem_of_cons in Hd as [->|Hr]; [|apply H3; right; exact Hr].
        apply Hseen in Hin. apply list_elem_of_In, in_map_iff in Hin as (u & Hku & Hu).
        rewrite <- Hku. apply H3. left. apply list_elem_of_In, Hu.
    + assert (Hnew : key doc ∉ map key unique_docs) by (intros Hk; apply Hout, Hseen, Hk).
      destruct (IH ({[key doc]} ∪ seen) (unique_docs ++ [doc])) as (H1 & H2 & H3).
      * intros h. rewrite map_app, elem_of_app, elem_of_union, elem_of_singleton.
        simpl. rewrite list_elem_of_singleton, Hseen. tauto.
      * rewrite map_app. apply NoDup_app. split; [exact Hnd|]. split.
        -- intros x Hx Hx'. simpl in Hx'. apply list_elem_of_singleton in Hx'.
           subst x. apply Hnew, Hx.
        -- simpl. apply NoDup_singleton.
      * split; [exact H1|]. split.
        -- intros d Hd. destruct (H2 d Hd) as [Hu|Hr].
           ++ apply elem_of_app in Hu as [Hu|Hu]; [left; exact Hu|].
              apply list_elem_of_singleton in Hu. subst d. right. apply elem_of_cons. left. reflexivity.
           ++ right. apply elem_of_cons. right. exact Hr.
        -- intros d [Hu|Hd].
           ++ apply H3. left. apply elem_of_app. left. exact Hu.
           ++ apply elem_of_cons in Hd as [->|Hr].
              ** apply H3. left. apply elem_of_app. right. apply list_elem_of_singleton. reflexivity.
              ** apply H3. right. exact Hr.
Qed.

(** C4, as amended.  Whatever the retrievers return, the documents that
    survive the orchestrator's de-duplication have pairwise distinct hashes
    of the first 200 characters of their content (so pairwise distinct
    200-character prefixes); each of them is one of the retrieved documents,
    and every retrieved document has a survivor with its hash.  Nothing is
    said about an [id]: the key is the content hash. *)
Theorem deduplicate_distinct_content_hash (all_documents : list (Doc F)) :
  NoDup (map (fun d => hash (slice_to 200 (content d))) (deduplicate hash all_documents))
  /\ NoDup (map (fun d => slice_to 200 (content d)) (deduplicate hash all_documents))
  /\ (forall d, d ∈ deduplicate hash all_documents -> d ∈ all_documents)
  /\ (forall d, d ∈ all_documents ->
        exists d', d' ∈ deduplicate hash all_documents
                   /\ hash (slice_to 200 (content d')) = hash (slice_to 200 (content d))).
Proof.
  destruct (dedup_loop_keys all_documents ∅ []) as (H1 & H2 & H3).
  - intros h. simpl. split; intros Hh; [apply elem_of_empty in Hh | inversion Hh]; tauto.
  - simpl. apply NoDup_nil_2.
  - fold (deduplicate hash all_documents) in H1, H2, H3.
    split; [exact H1|]. split; [|split].
    + change (map key (deduplicate hash all_documents))
        with (map (fun d => hash (slice_to 200 (content d))) (deduplicate hash all_documents)) in H1.
      rewrite <- (map_map (fun d => slice_to 200 (content d)) hash) in H1.
      revert H1. generalize (map (fun d => slice_to 200 (content d)) (deduplicate hash all_documents)).
      intros l. induction l as [|a l IHl]; simpl; intros Hnd; [apply NoDup_nil_2|].
      apply NoDup_cons in Hnd as [Ha Hl]. apply NoDup_cons. split; [|apply IHl, Hl].
      intros Hin. apply Ha. apply list_elem_of_In, in_map, list_elem_of_In, Hin.
    + intros d Hd. destruct (H2 d Hd) as [Hu|Hr]; [inversion Hu | exact Hr].
    + intros d Hd. specialize (H3 d (or_intror Hd)).
      apply list_elem_of_In, in_map_iff in H3 as (d' & Hk & Hd').
      exists d'. split; [apply list_elem_of_In, Hd' | exact Hk].
Qed.

End RetrievalFacts.

(** C4 as stated fails: the one document the memory agent returns survives
    de-duplication and carries no [id]. *)
Lemma deduplicated_document_without_id :
  let survivors :=
    multi_agent_retrieval Demo.hash Demo.agent Demo.in_order
      (process_query (H := Latin1.tables) Demo.no_list Demo.no_list Demo.defina_cache)
      (_decide_retrieval_strategy (H := Latin1.tables) 40
         (process_query (H := Latin1.tables) Demo.no_list Demo.no_list Demo.defina_cache)) in
  survivors = [memory_doc 1%Q Demo.observation ∅]
  /\ ~ (forall d, d ∈ survivors -> doc_id d <> None).
Proof.
  assert (Heq : multi_agent_retrieval Demo.hash Demo.agent Demo.in_order
      (process_query (H := Latin1.tables) Demo.no_list Demo.no_list Demo.defina_cache)
      (_decide_retrieval_strategy (H := Latin1.tables) 40
         (process_query (H := Latin1.tables) Demo.no_list Demo.no_list Demo.defina_cache))
      = [memory_doc 1%Q Demo.observation ∅]) by (vm_compute; reflexivity).
  cbv zeta. rewrite Heq. split; [reflexivity|].
  intros Hall. apply (Hall (memory_doc 1%Q Demo.observation ∅)).
  - apply elem_of_cons. left. reflexivity.
  - reflexivity.
Qed.

(** ** C6 and C9: the strategy planner *)

Section PlannerFacts.
Context `{CharTables}.

Lemma mode_set_planning (s : Strategy) (b : bool) : mode (set_planning s b) = mode s.
Proof. reflexivity. Qed.

Lemma mode_adjusted (k : Z) (i : Intent) (obj : bool) (n : Z) (pq : ProcessedQuery) :
  mode (adjust_for_shape k obj n (adjust_for_intent k i (base_strategy pq))) = hybrid.
Proof.
  unfold adjust_for_shape. destruct obj; [destruct i; reflexivity|].
  destruct (120 <? n); destruct i; reflexivity.
Qed.

Lemma use_keywords_adjusted (k : Z) (obj : bool) (n : Z) (pq : ProcessedQuery) :
  use_keywords
    (adjust_for_shape k obj n (adjust_for_intent k (intent pq) (base_strategy pq)))
  = negb (bool_decide (intent pq = code)) || obj.
Proof.
  unfold adjust_for_shape, base_strategy. destruct obj.
  - simpl. rewrite orb_true_r. reflexivity.
  - rewrite orb_false_r. destruct (120 <? n); destruct (intent pq); reflexivity.
Qed.

(** The planner skips retrieval exactly on its no-retrieval heuristic. *)
Lemma mode_of_strategy (default_top_k : Z) (pq : ProcessedQuery) :
  mode (_decide_retrieval_strategy default_top_k pq)
  = if is_generic_definition (intent pq) (lower (original pq))
    then mode_none else hybrid.
Proof.
  unfold _decide_retrieval_strategy. rewrite mode_set_planning.
  destruct (is_generic_definition (intent pq) (lower (original pq))).
  - reflexivity.
  - apply mode_adjusted.
Qed.

(** C6, as amended.  An analysed query whose intent is [explain], whose
    lower-cased text contains a generic definitional phrase and none of the
    project tokens gets a strategy with [mode = none] and every retriever it
    can switch off switched off; with any other intent the planner never
    answers [mode = none]. *)
Theorem generic_explain_query_skips_retrieval
    (default_top_k : Z) (pq : ProcessedQuery) :
  let strategy := _decide_retrieval_strategy default_top_k pq in
  let q_lower := lower (original pq) in
  (intent pq = explain ->
   any_in generic_terms q_lower = true ->
   any_in project_tokens q_lower = false ->
   mode strategy = mode_none
   /\ use_vector strategy = false /\ use_memory strategy = false
   /\ use_code strategy = false /\ use_keywords strategy = false
   /\ use_graph strategy = false)
  /\ (intent pq <> explain -> mode strategy = hybrid).
Proof.
  cbv zeta. split.
  - intros Hi Hg Hp. unfold _decide_retrieval_strategy, is_generic_definition.
    rewrite Hi, Hg, Hp. simpl. repeat split; reflexivity.
  - intros Hi. rewrite mode_of_strategy. unfold is_generic_definition.
    destruct (bool_decide_reflect (intent pq = explain)) as [He|_]; [contradiction|].
    reflexivity.
Qed.

(** C9, as amended.  The base default is [use_keywords = (intent != code)];
    the only later rules that touch it are the objective-question rule, which
    turns it on, and the [mode = none] rule, which turns it off.  So a
    strategy with [mode = hybrid] has [use_keywords = true] exactly when the
    intent is not [code] or the query carries an objective marker. *)
Theorem use_keywords_of_hybrid_strategy (default_top_k : Z) (pq : ProcessedQuery) :
  let strategy := _decide_retrieval_strategy default_top_k pq in
  use_keywords (base_strategy pq) = negb (bool_decide (intent pq = code))
  /\ (mode strategy = hybrid ->
      use_keywords strategy
      = negb (bool_decide (intent pq = code))
        || any_in objective_markers (lower (original pq)))
  /\ (mode strategy = mode_none -> use_keywords strategy = false).
Proof.
  cbv zeta. split; [reflexivity|].
  pose proof (mode_of_strategy default_top_k pq) as Hmode.
  unfold _decide_retrieval_strategy in *.
  destruct (is_generic_definition (intent pq) (lower (original pq))).
  - split; [intros Hm; rewrite Hm in Hmode; discriminate | reflexivity].
  - split; [|intros Hm; rewrite Hm in Hmode; discriminate].
    intros _. cbn [set_planning use_keywords]. apply use_keywords_adjusted.
Qed.

End PlannerFacts.

Lemma generic_explain_query_skips_retrieval_witness :
  let generic :=
    process_query (H := Latin1.tables) Demo.no_list Demo.no_list Demo.o_que_e_cache in
  let plain :=
    process_query (H := Latin1.tables) Demo.no_list Demo.no_list Demo.defina_cache in
  (intent generic = explain
   /\ mode (_decide_retrieval_strategy (H := Latin1.tables) 40 generic) = mode_none)
  /\ (intent plain <> explain
      /\ mode (_decide_retrieval_strategy (H := Latin1.tables) 40 plain) = hybrid).
Proof.
  cbv zeta. split; split.
  - reflexivity.
  - apply (generic_explain_query_skips_retrieval (H := Latin1.tables) 40
             (process_query (H := Latin1.tables) Demo.no_list Demo.no_list Demo.o_que_e_cache));
      vm_compute; reflexivity.
  - vm_compute. discriminate.
  - apply (generic_explain_query_skips_retrieval (H := Latin1.tables) 40
             (process_query (H := Latin1.tables) Demo.no_list Demo.no_list Demo.defina_cache)).
    vm_compute. discriminate.
Defined.

(** C6 as stated fails: "defina cache" contains a generic definitional
    phrase and no project token, its intent is [general], and the planner
    answers [mode = hybrid]. *)
Lemma generic_query_still_retrieves :
  let pq := process_query (H := Latin1.tables) Demo.no_list Demo.no_list Demo.defina_cache in
  let q_lower := lower (H := Latin1.tables) (original pq) in
  any_in generic_terms q_lower = true
  /\ any_in project_tokens q_lower = false
  /\ mode (_decide_retrieval_strategy (H := Latin1.tables) 40 pq) <> mode_none.
Proof.
  cbv zeta. split; [vm_compute; reflexivity|]. split; [vm_compute; reflexivity|].
  vm_compute. discriminate.
Qed.

Lemma use_keywords_of_hybrid_strategy_witness :
  mode (_decide_retrieval_strategy (H := Latin1.tables) 40 Demo.bug_query) = hybrid
  /\ use_keywords (_decide_retrieval_strategy (H := Latin1.tables) 40 Demo.bug_query)
     = negb (bool_decide (intent Demo.bug_query = code))
       || any_in objective_markers (lower (H := Latin1.tables) (original Demo.bug_query)).
Proof.
  split; [reflexivity|].
  pose proof (use_keywords_of_hybrid_strategy (H := Latin1.tables) 40 Demo.bug_query) as T.
  cbv zeta in T. destruct T as (_ & T & _). apply T. reflexivity.
Defined.

(** C9 as stated fails: for a query of intent [code] without an objective
    marker the strategy is [hybrid] and keyword retrieval is off, already in
    the base defaults. *)
Lemma hybrid_strategy_without_keywords :
  intent Demo.bug_query = code
  /\ use_keywords (base_strategy Demo.bug_query) = false
  /\ mode (_decide_retrieval_strategy (H := Latin1.tables) 40 Demo.bug_query) = hybrid
  /\ use_keywords (_decide_retrieval_strategy (H := Latin1.tables) 40 Demo.bug_query) = false.
Proof. repeat split; vm_compute; reflexivity. Qed.

(** ** C10: query planning *)

Section PlanFacts.
Context `{CharTables}.

Lemma filter_none {A} (p : A -> bool) (l : list A) :
  (forall x, x ∈ l -> p x = false) -> List.filter p l = [].
Proof.
  induction l as [|a l IH]; intros Hall; simpl; [reflexivity|].
  rewrite (Hall a) by (apply elem_of_cons; left; reflexivity).
  apply IH. intros x Hx. apply Hall. apply elem_of_cons. right. exact Hx.
Qed.

(** C10.  Query planning returns between one and three sub-questions; when
    the call to the fast model fails, or when its reply has no line that is
    not blank, it returns the original query alone; and a sub-question that
    is not the original query is a stripped, non-blank line of the reply. *)
Theorem plan_query_one_to_three (reply : option pystr) (query : pystr) :
  let subs := _plan_query reply query in
  subs <> []
  /\ (length subs <= 3)%nat
  /\ (reply = None -> subs = [query])
  /\ (forall text, reply = Some text ->
        (forall line, line ∈ split_on 10 (strip text) -> strip line = []) ->
        subs = [query])
  /\ (forall sq, sq ∈ subs ->
        sq = query
        \/ exists text line, reply = Some text
             /\ line ∈ split_on 10 (strip text) /\ sq = strip line /\ sq <> []).
Proof.
  cbv zeta. unfold _plan_query. destruct reply as [text|].
  2:{ split; [discriminate|]. split; [simpl; lia|]. split; [reflexivity|].
      split; [discriminate|]. intros sq Hsq. left.
      apply list_elem_of_singleton in Hsq. exact Hsq. }
  set (lines := split_on 10 (strip text)).
  set (kept := List.filter (fun s => negb (bool_decide (strip s = []))) lines).
  assert (Hkept : forall sq, sq ∈ map strip kept ->
            exists line, line ∈ lines /\ sq = strip line /\ sq <> []).
  { intros sq Hsq. apply list_elem_of_In, in_map_iff in Hsq as (line & Hsq & Hline).
    apply filter_In in Hline as [Hline Hnb]. exists line.
    split; [apply list_elem_of_In, Hline|]. split; [symmetry; exact Hsq|].
    subst sq. destruct (bool_decide_reflect (strip line = [])) as [|Hne];
      [discriminate | exact Hne]. }
  destruct (map strip kept) as [|s0 rest] eqn:Hsubs.
  - split; [discriminate|]. split; [simpl; lia|]. split; [discriminate|].
    split; [reflexivity|]. intros sq Hsq. left.
    apply list_elem_of_singleton in Hsq. exact Hsq.
  - split; [unfold slice_to; simpl; discriminate|].
    split; [apply (length_slice_to_le 3); lia|].
    split; [discriminate|]. split.
    + intros text' Heq Hblank. injection Heq as <-.
      assert (Hnil : kept = []).
      { apply filter_none. intros line Hline. rewrite (Hblank line Hline).
        reflexivity. }
      rewrite Hnil in Hsubs. discriminate.
    + intros sq Hsq. right. exists text.
      apply list_elem_of_In, In_slice_to, list_elem_of_In, Hkept in Hsq
        as (line & Hline & Heq & Hne).
      exists line. repeat split; assumption.
Qed.

End PlanFacts.

Lemma plan_query_one_to_three_witness :
  _plan_query (H := Latin1.tables) None (py "como funciona o pipeline inteiro")
  = [py "como funciona o pipeline inteiro"]
  /\ _plan_query (H := Latin1.tables) (Some (py "  " ++ [10%N] ++ py " "))
       (py "como funciona o pipeline inteiro")
     = [py "como funciona o pipeline inteiro"].
Proof.
  pose proof (plan_query_one_to_three (H := Latin1.tables) None
                (py "como funciona o pipeline inteiro")) as T1.
  pose proof (plan_query_one_to_three (H := Latin1.tables)
                (Some (py "  " ++ [10%N] ++ py " "))
                (py "como funciona o pipeline inteiro")) as T2.
  cbv zeta in T1, T2.
  destruct T1 as (_ & _ & T1 & _). destruct T2 as (_ & _ & _ & T2 & _).
  split.
  - apply T1. reflexivity.
  - apply (T2 (py "  " ++ [10%N] ++ py " ")); [reflexivity|].
    vm_compute. intros line Hline. apply list_elem_of_singleton in Hline.
    subst line. reflexivity.
Defined.

(** ** C5: cache-key normalisation *)

Section StripFacts.
Context `{CharTables}.

Lemma lstrip_suffix (s : pystr) : exists p, s = p ++ lstrip s.
Proof.
  induction s as [|c s [p IH]]; [exists []; reflexivity|]. simpl.
  destruct (is_space c).
  - exists (c :: p). simpl. f_equal. exact IH.
  - exists []. reflexivity.
Qed.

Lemma rstrip_prefix (s : pystr) : exists t, s = rstrip s ++ t.
Proof.
  unfold rstrip. destruct (lstrip_suffix (rev s)) as [p Hp].
  exists (rev p). rewrite <- rev_app_distr, <- Hp, rev_involutive. reflexivity.
Qed.

Lemma lstrip_starts_clean (s : pystr) : starts_clean (lstrip s).
Proof.
  induction s as [|c s IH]; simpl; [exact I|].
  destruct (is_space c) eqn:E; [exact IH | exact E].
Qed.

Lemma lstrip_clean (s : pystr) : starts_clean s -> lstrip s = s.
Proof. destruct s as [|c s]; simpl; [reflexivity|]. intros ->. reflexivity. Qed.

Lemma lstrip_idempotent (s : pystr) : lstrip (lstrip s) = lstrip s.
Proof. apply lstrip_clean, lstrip_starts_clean. Qed.

Lemma rstrip_idempotent (s : pystr) : rstrip (rstrip s) = rstrip s.
Proof. unfold rstrip. rewrite rev_involutive, lstrip_idempotent. reflexivity. Qed.

Lemma rstrip_starts_clean (s : pystr) : starts_clean s -> starts_clean (rstrip s).
Proof.
  intros Hs. destruct (rstrip_prefix s) as [t Ht].
  destruct (rstrip s) as [|c r]; [exact I|].
  rewrite Ht in Hs. exact Hs.
Qed.

Lemma strip_idempotent (s : pystr) : strip (strip s) = strip s.
Proof.
  unfold strip.
  rewrite (lstrip_clean (rstrip (lstrip s)))
    by apply rstrip_starts_clean, lstrip_starts_clean.
  apply rstrip_idempotent.
Qed.

Lemma single_spaced_app (a b : pystr) :
  single_spaced (a ++ b) -> single_spaced a /\ single_spaced b.
Proof.
  induction a as [|x a IH]; simpl; [tauto|].
  intros [Hx Hrest]. destruct (IH Hrest) as [Ha Hb]. split; [|exact Hb].
  split; [|exact Ha]. intros Hs. specialize (Hx Hs).
  destruct a as [|y a]; [exact I | exact Hx].
Qed.

Lemma tidy_app (a b : pystr) : tidy (a ++ b) -> tidy a /\ tidy b.
Proof.
  intros [HF Hs]. apply Forall_app in HF as [Ha Hb].
  apply single_spaced_app in Hs as [Hsa Hsb]. repeat split; assumption.
Qed.

Lemma tidy_strip (s : pystr) : tidy s -> tidy (strip s).
Proof.
  intros Hs. unfold strip.
  destruct (lstrip_suffix s) as [p Hp].
  destruct (rstrip_prefix (lstrip s)) as [t Ht].
  rewrite Hp in Hs. apply tidy_app in Hs as [_ Hs].
  rewrite Ht in Hs. apply tidy_app in Hs as [Hs _]. exact Hs.
Qed.

End StripFacts.

Section NormalizeFacts.
Context `{CharTables}.

(** What the proofs need of the interpreter's tables: the space is white
    space and is its own lower case, and lower-casing a lower-cased
    character changes nothing. *)
Hypothesis space_32 : is_space 32%N = true.
Hypothesis lower_32 : lower_cp 32%N = [32%N].
Hypothesis lower_stable : forall c d, d ∈ lower_cp c -> lower_cp d = [d].

Lemma lower_is_lowered (s : pystr) : Forall (fun d => lower_cp d = [d]) (lower s).
Proof.
  unfold lower. apply Forall_forall. intros d Hd.
  apply list_elem_of_In, in_flat_map in Hd as (c & _ & Hd).
  apply (lower_stable c). apply list_elem_of_In, Hd.
Qed.

Lemma drop_punctuation_keeps (s : pystr) :
  Forall (fun d => lower_cp d = [d]) s ->
  Forall (fun d => (is_word d || is_space d = true) /\ lower_cp d = [d])
         (drop_punctuation s).
Proof.
  intros Hs. unfold drop_punctuation. apply Forall_forall. intros d Hd.
  apply list_elem_of_In, filter_In in Hd as [Hd Hkeep].
  split; [exact Hkeep|]. rewrite Forall_forall in Hs.
  apply Hs, list_elem_of_In, Hd.
Qed.

Lemma collapse_tidy (s : pystr) :
  Forall (fun d => (is_word d || is_space d = true) /\ lower_cp d = [d]) s ->
  forall in_run,
    tidy (collapse_from in_run s)
    /\ (in_run = true -> starts_clean (collapse_from in_run s)).
Proof.
  induction s as [|c s IH]; intros Hs in_run; simpl.
  - split; [split; [constructor | exact I] | intros _; exact I].
  - apply Forall_cons in Hs as [[Hc Hl] Hs]. specialize (IH Hs).
    destruct (is_space c) eqn:Esp.
    + destruct in_run.
      * apply IH.
      * destruct (IH true) as [[HF HS] Hstart]. split; [|discriminate].
        split; [constructor; [left; reflexivity | exact HF]|].
        simpl. split; [intros _; apply Hstart; reflexivity | exact HS].
    + destruct (IH false) as [[HF HS] _]. split; [|intros _; exact Esp].
      split.
      * constructor; [|exact HF]. right. rewrite orb_false_r in Hc.
        repeat split; assumption.
      * simpl. split; [rewrite Esp; discriminate | exact HS].
Qed.

Lemma normalize_tidy (query : pystr) : tidy (normalize_query query).
Proof.
  unfold normalize_query, collapse_spaces.
  apply collapse_tidy, drop_punctuation_keeps, lower_is_lowered.
Qed.

Lemma settled_space (c : N) : settled c -> is_space c = true -> c = 32%N.
Proof. intros [->|[Hs _]] Hsp; [reflexivity | congruence]. Qed.

Lemma lower_tidy (s : pystr) : Forall settled s -> lower s = s.
Proof.
  unfold lower. induction 1 as [|c s Hc _ IH]; simpl; [reflexivity|].
  rewrite IH. destruct Hc as [->|(_ & _ & ->)]; [rewrite lower_32|]; reflexivity.
Qed.

Lemma drop_punctuation_tidy (s : pystr) : Forall settled s -> drop_punctuation s = s.
Proof.
  unfold drop_punctuation. induction 1 as [|c s Hc _ IH]; simpl; [reflexivity|].
  rewrite IH. destruct Hc as [->|(_ & -> & _)]; [rewrite space_32, orb_true_r|];
    reflexivity.
Qed.

Lemma collapse_from_tidy (s : pystr) :
  tidy s -> forall in_run, (in_run = true -> starts_clean s) ->
  collapse_from in_run s = s.
Proof.
  induction s as [|c s IH]; intros [HF HS] in_run Hstart; simpl; [reflexivity|].
  apply Forall_cons in HF as [Hc HF]. simpl in HS. destruct HS as [Hnext HS].
  destruct (is_space c) eqn:Esp.
  - destruct in_run; [specialize (Hstart eq_refl); simpl in Hstart; congruence|].
    rewrite (settled_space c Hc Esp). f_equal.
    apply IH; [split; assumption | intros _; apply Hnext; reflexivity].
  - f_equal. apply IH; [split; assumption | discriminate].
Qed.

Lemma normalize_of_tidy (s : pystr) : tidy s -> normalize_query s = strip s.
Proof.
  intros Hs. apply tidy_strip in Hs. unfold normalize_query, collapse_spaces.
  rewrite (lower_tidy _ (proj1 Hs)), (drop_punctuation_tidy _ (proj1 Hs)).
  apply collapse_from_tidy; [exact Hs | discriminate].
Qed.

(** C5, as amended.  Normalising a normalised query only trims it: the
    second pass removes the leading or trailing space that the removal of
    punctuation can leave behind, so normalisation is idempotent on every
    query whose normalisation neither starts nor ends with a space, and in
    general it is stable from the second pass on.  Two queries with the same
    normalisation, under the same project, intent and strategy, get the same
    cache key. *)
Theorem normalize_query_settles (sha256_hexdigest : pystr -> pystr) (query : pystr) :
  normalize_query (normalize_query query) = strip (normalize_query query)
  /\ (strip (normalize_query query) = normalize_query query ->
      normalize_query (normalize_query query) = normalize_query query)
  /\ normalize_query (normalize_query (normalize_query query))
     = normalize_query (normalize_query query)
  /\ (forall other cache_enabled project_name context_max_chars processed_query strategy,
        normalize_query other = normalize_query query ->
        _build_cache_key sha256_hexdigest cache_enabled project_name
          context_max_chars other processed_query strategy
        = _build_cache_key sha256_hexdigest cache_enabled project_name
            context_max_chars query processed_query strategy).
Proof.
  pose proof (normalize_of_tidy _ (normalize_tidy query)) as H1.
  split; [exact H1|]. split; [intros Hs; rewrite H1; exact Hs|]. split.
  - rewrite H1. rewrite (normalize_of_tidy _ (tidy_strip _ (normalize_tidy query))).
    apply strip_idempotent.
  - intros other en pn cm pq st Heq. unfold _build_cache_key. rewrite Heq. reflexivity.
Qed.

End NormalizeFacts.

Lemma latin1_lower_stable (c d : N) :
  d ∈ Latin1.lower1 c -> Latin1.lower1 d = [d].
Proof.
  unfold Latin1.lower1, Latin1.in_range. intros Hd.
  destruct ((65 <=? c)%N && (c <=? 90)%N || (192 <=? c)%N && (c <=? 214)%N
            || (216 <=? c)%N && (c <=? 222)%N) eqn:Ec;
    apply list_elem_of_singleton in Hd; subst d; [|rewrite Ec; reflexivity].
  destruct ((65 <=? c + 32)%N && (c + 32 <=? 90)%N
            || (192 <=? c + 32)%N && (c + 32 <=? 214)%N
            || (216 <=? c + 32)%N && (c + 32 <=? 222)%N) eqn:Ed; [|reflexivity].
  exfalso.
  rewrite !orb_true_iff, !andb_true_iff, !N.leb_le in Ec, Ed. lia.
Qed.

Lemma normalize_query_settles_witness :
  normalize_query (H := Latin1.tables) (normalize_query (H := Latin1.tables) (py "status ?"))
  = strip (H := Latin1.tables) (normalize_query (H := Latin1.tables) (py "status ?")).
Proof.
  apply (normalize_query_settles (H := Latin1.tables) eq_refl eq_refl
           latin1_lower_stable Demo.sha256_hexdigest (py "status ?")).
Defined.

(** C5 as stated fails: "status ?" normalises to "status " with a trailing
    space, and normalising that gives "status". *)
Lemma normalize_query_not_idempotent :
  normalize_query (H := Latin1.tables) (py "status ?") = py "status "
  /\ normalize_query (H := Latin1.tables) (normalize_query (H := Latin1.tables) (py "status ?"))
     = py "status"
  /\ normalize_query (H := Latin1.tables) (normalize_query (H := Latin1.tables) (py "status ?"))
     <> normalize_query (H := Latin1.tables) (py "status ?").
Proof.
  split; [vm_compute; reflexivity|]. split; [vm_compute; reflexivity|].
  vm_compute. discriminate.
Qed.

(** ** C2: the query cache *)

Section SortFacts.
Context {A : Type} (key : A -> Q).

Lemma insert_desc_perm (x : A) (l : list A) : insert_desc key x l ≡ₚ x :: l.
Proof.
  induction l as [|y l IH]; simpl; [reflexivity|].
  destruct (Qle_bool (key y) (key x)); [reflexivity|].
  rewrite IH. apply Permutation_swap.
Qed.

Lemma sorted_reverse_perm (l : list A) : sorted_reverse key l ≡ₚ l.
Proof.
  induction l as [|x l IH]; simpl; [reflexivity|].
  rewrite insert_desc_perm, IH. reflexivity.
Qed.

(** If the elements singled out by [top] have the key [m] and every other
    element has a smaller key, the sorted list starts with a [top] one. *)
Lemma sorted_reverse_head (top : A -> Prop) (m : Q) (l : list A) :
  (forall y, y ∈ l -> (top y /\ key y == m)%Q \/ (~ top y /\ key y < m)%Q) ->
  (exists y, y ∈ l /\ top y) ->
  exists h r, sorted_reverse key l = h :: r /\ top h.
Proof.
  induction l as [|a l IH]; intros Hall [y [Hy Htop]]; [inversion Hy|].
  assert (Hall' : forall z, z ∈ l -> (top z /\ key z == m)%Q \/ (~ top z /\ key z < m)%Q)
    by (intros z Hz; apply Hall, elem_of_cons; right; exact Hz).
  simpl. destruct (Hall a) as [[Ha Hka]|[Hna Hka]];
    [apply elem_of_cons; left; reflexivity | |].
  - destruct (sorted_reverse key l) as [|h r] eqn:Hs; simpl.
    + exists a, []. split; [reflexivity | exact Ha].
    + assert (Hh : h ∈ l)
        by (rewrite <- (sorted_reverse_perm l), Hs; apply elem_of_cons; left; reflexivity).
      assert (Hle : Qle_bool (key h) (key a) = true).
      { apply Qle_bool_iff. rewrite Hka.
        destruct (Hall' h Hh) as [[_ He]|[_ Hlt]];
          [rewrite He; apply Qle_refl | apply Qlt_le_weak, Hlt]. }
      rewrite Hle. exists a, (h :: r). split; [reflexivity | exact Ha].
  - apply elem_of_cons in Hy as [->|Hy]; [contradiction|].
    destruct (IH Hall' (ex_intro _ y (conj Hy Htop))) as (h & r & Hs & Hh).
    rewrite Hs. simpl.
    assert (Hin : h ∈ l)
      by (rewrite <- (sorted_reverse_perm l), Hs; apply elem_of_cons; left; reflexivity).
    assert (Hle : Qle_bool (key h) (key a) = false).
    { destruct (Qle_bool (key h) (key a)) eqn:E; [|reflexivity]. exfalso.
      apply Qle_bool_iff in E.
      destruct (Hall' h Hin) as [[_ He]|[Hnh _]]; [|contradiction].
      rewrite He in E. exact (Qlt_not_le _ _ Hka E). }
    rewrite Hle. exists h, (insert_desc key a r). split; [reflexivity | exact Hh].
Qed.

End SortFacts.

Lemma slice_from_tail {A} (n : Z) (h : A) (r : list A) (x : A) :
  1 <= n -> x ∈ slice_from n (h :: r) -> x ∈ r.
Proof.
  intros Hn. unfold slice_from. destruct (0 <=? n) eqn:E; [|lia].
  replace (Z.to_nat n) with (S (Z.to_nat (n - 1))) by lia. simpl.
  intros Hx. apply list_elem_of_In. apply list_elem_of_In in Hx.
  rewrite <- (firstn_skipn (Z.to_nat (n - 1)) r). apply in_or_app. right. exact Hx.
Qed.

Section CacheFacts.
Context {P : Type}.
Variable glob : gmap pystr (File P) -> list (pystr * File P).

(** The listing holds the files of the directory, each once, in some order. *)
Hypothesis glob_lists : forall dir, glob dir ≡ₚ map_to_list dir.

Lemma unlink_all_other (stale : list (pystr * File P)) (dir : gmap pystr (File P))
    (key : pystr) :
  (forall kf, kf ∈ stale -> fst kf <> key) ->
  unlink_all stale dir !! key = dir !! key.
Proof.
  induction stale as [|kf stale IH]; intros Hne; simpl; [reflexivity|].
  rewrite lookup_delete_ne
    by (apply Hne, elem_of_cons; left; reflexivity).
  apply IH. intros kf' Hkf'. apply Hne, elem_of_cons. right. exact Hkf'.
Qed.

(** The file written last survives pruning when every other file is older
    and the cache keeps at least one entry. *)
Lemma prune_keeps_newest (c : QueryCache) (dir : gmap pystr (File P))
    (key : pystr) (f : File P) :
  1 <= max_entries c ->
  dir !! key = Some f ->
  (forall k g, dir !! k = Some g -> k <> key -> (st_mtime g < st_mtime f)%Q) ->
  _prune glob c dir !! key = Some f.
Proof.
  intros Hcap Hkey Holder. unfold _prune, newest_first.
  assert (Hin : forall kf, kf ∈ glob dir <-> dir !! fst kf = Some (snd kf)).
  { intros [k g]. rewrite glob_lists. apply elem_of_map_to_list. }
  destruct (sorted_reverse_head (fun kf : pystr * File P => st_mtime (snd kf))
              (fun kf => fst kf = key) (st_mtime f) (glob dir))
    as (h & r & Hs & Hh).
  { intros [k g] Hkg. apply Hin in Hkg. simpl in *.
    destruct (decide (k = key)) as [->|Hne].
    - left. split; [reflexivity|]. rewrite Hkey in Hkg. injection Hkg as <-.
      apply Qeq_refl.
    - right. split; [exact Hne | exact (Holder k g Hkg Hne)]. }
  { exists (key, f). split; [apply Hin; exact Hkey | reflexivity]. }
  rewrite Hs. rewrite unlink_all_other; [exact Hkey|].
  intros kf Hkf Heq. apply (slice_from_tail _ _ _ _ Hcap) in Hkf.
  assert (Hnd : NoDup (map fst (h :: r))).
  { rewrite <- Hs.
    assert (Hp : map fst (sorted_reverse (fun kf : pystr * File P => st_mtime (snd kf)) (glob dir))
                 ≡ₚ map fst (map_to_list dir))
      by (apply Permutation_map; rewrite sorted_reverse_perm; apply glob_lists).
    rewrite Hp. apply (NoDup_fst_map_to_list dir). }
  simpl in Hnd. apply NoDup_cons in Hnd as [Hnot _]. apply Hnot.
  rewrite Hh, <- Heq. apply list_elem_of_In, in_map, list_elem_of_In, Hkf.
Qed.

Lemma set_then_get_hit (ttl_seconds cap : Z) (dir : gmap pystr (File P))
    (key : pystr) (payload : P) (t : Z) (now mtime later : Q) :
  1 <= cap ->
  (forall k g, dir !! k = Some g -> k <> key -> (st_mtime g < mtime)%Q) ->
  (later - now <= inject_Z t)%Q \/ t = 0 ->
  let c := QueryCache_init ttl_seconds cap in
  let dir' := cache_set glob c now mtime key payload (Some t) dir in
  cache_get c later key dir' = (Some payload, dir').
Proof.
  intros Hcap Holder Hfresh c dir'.
  assert (Hfile : dir' !! key = Some (mkFile mtime (Stored now t payload))).
  { unfold dir', cache_set, c. simpl.
    destruct (Z.max 0 cap =? 0) eqn:E; [lia|].
    apply prune_keeps_newest.
    - simpl. lia.
    - apply lookup_insert_eq.
    - intros k g Hk Hne. simpl. rewrite lookup_insert_ne in Hk by congruence.
      exact (Holder k g Hk Hne). }
  unfold cache_get. rewrite Hfile. simpl.
  destruct Hfresh as [Hle| ->]; [|reflexivity].
  unfold gtb. apply Qle_bool_iff in Hle. rewrite Hle.
  rewrite andb_false_r. reflexivity.
Qed.

(** C2, as amended.  With a cache that keeps at least one entry, and when
    the file that [set] writes is newer than every other file of the
    directory: [get(K)] after [set(K, p, t)] returns exactly [p] and leaves
    the directory alone while the elapsed time is at most [t], and also
    whenever [t = 0], since a zero ttl never expires; once the elapsed time
    exceeds a non-zero [t], [get(K)] is a miss and removes the entry. *)
Theorem get_after_set (ttl_seconds cap : Z) (dir : gmap pystr (File P))
    (key : pystr) (payload : P) (t : Z) (now mtime later : Q) :
  1 <= cap ->
  (forall k g, dir !! k = Some g -> k <> key -> (st_mtime g < mtime)%Q) ->
  let c := QueryCache_init ttl_seconds cap in
  let dir' := cache_set glob c now mtime key payload (Some t) dir in
  ((later - now <= inject_Z t)%Q \/ t = 0 ->
   cache_get c later key dir' = (Some payload, dir'))
  /\ (t <> 0 -> (inject_Z t < later - now)%Q ->
      cache_get c later key dir' = (None, delete key dir')
      /\ delete key dir' !! key = None).
Proof.
  intros Hcap Holder c dir'.
  assert (Hfile : dir' !! key = Some (mkFile mtime (Stored now t payload))).
  { unfold dir', cache_set, c. simpl.
    destruct (Z.max 0 cap =? 0) eqn:E; [lia|].
    apply prune_keeps_newest.
    - simpl. lia.
    - apply lookup_insert_eq.
    - intros k g Hk Hne. simpl. rewrite lookup_insert_ne in Hk by congruence.
      exact (Holder k g Hk Hne). }
  split.
  - intros Hfresh. unfold cache_get. rewrite Hfile. simpl.
    destruct Hfresh as [Hle| ->]; [|reflexivity].
    unfold gtb. apply Qle_bool_iff in Hle. rewrite Hle.
    rewrite andb_false_r. reflexivity.
  - intros Hne Hlate. split; [|apply lookup_delete_eq].
    unfold cache_get. rewrite Hfile. simpl.
    destruct (t =? 0) eqn:E; [lia|]. unfold gtb.
    destruct (Qle_bool (later - now) (inject_Z t)) eqn:Hle; [|reflexivity].
    apply Qle_bool_iff in Hle. exfalso. exact (Qlt_not_le _ _ Hlate Hle).
Qed.

End CacheFacts.

Lemma get_after_set_witness :
  let c := QueryCache_init 900 256 in
  let dir' := cache_set Demo.listing c 0 0 (py "k")
                (mkRun [] general 0 0 0 0 0 false (py "answer") [] [] 600) (Some 600) ∅ in
  fst (cache_get c 600 (py "k") dir')
    = Some (mkRun [] general 0 0 0 0 0 false (py "answer") [] [] 600)
  /\ fst (cache_get c 601 (py "k") dir') = None.
Proof.
  pose proof (get_after_set Demo.listing (fun dir => reflexivity _) 900 256 ∅ (py "k")
                (mkRun [] general 0 0 0 0 0 false (py "answer") [] [] 600) 600 0 0) as T.
  cbv zeta. split.
  - destruct (T 600%Q) as [T1 _]; [lia | intros k g Hk; inversion Hk |].
    rewrite T1; [reflexivity | left; vm_compute; discriminate].
  - destruct (T 601%Q) as [_ T2]; [lia | intros k g Hk; inversion Hk |].
    destruct T2 as [T2 _]; [lia | reflexivity |]. rewrite T2. reflexivity.
Defined.

(** C2 as stated fails: an entry stored with ttl 0 is still served 1000
    seconds later, and with a cache of capacity 0 a [get] right after the
    [set] is a miss. *)
Lemma zero_ttl_never_expires :
  let record := mkRun [] general 0 0 0 0 0 false (py "answer") [] [] 0 in
  (let c := QueryCache_init 900 256 in
   fst (cache_get c 1000 (py "k")
          (cache_set Demo.listing c 0 0 (py "k") record (Some 0) ∅)) = Some record)
  /\ (let c := QueryCache_init 900 0 in
      fst (cache_get c 0 (py "k")
             (cache_set Demo.listing c 0 0 (py "k") record (Some 600) ∅)) = None).
Proof. split; vm_compute; reflexivity. Qed.

(** ** C3: the confidence of a run *)

Lemma min_100_bounds (x : Q) : (0 <= x)%Q -> (0 <= min_100 x <= 100)%Q.
Proof.
  intros Hx. unfold min_100. destruct (Qle_bool 100 x) eqn:E.
  - split; [discriminate | apply Qle_refl].
  - split; [exact Hx|]. apply Qlt_le_weak, Qnot_le_lt. intros Hle.
    apply Qle_bool_iff in Hle. congruence.
Qed.

Lemma twice_len_nonneg {A} (l : list A) : (0 <= inject_Z (len l) * 2)%Q.
Proof. unfold Qle, len. simpl. lia. Qed.

Section PipelineFacts.
Context `{CharTables}.
Variable sha256_hexdigest : pystr -> pystr.
Variable hash : pystr -> Z.
Variable glob : gmap pystr (File RunRecord) -> list (pystr * File RunRecord).
Variable extract_concepts : pystr -> list pystr.
Variable expand_query : pystr -> list pystr.
Variable plan_reply : pystr -> option pystr.
Variable agent : AgentType -> ProcessedQuery -> Strategy -> result (list (Doc Q)).
Variable as_completed :
  list (result (list (Doc Q))) -> list (result (list (Doc Q))).
Variable predict : pystr -> pystr -> Q.
Variable main_llm : pystr -> pystr -> Intent -> list pystr -> Z -> Z -> result pystr.
Variable project_name : pystr.
Variable context_max_chars : Z.
Variable default_top_k : Z.
Variable cache : option QueryCache.
Variable intent_cache_policy : Intent -> option Z.

Abbreviation run_query :=
  (query sha256_hexdigest hash glob extract_concepts expand_query plan_reply agent
     as_completed predict main_llm project_name context_max_chars default_top_k
     cache intent_cache_policy).

(** C3, as amended.  The confidence a run returns is the one in its Run
    Record.  In a run that is not served from the cache it is 50 when the
    strategy is [mode = none] (and then no document is re-ranked), and
    [min(100, 2.0 * reranked)] otherwise, so it lies in [0, 100]; a run served
    from the cache returns the confidence stored in the cached record. *)
Theorem confidence_of_run (clock : Clock) (dir : gmap pystr (File RunRecord))
    (user_query : pystr) (o : Outcome) :
  run_query clock dir user_query = Ok o ->
  let strategy :=
    _decide_retrieval_strategy default_top_k
      (process_query extract_concepts expand_query user_query) in
  out_confidence o = confidence (out_record o)
  /\ (from_cache (out_record o) = false ->
      (mode strategy = mode_none ->
       out_confidence o = 50%Q /\ reranked (out_record o) = 0)
      /\ (mode strategy = hybrid ->
          out_confidence o = min_100 (inject_Z (reranked (out_record o)) * 2)%Q)
      /\ (0 <= out_confidence o <= 100)%Q)
  /\ (from_cache (out_record o) = true ->
      exists c key cached,
        cache = Some c
        /\ fst (cache_get c (t_probe clock) key dir) = Some cached
        /\ out_confidence o = confidence cached).
Proof.
  intros Hrun strategy. unfold query in Hrun. fold strategy in Hrun.
  set (pq := process_query extract_concepts expand_query user_query) in *.
  set (cache_key := _build_cache_key _ _ _ _ _ _ _) in Hrun.
  set (probe := match cache with Some c => _ | None => _ end) in Hrun.
  destruct (fst probe) as [cached|] eqn:Hprobe.
  - injection Hrun as <-. simpl. split; [reflexivity|]. split; [discriminate|].
    intros _. unfold probe in Hprobe.
    destruct cache as [c|]; [|discriminate].
    destruct cache_key as [key|]; [|discriminate].
    exists c, key, cached. repeat split. exact Hprobe.
  - destruct (mode strategy) eqn:Hmode.
    + destruct (retrieve hash extract_concepts expand_query plan_reply agent
                  as_completed user_query pq strategy) as [|d ds] eqn:Hdocs.
      * injection Hrun as <-. simpl. split; [reflexivity|].
        split; [|discriminate]. intros _. split; [discriminate|].
        split; [intros _; reflexivity|]. split; discriminate.
      * destruct (generate_answer _ _ _ _ _ _ _) as [text|e] eqn:Hgen;
          [|discriminate].
        simpl in Hrun. injection Hrun as <-. simpl. split; [reflexivity|].
        split; [|discriminate]. intros _. split; [discriminate|].
        split; [intros _; reflexivity|].
        apply min_100_bounds, twice_len_nonneg.
    + destruct (generate_answer _ _ _ _ _ _ _) as [text|e] eqn:Hgen;
        [|discriminate].
      simpl in Hrun. injection Hrun as <-. simpl. split; [reflexivity|].
      split; [|discriminate]. intros _. split; [intros _; split; reflexivity|].
      split; [discriminate|]. split; discriminate.
Qed.

End PipelineFacts.

Lemma confidence_of_run_witness :
  match Demo.run ∅ Demo.defina_cache with
  | Ok o => out_confidence o = confidence (out_record o)
  | Raise _ => False
  end.
Proof.
  assert (Hok : Demo.returned (Demo.run ∅ Demo.defina_cache) = true)
    by (vm_compute; reflexivity).
  pose proof (confidence_of_run (H := Latin1.tables) Demo.sha256_hexdigest Demo.hash
                Demo.listing Demo.no_list Demo.no_list Demo.no_reply Demo.agent
                Demo.in_order Demo.predict Demo.main_llm (py "scalp") 120000 40
                (Some (QueryCache_init 900 256)) Demo.policy Demo.clock ∅
                Demo.defina_cache) as T.
  fold (Demo.run_with 120000 ∅ Demo.defina_cache) in T.
  fold (Demo.run ∅ Demo.defina_cache) in T.
  destruct (Demo.run ∅ Demo.defina_cache) as [o|e]; [|discriminate].
  destruct (T o eq_refl) as [T1 _]. exact T1.
Defined.

(** C3 as stated fails: the generic question is answered without retrieval,
    no document is re-ranked, and the confidence is 50, not
    [min(100, 2.0 * 0)]. *)
Lemma confidence_without_retrieval :
  exists o, Demo.run ∅ Demo.o_que_e_cache = Ok o
            /\ reranked (out_record o) = 0
            /\ out_confidence o = 50%Q
            /\ ~ (out_confidence o == min_100 (inject_Z (reranked (out_record o)) * 2))%Q.
Proof.
  assert (Hok : Demo.returned (Demo.run ∅ Demo.o_que_e_cache) = true)
    by (vm_compute; reflexivity).
  assert (Hre : reranked (out_record (Demo.outcome_of (Demo.run ∅ Demo.o_que_e_cache))) = 0)
    by (vm_compute; reflexivity).
  assert (Hco : out_confidence (Demo.outcome_of (Demo.run ∅ Demo.o_que_e_cache)) = 50%Q)
    by (vm_compute; reflexivity).
  destruct (Demo.run ∅ Demo.o_que_e_cache) as [o|e]; [|discriminate].
  simpl in Hre, Hco. exists o. split; [reflexivity|]. split; [exact Hre|].
  split; [exact Hco|]. rewrite Hre, Hco. vm_compute. discriminate.
Qed.

(** ** The memory search client *)

Section StripLength.
Context `{CharTables}.

Lemma len_strip_le (s : pystr) : len (strip s) <= len s.
Proof.
  unfold strip. destruct (lstrip_suffix s) as [p Hp].
  destruct (rstrip_prefix (lstrip s)) as [t Ht].
  rewrite Hp at 2. rewrite Ht at 2. rewrite !len_app.
  pose proof (len_nonneg p). pose proof (len_nonneg t). lia.
Qed.

End StripLength.

Lemma for_each_all {A B} (f : A -> result (list B)) (Q : B -> Prop) (l : list A) :
  (forall x ys, f x = Ok ys -> Forall Q ys) ->
  forall zs, for_each f l = Ok zs -> Forall Q zs.
Proof.
  intros Hf. induction l as [|x l IH]; simpl; intros zs Hzs.
  - injection Hzs as <-. constructor.
  - destruct (f x) as [ys|e] eqn:Hx; [|discriminate]. simpl in Hzs.
    destruct (for_each f l) as [ws|e] eqn:Hl; [|discriminate]. simpl in Hzs.
    injection Hzs as <-. apply Forall_app. split; [exact (Hf x ys Hx) | apply IH; reflexivity].
Qed.

Lemma Forall_slice_to {A} (Q : A -> Prop) (n : Z) (l : list A) :
  Forall Q l -> Forall Q (slice_to n l).
Proof.
  intros Hl. apply Forall_forall. intros x Hx. rewrite Forall_forall in Hl.
  apply Hl, list_elem_of_In, (In_slice_to n), list_elem_of_In, Hx.
Qed.

Section MemoryClientFacts.
Context `{CharTables}.
Variable ansi_strip : pystr -> pystr.
Variable json_loads : pystr -> result (json Q).
Variable find_observations : pystr -> list pystr.

Abbreviation search' := (search ansi_strip json_loads find_observations).
Abbreviation regex' := (_extract_via_regex find_observations).

Lemma regex_docs_shaped (text : pystr) (limit : Z) :
  Forall memory_shaped (regex' text limit).
Proof.
  unfold _extract_via_regex. apply Forall_forall. intros d Hd.
  apply list_elem_of_In, in_flat_map in Hd as (m & _ & Hd).
  destruct (100 <? len (unescape m)) eqn:E; [|inversion Hd].
  destruct Hd as [<-|[]]. unfold memory_shaped. simpl. repeat split. lia.
Qed.

Lemma regex_docs_count (text : pystr) (limit : Z) :
  0 <= limit -> len (regex' text limit) <= limit.
Proof.
  intros Hl. unfold _extract_via_regex.
  pose proof (length_slice_to_le limit
                (find_observations (slice_to 500000 text)) Hl) as Hms.
  revert Hms. generalize (slice_to limit (find_observations (slice_to 500000 text))).
  intros ms Hms.
  assert (Hflat : (length (flat_map
                     (fun m => let content := unescape m in
                               if (100 <? len content)%Z
                               then [regex_doc content] else []) ms)
                   <= length ms)%nat).
  { clear Hms. induction ms as [|m ms IH]; simpl; [lia|]. rewrite length_app.
    cbv zeta in *. destruct (100 <? len (unescape m)); simpl; lia. }
  unfold len in *. lia.
Qed.

Lemma json_docs_shaped (json_str : pystr) (limit : Z) (docs : list (Doc Q)) :
  docs_of_json json_loads json_str limit = Ok docs -> Forall memory_shaped docs.
Proof.
  unfold docs_of_json. destruct (json_loads json_str) as [data|e]; [|discriminate].
  simpl. destruct (has_entities data) as [present|e]; [|discriminate]. simpl.
  destruct present.
  - destruct (entities_slice data limit) as [entities|e]; [|discriminate]. simpl.
    destruct (for_each entity_docs entities) as [ds|e] eqn:Hds; [|discriminate].
    simpl. intros Hdocs. injection Hdocs as <-. apply Forall_slice_to.
    revert ds Hds. apply for_each_all. intros entity ys.
    unfold entity_docs. destruct entity as [| | | |?|fields]; try discriminate.
    destruct (iterate _) as [items|e]; [|discriminate]. simpl.
    apply for_each_all. intros obs zs. unfold observation_docs.
    destruct obs as [| | |s| |]; try discriminate. intros Hzs. injection Hzs as <-.
    destruct (100 <? len (strip s)) eqn:E; [|constructor].
    constructor; [|constructor]. unfold memory_shaped. simpl. repeat split.
    pose proof (len_strip_le s). lia.
  - simpl. intros Hdocs. injection Hdocs as <-. apply Forall_slice_to. constructor.
Qed.

Lemma json_docs_count (json_str : pystr) (limit : Z) (docs : list (Doc Q)) :
  0 <= limit -> docs_of_json json_loads json_str limit = Ok docs -> len docs <= limit.
Proof.
  intros Hl. unfold docs_of_json.
  destruct (json_loads json_str) as [data|e]; [|discriminate]. simpl.
  destruct (has_entities data) as [present|e]; [|discriminate]. simpl.
  destruct (if present then _ else _) as [ds|e]; [|discriminate]. simpl.
  intros Hdocs. injection Hdocs as <-.
  pose proof (length_slice_to_le limit ds Hl). unfold len. lia.
Qed.

(** [search] never lets an exception out: whatever the subprocess did and
    whatever the parsers do, it returns a list.  A timeout (or any other
    failure to run the subprocess) and a non-zero exit status give the empty
    list; when the output has the result block and [json.loads] rejects it,
    the result is the regex extraction, which keeps the unescaped text of at
    most [limit] quoted observations, those longer than 100 characters. *)
Theorem search_absorbs_failures (run : result CompletedProcess) (limit : Z) :
  (exists docs, search' run limit = Ok docs)
  /\ (forall e, run = Raise e -> search' run limit = Ok [])
  /\ (forall proc, run = Ok proc -> returncode proc <> 0 -> search' run limit = Ok [])
  /\ (forall proc from_mark json_str,
        run = Ok proc -> returncode proc = 0 ->
        seek check_mark (ansi_strip (stdout proc)) = Some from_mark ->
        seek open_brace from_mark = Some json_str ->
        json_loads json_str = Raise JSONDecodeError ->
        search' run limit = Ok (regex' (ansi_strip (stdout proc)) limit))
  /\ (forall text d, d ∈ regex' text limit ->
        100 < len (content d)
        /\ exists m, m ∈ slice_to limit (find_observations (slice_to 500000 text))
                     /\ content d = unescape m).
Proof.
  split; [|split; [|split; [|split]]].
  - unfold search. destruct (search_try _ _ _ _ _) as [docs|[]]; eexists; reflexivity.
  - intros e ->. unfold search, search_try. simpl. destruct e; reflexivity.
  - intros proc -> Hrc. unfold search, search_try. simpl.
    destruct (returncode proc =? 0) eqn:E; [lia|]. reflexivity.
  - intros proc from_mark json_str -> Hrc Hmark Hbrace Hloads.
    unfold search, search_try. simpl. rewrite Hrc. simpl. rewrite Hmark, Hbrace.
    unfold docs_of_json. rewrite Hloads. reflexivity.
  - intros text d Hd. unfold _extract_via_regex in Hd.
    apply list_elem_of_In, in_flat_map in Hd as (m & Hm & Hd).
    destruct (100 <? len (unescape m)) eqn:E; [|inversion Hd].
    destruct Hd as [<-|[]]. simpl. split; [lia|].
    exists m. split; [apply list_elem_of_In, Hm | reflexivity].
Qed.

(** Whatever [search] returns, for a limit that is not negative, is at most
    [limit] documents, each with more than 100 characters of content, score
    1.0 and no ['id']. *)
Theorem search_results_bounded (run : result CompletedProcess) (limit : Z)
    (docs : list (Doc Q)) :
  0 <= limit ->
  search' run limit = Ok docs ->
  len docs <= limit /\ Forall memory_shaped docs.
Proof.
  intros Hl. unfold search.
  assert (Hnil : len (@nil (Doc Q)) <= limit /\ Forall memory_shaped [])
    by (split; [exact Hl | constructor]).
  destruct (search_try _ _ _ run limit) as [ds|e] eqn:Htry.
  2:{ destruct e; intros Hd; injection Hd as <-; exact Hnil. }
  intros Hd. injection Hd as <-. revert Htry. unfold search_try.
  destruct run as [proc|e]; [|discriminate]. simpl.
  destruct (negb (returncode proc =? 0)); [intros Hd; injection Hd as <-; exact Hnil|].
  destruct (seek check_mark _) as [from_mark|]; [|intros Hd; injection Hd as <-; exact Hnil].
  destruct (seek open_brace from_mark) as [json_str|];
    [|intros Hd; injection Hd as <-; exact Hnil].
  destruct (docs_of_json json_loads json_str limit) as [js|e] eqn:Hjs.
  - intros Hd. injection Hd as <-.
    split; [exact (json_docs_count _ _ _ Hl Hjs) | exact (json_docs_shaped _ _ _ Hjs)].
  - destruct e; try discriminate. intros Hd. injection Hd as <-.
    split; [apply regex_docs_count, Hl | apply regex_docs_shaped].
Qed.

End MemoryClientFacts.

Lemma search_absorbs_failures_witness :
  search (H := Latin1.tables) Demo.same_text Demo.rejects Demo.one_observation
    (Raise TimeoutExpired) 5 = Ok []
  /\ search (H := Latin1.tables) Demo.same_text Demo.rejects Demo.one_observation
       (Ok (mkCompleted 1 [])) 5 = Ok []
  /\ search (H := Latin1.tables) Demo.same_text Demo.rejects Demo.one_observation
       (Ok Demo.cut_short) 5
     = Ok (_extract_via_regex Demo.one_observation (stdout Demo.cut_short) 5).
Proof.
  split; [|split].
  - destruct (search_absorbs_failures (H := Latin1.tables) Demo.same_text Demo.rejects
                Demo.one_observation (Raise TimeoutExpired) 5) as (_ & T & _).
    apply (T TimeoutExpired). reflexivity.
  - destruct (search_absorbs_failures (H := Latin1.tables) Demo.same_text Demo.rejects
                Demo.one_observation (Ok (mkCompleted 1 [])) 5) as (_ & _ & T & _).
    apply (T (mkCompleted 1 [])); [reflexivity | simpl; lia].
  - destruct (search_absorbs_failures (H := Latin1.tables) Demo.same_text Demo.rejects
                Demo.one_observation (Ok Demo.cut_short) 5) as (_ & _ & _ & T & _).
    eapply (T Demo.cut_short); reflexivity.
Defined.

Lemma search_results_bounded_witness :
  0 <= 5
  /\ len (_extract_via_regex Demo.one_observation (stdout Demo.cut_short) 5) <= 5.
Proof.
  split; [lia|].
  apply (search_results_bounded (H := Latin1.tables) Demo.same_text Demo.rejects
           Demo.one_observation (Ok Demo.cut_short) 5); [lia | reflexivity].
Defined.

(** ** The temporal boost *)

Section TemporalFacts.
Open Scope R_scope.
Variable now : R.
Variable fromtimestamp : R -> option R.
Variable fromisoformat : pystr -> option R.
Variable str_of : json R -> pystr.

Abbreviation boost_of' := (boost_of now fromtimestamp fromisoformat str_of).
Abbreviation parse' := (parse_timestamp fromtimestamp fromisoformat str_of).

Lemma exp_nonpos (x : R) : x <= 0 -> exp x <= 1.
Proof.
  intros [Hlt| ->]; [|rewrite exp_0; lra].
  apply Rlt_le. rewrite <- exp_0. apply exp_increasing, Hlt.
Qed.

Lemma exp_below_half (x : R) : x < -1 -> exp x < 1 / 2.
Proof.
  intros Hx. apply Rlt_trans with (exp (Ropp 1)); [apply exp_increasing; lra|].
  rewrite exp_Ropp. pose proof (exp_ineq1 1 ltac:(lra)) as H2.
  unfold Rdiv. rewrite Rmult_1_l. apply Rinv_lt_contravar; lra.
Qed.

Lemma scaled_age_neg (half_life_days : Z) (age_days : R) :
  (0 < half_life_days)%Z -> 7 < age_days ->
  - age_days / IZR half_life_days < 0.
Proof.
  intros Hh Hage. assert (Hpos : 0 < IZR half_life_days) by (apply IZR_lt; exact Hh).
  unfold Rdiv. apply Rmult_neg_pos; [lra | apply Rinv_0_lt_compat, Hpos].
Qed.

Lemma scaled_age_below (half_life_days : Z) (age_days : R) :
  (0 < half_life_days <= 7)%Z -> 7 < age_days ->
  - age_days / IZR half_life_days < -1.
Proof.
  intros [Hh H7] Hage.
  assert (Hpos : 0 < IZR half_life_days) by (apply IZR_lt; exact Hh).
  assert (Hle : IZR half_life_days <= 7) by (apply IZR_le in H7; exact H7).
  apply Rmult_lt_reg_r with (IZR half_life_days); [exact Hpos|].
  unfold Rdiv. rewrite Rmult_assoc, Rinv_l by lra. lra.
Qed.

(** The schedule, for a half-life that is not zero. *)
Lemma decay_cases (half_life_days : Z) (age_days : R) :
  half_life_days <> 0%Z ->
  exists base,
    decay half_life_days age_days = Some base
    /\ (age_days <= 1 -> base = 3)
    /\ (1 < age_days <= 3 -> base = 2)
    /\ (3 < age_days <= 7 -> base = 15 / 10)
    /\ (7 < age_days -> base = 1 + exp (- age_days / IZR half_life_days)).
Proof.
  intros Hh. unfold decay.
  destruct (Rle_dec age_days 1); [exists 3; repeat split; intros; lra|].
  destruct (Rle_dec age_days 3); [exists 2; repeat split; intros; lra|].
  destruct (Rle_dec age_days 7); [exists (15 / 10); repeat split; intros; lra|].
  destruct (half_life_days =? 0)%Z eqn:E; [apply Z.eqb_eq in E; contradiction|].
  eexists. split; [reflexivity|]. repeat split; intros; lra.
Qed.




End TemporalFacts.




(** ** Re-ranking *)

Section SortedFacts.
Context {A : Type} (key : A -> Q).

(** Largest key first. *)
Let desc (a b : A) : Prop := (key b <= key a)%Q.

Lemma insert_desc_elem (x z : A) (l : list A) :
  z ∈ insert_desc key x l -> z = x \/ z ∈ l.
Proof.
  rewrite insert_desc_perm. intros Hz. apply elem_of_cons in Hz. exact Hz.
Qed.

Lemma insert_desc_sorted (x : A) (l : list A) :
  StronglySorted desc l -> StronglySorted desc (insert_desc key x l).
Proof.
  induction l as [|y l IH]; intros Hs; simpl.
  - constructor; constructor.
  - apply StronglySorted_inv in Hs as [Hl Hy].
    destruct (Qle_bool (key y) (key x)) eqn:E.
    + apply Qle_bool_iff in E. constructor; [constructor; assumption|].
      constructor; [exact E|]. rewrite Forall_forall in *. intros z Hz.
      unfold desc in *. apply Qle_trans with (key y); [apply Hy, Hz | exact E].
    + assert (Hlt : (key x < key y)%Q).
      { apply Qnot_le_lt. intros Hle. apply Qle_bool_iff in Hle. congruence. }
      constructor; [apply IH, Hl|]. apply Forall_forall. intros z Hz.
      apply insert_desc_elem in Hz as [->|Hz].
      * unfold desc. apply Qlt_le_weak, Hlt.
      * rewrite Forall_forall in Hy. apply Hy, Hz.
Qed.

Lemma sorted_reverse_sorted (l : list A) : StronglySorted desc (sorted_reverse key l).
Proof.
  induction l as [|x l IH]; simpl; [constructor | apply insert_desc_sorted, IH].
Qed.

Lemma firstn_sorted (n : nat) (l : list A) :
  StronglySorted desc l -> StronglySorted desc (firstn n l).
Proof.
  revert n. induction l as [|x l IH]; intros [|n] Hs; simpl; try constructor.
  - apply IH. apply StronglySorted_inv in Hs. tauto.
  - apply StronglySorted_inv in Hs as [_ Hx]. rewrite Forall_forall in *.
    intros z Hz. apply Hx. apply list_elem_of_In. apply list_elem_of_In in Hz.
    exact (In_firstn _ _ _ Hz).
Qed.

Lemma slice_to_sorted (n : Z) (l : list A) :
  StronglySorted desc l -> StronglySorted desc (slice_to n l).
Proof. unfold slice_to. destruct (0 <=? n); apply firstn_sorted. Qed.

Lemma len_sorted_reverse (l : list A) : len (sorted_reverse key l) = len l.
Proof. unfold len. rewrite (Permutation_length (sorted_reverse_perm key l)). reflexivity. Qed.

End SortedFacts.

Lemma slice_to_all {A} (n : Z) (l : list A) : len l <= n -> slice_to n l = l.
Proof.
  unfold slice_to, len. intros Hn. destruct (0 <=? n) eqn:E; [|lia].
  apply firstn_all2. lia.
Qed.

Section RerankFacts.
Context `{CharTables}.
Variable predict : pystr -> pystr -> Q.

(** What re-ranking does to one document. *)
Let scored (query : pystr) (d : Doc Q) : Doc Q :=
  with_final_score d (combined_score predict query d).

Lemma rerank_documents_len (query : pystr) (documents : list (Doc Q)) (top_k : Z) :
  len (rerank_documents predict query documents top_k) <= len documents.
Proof.
  destruct documents as [|d0 ds]; [simpl; lia|].
  unfold rerank_documents.
  set (docs := d0 :: ds).
  set (quick := sorted_reverse _ docs).
  set (candidates := slice_to _ quick).
  set (final := sorted_reverse _ _).
  pose proof (len_slice_to_le top_k final) as Hfinal.
  assert (Hc : len final = len candidates).
  { unfold final. rewrite len_sorted_reverse. unfold len. rewrite length_map. reflexivity. }
  pose proof (len_slice_to_le (Z.min (len quick) (Z.max 50 (top_k * 2))) quick) as Hq.
  assert (len quick = len docs) by apply len_sorted_reverse.
  fold candidates in Hq. lia.
Qed.



End RerankFacts.



(** ** The cache directory *)

Section DirectoryFacts.
Context {P : Type}.
Variable glob : gmap pystr (File P) -> list (pystr * File P).
Hypothesis glob_lists : forall dir, glob dir ≡ₚ map_to_list dir.

Lemma unlink_all_gone (stale : list (pystr * File P)) (dir : gmap pystr (File P))
    (key : pystr) :
  key ∈ map fst stale -> unlink_all stale dir !! key = None.
Proof.
  induction stale as [|kf stale IH]; simpl; intros Hk; [inversion Hk|].
  destruct (decide (fst kf = key)) as [<-|Hne]; [apply lookup_delete_eq|].
  rewrite lookup_delete_ne by exact Hne. apply IH.
  apply elem_of_cons in Hk as [Hk|Hk]; [congruence | exact Hk].
Qed.

Lemma unlink_all_sub (stale : list (pystr * File P)) (dir : gmap pystr (File P))
    (key : pystr) (f : File P) :
  unlink_all stale dir !! key = Some f -> dir !! key = Some f.
Proof.
  induction stale as [|kf stale IH]; simpl; intros Hk; [exact Hk|].
  destruct (decide (fst kf = key)) as [<-|Hne].
  - rewrite lookup_delete_eq in Hk. discriminate.
  - rewrite lookup_delete_ne in Hk by exact Hne. apply IH, Hk.
Qed.

Lemma prune_sub (c : QueryCache) (dir : gmap pystr (File P)) (key : pystr) (f : File P) :
  _prune glob c dir !! key = Some f -> dir !! key = Some f.
Proof. unfold _prune. apply unlink_all_sub. Qed.

Lemma prune_size (c : QueryCache) (dir : gmap pystr (File P)) :
  0 <= max_entries c ->
  (size (_prune glob c dir) <= Z.to_nat (max_entries c))%nat.
Proof.
  intros Hcap. unfold _prune, slice_from.
  destruct (0 <=? max_entries c) eqn:E; [|lia].
  set (n := Z.to_nat (max_entries c)).
  set (files := newest_first (glob dir)).
  assert (Hperm : files ≡ₚ map_to_list dir).
  { unfold files, newest_first. rewrite sorted_reverse_perm. apply glob_lists. }
  assert (Hnd : NoDup (map fst files)).
  { rewrite (Permutation_map fst Hperm). apply (NoDup_fst_map_to_list dir). }
  rewrite <- (firstn_skipn n files) in Hnd, Hperm.
  rewrite <- (size_dom (D := gset pystr)).
  transitivity (size (list_to_set (C := gset pystr) (map fst (firstn n files)))).
  - apply subseteq_size. intros k Hk. apply elem_of_list_to_set.
    apply elem_of_dom in Hk as [f Hf].
    pose proof (unlink_all_sub _ _ _ _ Hf) as Hdir.
    assert (Hin : (k, f) ∈ firstn n files ++ skipn n files)
      by (rewrite Hperm; apply elem_of_map_to_list; exact Hdir).
    apply elem_of_app in Hin as [Hin|Hin].
    + apply list_elem_of_In, in_map_iff. exists (k, f).
      split; [reflexivity | apply list_elem_of_In, Hin].
    + rewrite unlink_all_gone in Hf; [discriminate|].
      apply list_elem_of_In, in_map_iff. exists (k, f).
      split; [reflexivity | apply list_elem_of_In, Hin].
  - rewrite map_app in Hnd. apply NoDup_app in Hnd as [Hnd _].
    rewrite size_list_to_set by exact Hnd.
    rewrite length_map, length_firstn. lia.
Qed.

(** Pruning leaves at most [max_entries] files, never adds or rewrites one,
    and leaves a directory that is within the capacity as it is. *)
Theorem prune_bounds_directory (c : QueryCache) (dir : gmap pystr (File P)) :
  0 <= max_entries c ->
  (size (_prune glob c dir) <= Z.to_nat (max_entries c))%nat
  /\ (forall key f, _prune glob c dir !! key = Some f -> dir !! key = Some f)
  /\ (Z.of_nat (size dir) <= max_entries c -> _prune glob c dir = dir).
Proof.
  intros Hcap. split; [apply prune_size, Hcap|]. split; [apply prune_sub|].
  intros Hsize. unfold _prune, slice_from.
  destruct (0 <=? max_entries c) eqn:E; [|lia].
  set (files := newest_first (glob dir)).
  assert (Hperm : files ≡ₚ map_to_list dir).
  { unfold files, newest_first. rewrite sorted_reverse_perm. apply glob_lists. }
  assert (Hlen : length files = size dir).
  { rewrite (Permutation_length Hperm). apply length_map_to_list. }
  rewrite skipn_all2 by lia. reflexivity.
Qed.

(** After [set], a cache that keeps at least one entry holds at most
    [max_entries] files, and every file other than the one just written was
    there before, unchanged; a cache of capacity zero is left untouched. *)
Theorem set_bounds_directory (c : QueryCache) (now mtime : Q) (key : pystr)
    (payload : P) (ttl : option Z) (dir : gmap pystr (File P)) :
  let dir' := cache_set glob c now mtime key payload ttl dir in
  (max_entries c = 0 -> dir' = dir)
  /\ (1 <= max_entries c ->
      (size dir' <= Z.to_nat (max_entries c))%nat
      /\ (forall k f, dir' !! k = Some f -> k <> key -> dir !! k = Some f)).
Proof.
  cbv zeta. unfold cache_set. split.
  - intros ->. reflexivity.
  - intros Hcap. destruct (max_entries c =? 0) eqn:E; [lia|].
    split; [apply prune_size; lia|]. intros k f Hk Hne.
    apply prune_sub in Hk. rewrite lookup_insert_ne in Hk by congruence. exact Hk.
Qed.

End DirectoryFacts.

Section GetFacts.
Context {P : Type}.

Lemma cache_get_other (c : QueryCache) (now : Q) (key k : pystr)
    (dir : gmap pystr (File P)) :
  k <> key -> snd (cache_get c now key dir) !! k = dir !! k.
Proof.
  intros Hk. unfold cache_get. destruct (dir !! key) as [f|]; [|reflexivity].
  destruct (text f) as [|ts ttl payload];
    [simpl; apply lookup_delete_ne; congruence|].
  destruct (negb (ttl =? 0) && gtb (now - ts) (inject_Z ttl)); simpl;
    [apply lookup_delete_ne; congruence | reflexivity].
Qed.

Lemma cache_get_hit_dir (c : QueryCache) (now : Q) (key : pystr)
    (dir : gmap pystr (File P)) (payload : P) :
  fst (cache_get c now key dir) = Some payload ->
  snd (cache_get c now key dir) = dir.
Proof.
  unfold cache_get. destruct (dir !! key) as [f|]; [|discriminate].
  destruct (text f) as [|ts ttl p]; [discriminate|].
  destruct (negb (ttl =? 0) && gtb (now - ts) (inject_Z ttl)); simpl;
    [discriminate | reflexivity].
Qed.


End GetFacts.

Lemma prune_bounds_directory_witness :
  (size (_prune Demo.listing (QueryCache_init 900 1)
           (<[py "a" := mkFile 1 (Stored 1 600 (py "x"))]>
              (<[py "b" := mkFile 2 (Stored 2 600 (py "y"))]> ∅))) <= 1)%nat.
Proof.
  apply (prune_bounds_directory Demo.listing (fun dir => reflexivity _)
           (QueryCache_init 900 1)
           (<[py "a" := mkFile 1 (Stored 1 600 (py "x"))]>
              (<[py "b" := mkFile 2 (Stored 2 600 (py "y"))]> ∅))).
  simpl. lia.
Defined.

Lemma set_bounds_directory_witness :
  (size (cache_set Demo.listing (QueryCache_init 900 1) 3 3 (py "c") (py "z") None
           (<[py "a" := mkFile 1 (Stored 1 600 (py "x"))]> ∅)) <= 1)%nat.
Proof.
  destruct (set_bounds_directory Demo.listing (fun dir => reflexivity _)
              (QueryCache_init 900 1) 3 3 (py "c") (py "z") None
              (<[py "a" := mkFile 1 (Stored 1 600 (py "x"))]> ∅)) as [_ T].
  apply T. simpl. lia.
Defined.


(** ** The run record and the cache in [query] *)

Section RunFacts.
Context `{CharTables}.
Variable sha256_hexdigest : pystr -> pystr.
Variable hash : pystr -> Z.
Variable glob : gmap pystr (File RunRecord) -> list (pystr * File RunRecord).
Variable extract_concepts : pystr -> list pystr.
Variable expand_query : pystr -> list pystr.
Variable plan_reply : pystr -> option pystr.
Variable agent : AgentType -> ProcessedQuery -> Strategy -> result (list (Doc Q)).
Variable as_completed :
  list (result (list (Doc Q))) -> list (result (list (Doc Q))).
Variable predict : pystr -> pystr -> Q.
Variable main_llm : pystr -> pystr -> Intent -> list pystr -> Z -> Z -> result pystr.
Variable project_name : pystr.
Variable context_max_chars : Z.
Variable default_top_k : Z.
Variable cache : option QueryCache.
Variable intent_cache_policy : Intent -> option Z.

Abbreviation run_query' :=
  (query sha256_hexdigest hash glob extract_concepts expand_query plan_reply agent
     as_completed predict main_llm project_name context_max_chars default_top_k
     cache intent_cache_policy).

Let analysed (q : pystr) : ProcessedQuery :=
  process_query extract_concepts expand_query q.

Let planned (q : pystr) : Strategy :=
  _decide_retrieval_strategy default_top_k (analysed q).

Let key_of (q : pystr) : option pystr :=
  _build_cache_key sha256_hexdigest
    (match cache with Some _ => true | None => false end)
    project_name context_max_chars q (analysed q) (planned q).

Let probe (clock : Clock) (dir : gmap pystr (File RunRecord)) (q : pystr)
    : option RunRecord * gmap pystr (File RunRecord) :=
  match cache, key_of q with
  | Some c, Some key => cache_get c (t_probe clock) key dir
  | _, _ => (None, dir)
  end.

(** What every run that is not served from the cache leaves behind. *)
Lemma fresh_run (clock : Clock) (dir : gmap pystr (File RunRecord))
    (user_query : pystr) (o : Outcome) :
  run_query' clock dir user_query = Ok o ->
  from_cache (out_record o) = false ->
  fst (probe clock dir user_query) = None
  /\ out_answer o = answer (out_record o)
  /\ out_confidence o = confidence (out_record o)
  /\ cache_ttl (out_record o)
     = _cache_ttl_for_intent cache intent_cache_policy (intent (analysed user_query))
  /\ out_dir o
     = store glob cache clock (key_of user_query) (out_record o)
         (snd (probe clock dir user_query))
  /\ 0 <= reranked (out_record o) <= retrieved (out_record o)
  /\ 0 <= context_chars (out_record o)
  /\ (retrieved (out_record o) = 0 ->
      out_answer o = no_information /\ context_chars (out_record o) = 0)
  /\ (mode (planned user_query) = mode_none ->
      out_answer o = no_information /\ retrieved (out_record o) = 0).
Proof.
  intros Hrun. unfold query in Hrun.
  fold (analysed user_query) in Hrun. fold (planned user_query) in Hrun.
  fold (key_of user_query) in Hrun. fold (probe clock dir user_query) in Hrun.
  destruct (fst (probe clock dir user_query)) as [cached|] eqn:Hprobe.
  { injection Hrun as <-. simpl. discriminate. }
  intros _. split; [reflexivity|].
  destruct (mode (planned user_query)) eqn:Hmode.
  - destruct (retrieve hash extract_concepts expand_query plan_reply agent
                as_completed user_query (analysed user_query) (planned user_query))
      as [|d ds] eqn:Hdocs.
    + injection Hrun as <-. simpl. repeat split; intros; try reflexivity; try lia; try congruence.
    + pose proof (rerank_documents_len predict user_query (d :: ds)
                    (top_k (planned user_query))) as Hlen.
      set (ranked := rerank_documents predict user_query (d :: ds)
                       (top_k (planned user_query))) in *.
      set (context := compress_context ranked context_max_chars) in *.
      pose proof (len_nonneg ranked) as Hranked.
      pose proof (len_nonneg context) as Hcontext.
      assert (Hsome : 0 < len (d :: ds)) by (unfold len; simpl; lia).
      set (n := len (d :: ds)) in *.
      clearbody ranked context n.
      destruct (generate_answer _ _ _ _ _ _ _) as [text|e]; [|discriminate].
      cbv beta iota delta [mbind result_bind] in Hrun. injection Hrun as <-.
      cbn [out_answer out_confidence out_record out_dir answer confidence cache_ttl
           retrieved reranked context_chars].
      repeat split; intros; try reflexivity; try lia; congruence.
  - destruct (generate_answer _ _ _ _ _ _ _) as [text|e] eqn:Hgen; [|discriminate].
    simpl in Hgen. injection Hgen as <-.
    simpl in Hrun. injection Hrun as <-. simpl.
    repeat split; intros; try reflexivity; lia.
Qed.


Lemma cached_run_probe (clock : Clock) (dir : gmap pystr (File RunRecord))
    (user_query : pystr) (o : Outcome) :
  run_query' clock dir user_query = Ok o ->
  from_cache (out_record o) = true ->
  exists cached, fst (probe clock dir user_query) = Some cached.
Proof.
  intros Hrun Hcached.
  destruct (fst (probe clock dir user_query)) as [cached|] eqn:Hprobe;
    [exists cached; reflexivity|].
  exfalso. revert Hrun Hcached. unfold query.
    fold (analysed user_query). fold (planned user_query).
    fold (key_of user_query). fold (probe clock dir user_query).
    rewrite Hprobe.
    destruct (mode (planned user_query)).
    - destruct (retrieve _ _ _ _ _ _ _ _ _) as [|d ds].
      + intros Hrun. injection Hrun as <-. discriminate.
      + destruct (generate_answer _ _ _ _ _ _ _); [|discriminate].
        simpl. intros Hrun. injection Hrun as <-. discriminate.
    - destruct (generate_answer _ _ _ _ _ _ _); [|discriminate].
      simpl. intros Hrun. injection Hrun as <-. discriminate.
Qed.

(** A run served from the cache returns the answer and the confidence of
    the cached record, copies its counts into the record it logs, and leaves
    the cache directory exactly as it found it. *)
Theorem cached_run_changes_nothing (clock : Clock) (dir : gmap pystr (File RunRecord))
    (user_query : pystr) (o : Outcome) :
  run_query' clock dir user_query = Ok o ->
  from_cache (out_record o) = true ->
  exists c key cached,
    cache = Some c
    /\ cache_get c (t_probe clock) key dir = (Some cached, dir)
    /\ out_dir o = dir
    /\ out_answer o = answer cached
    /\ out_confidence o = confidence cached
    /\ retrieved (out_record o) = retrieved cached
    /\ reranked (out_record o) = reranked cached
    /\ context_chars (out_record o) = context_chars cached.
Proof.
  intros Hrun Hcached.
  destruct (cached_run_probe clock dir user_query o Hrun Hcached) as [cached Hprobe].
  unfold query in Hrun.
  fold (analysed user_query) in Hrun. fold (planned user_query) in Hrun.
  fold (key_of user_query) in Hrun. fold (probe clock dir user_query) in Hrun.
  rewrite Hprobe in Hrun. injection Hrun as <-. simpl.
  unfold probe in *. destruct cache as [c|]; [|discriminate].
  destruct (key_of user_query) as [key|]; [|discriminate].
  pose proof (cache_get_hit_dir c (t_probe clock) key dir cached Hprobe) as Hdir.
  exists c, key, cached. rewrite Hdir.
  repeat split; try reflexivity.
  rewrite <- Hdir at 2. rewrite <- Hprobe. apply surjective_pairing.
Qed.

(** With the cache switched off, a run never claims to come from the cache
    and never touches the directory. *)
Theorem disabled_cache_untouched (clock : Clock) (dir : gmap pystr (File RunRecord))
    (user_query : pystr) (o : Outcome) :
  cache = None ->
  run_query' clock dir user_query = Ok o ->
  from_cache (out_record o) = false /\ out_dir o = dir.
Proof.
  intros Hoff Hrun.
  assert (Hprobe : probe clock dir user_query = (None, dir))
    by (unfold probe; rewrite Hoff; reflexivity).
  destruct (from_cache (out_record o)) eqn:Hfrom.
  - destruct (cached_run_probe clock dir user_query o Hrun Hfrom) as [cached Hc].
    rewrite Hprobe in Hc. discriminate.
  - split; [reflexivity|].
    destruct (fresh_run clock dir user_query o Hrun Hfrom) as (_ & _ & _ & _ & Hdir & _).
    rewrite Hdir, Hprobe. unfold store. rewrite Hoff. reflexivity.
Qed.

(** Asking the same question again, while the stored record is fresh, is
    served from the cache with the same answer and the same confidence.
    The first run must not itself have been served from the cache, the cache
    must keep at least one entry, and the file the first run writes must be
    newer than the files already there. *)
Theorem repeated_query_hits_cache (ttl_seconds cap : Z) (first again : Clock)
    (dir : gmap pystr (File RunRecord)) (user_query : pystr) (o1 : Outcome) :
  (forall d, glob d ≡ₚ map_to_list d) ->
  cache = Some (QueryCache_init ttl_seconds cap) ->
  1 <= cap ->
  run_query' first dir user_query = Ok o1 ->
  from_cache (out_record o1) = false ->
  (forall k g, dir !! k = Some g -> (st_mtime g < t_mtime first)%Q) ->
  ((t_probe again - t_store first <= inject_Z (cache_ttl (out_record o1)))%Q
   \/ cache_ttl (out_record o1) = 0) ->
  exists o2,
    run_query' again (out_dir o1) user_query = Ok o2
    /\ from_cache (out_record o2) = true
    /\ out_answer o2 = out_answer o1
    /\ out_confidence o2 = out_confidence o1
    /\ out_dir o2 = out_dir o1.
Proof.
  intros Hglob Hcache Hcap Hrun Hfresh Holder Hwithin.
  destruct (fresh_run first dir user_query o1 Hrun Hfresh)
    as (_ & Hans & Hconf & _ & Hdir & _).
  assert (Hkey : exists key, key_of user_query = Some key).
  { unfold key_of, _build_cache_key. rewrite Hcache. eexists. reflexivity. }
  destruct Hkey as [key Hkey].
  assert (Hhit : cache_get (QueryCache_init ttl_seconds cap) (t_probe again) key
                   (out_dir o1) = (Some (out_record o1), out_dir o1)).
  { rewrite Hdir. unfold store. rewrite Hcache, Hkey.
    apply (set_then_get_hit glob Hglob); [exact Hcap | | exact Hwithin].
    intros k g Hk Hne. apply (Holder k g). unfold probe in Hk.
    rewrite Hcache, Hkey in Hk.
    rewrite (cache_get_other (QueryCache_init ttl_seconds cap) (t_probe first)
               key k dir Hne) in Hk. exact Hk. }
  unfold query. fold (analysed user_query). fold (planned user_query).
  fold (key_of user_query). rewrite Hcache, Hkey, Hhit. simpl.
  eexists. split; [reflexivity|]. simpl.
  repeat split; symmetry; assumption.
Qed.

End RunFacts.


Lemma disabled_cache_untouched_witness :
  match Demo.run_uncached ∅ Demo.defina_cache with
  | Ok o => from_cache (out_record o) = false /\ out_dir o = ∅
  | Raise _ => False
  end.
Proof.
  assert (Hok : Demo.returned (Demo.run_uncached ∅ Demo.defina_cache) = true)
    by (vm_compute; reflexivity).
  pose proof (disabled_cache_untouched (H := Latin1.tables) Demo.sha256_hexdigest
                Demo.hash Demo.listing Demo.no_list Demo.no_list Demo.no_reply
                Demo.agent Demo.in_order Demo.predict Demo.main_llm (py "scalp")
                120000 40 None Demo.policy Demo.clock ∅ Demo.defina_cache) as T.
  fold (Demo.run_uncached ∅ Demo.defina_cache) in T.
  destruct (Demo.run_uncached ∅ Demo.defina_cache) as [o|e]; [|discriminate].
  exact (T o eq_refl eq_refl).
Defined.

Lemma repeated_query_hits_cache_witness :
  match Demo.run ∅ Demo.defina_cache with
  | Ok o1 =>
      exists o2, Demo.run (out_dir o1) Demo.defina_cache = Ok o2
                 /\ from_cache (out_record o2) = true
                 /\ out_answer o2 = out_answer o1
  | Raise _ => False
  end.
Proof.
  assert (Hok : Demo.returned (Demo.run ∅ Demo.defina_cache) = true)
    by (vm_compute; reflexivity).
  assert (Hfresh : from_cache (out_record (Demo.outcome_of (Demo.run ∅ Demo.defina_cache)))
                   = false) by (vm_compute; reflexivity).
  assert (Httl : cache_ttl (out_record (Demo.outcome_of (Demo.run ∅ Demo.defina_cache)))
                 = 600) by (vm_compute; reflexivity).
  pose proof (repeated_query_hits_cache (H := Latin1.tables) Demo.sha256_hexdigest
                Demo.hash Demo.listing Demo.no_list Demo.no_list Demo.no_reply
                Demo.agent Demo.in_order Demo.predict Demo.main_llm (py "scalp")
                120000 40 (Some (QueryCache_init 900 256)) Demo.policy 900 256
                Demo.clock Demo.clock ∅ Demo.defina_cache) as T.
  fold (Demo.run_with 120000 ∅ Demo.defina_cache) in T.
  fold (Demo.run ∅ Demo.defina_cache) in T.
  destruct (Demo.run ∅ Demo.defina_cache) as [o1|e]; [|discriminate].
  simpl in Hfresh, Httl.
  destruct (T o1) as (o2 & H2 & Hfrom & Hans & _).
  - intros d. reflexivity.
  - reflexivity.
  - lia.
  - reflexivity.
  - exact Hfresh.
  - intros k g Hk. inversion Hk.
  - left. rewrite Httl. vm_compute. discriminate.
  - exists o2. split; [exact H2|]. split; [exact Hfrom | exact Hans].
Defined.

Lemma cached_run_changes_nothing_witness :
  match Demo.run Demo.warm_dir Demo.defina_cache with
  | Ok o => out_dir o = Demo.warm_dir
  | Raise _ => False
  end.
Proof.
  assert (Hok : Demo.returned (Demo.run Demo.warm_dir Demo.defina_cache) = true)
    by (vm_compute; reflexivity).
  assert (Hfrom : from_cache (out_record (Demo.outcome_of
                    (Demo.run Demo.warm_dir Demo.defina_cache))) = true)
    by (vm_compute; reflexivity).
  pose proof (cached_run_changes_nothing (H := Latin1.tables) Demo.sha256_hexdigest
                Demo.hash Demo.listing Demo.no_list Demo.no_list Demo.no_reply
                Demo.agent Demo.in_order Demo.predict Demo.main_llm (py "scalp")
                120000 40 (Some (QueryCache_init 900 256)) Demo.policy Demo.clock
                Demo.warm_dir Demo.defina_cache) as T.
  fold (Demo.run_with 120000 Demo.warm_dir Demo.defina_cache) in T.
  fold (Demo.run Demo.warm_dir Demo.defina_cache) in T.
  destruct (Demo.run Demo.warm_dir Demo.defina_cache) as [o|e]; [|discriminate].
  destruct (T o eq_refl Hfrom) as (c & key & cached & _ & _ & Hdir & _).
  exact Hdir.
Defined.

(** ** More on the planner and the analysis *)

Section BudgetFacts.
Context `{CharTables}.

(** Whatever the query and the configured default, the planner's budgets
    stay in fixed ranges: [top_k] is at least 12, [vector_n_results] is
    between 8 and 18, [memory_limit] between 10 and 30.  A query with an
    objective marker gets exactly 12 and 8 and no graph retrieval; any other
    query gets a [top_k] of at least 15. *)
Theorem planner_budgets (default_top_k : Z) (pq : ProcessedQuery) :
  let s := _decide_retrieval_strategy default_top_k pq in
  let objective := any_in objective_markers (lower (original pq)) in
  12 <= top_k s
  /\ 8 <= vector_n_results s <= 18
  /\ 10 <= memory_limit s <= 30
  /\ memory_concepts s = 3
  /\ use_recent s = has_temporal (temporal pq)
  /\ (objective = true ->
      top_k s = 12 /\ vector_n_results s = 8 /\ use_graph s = false)
  /\ (objective = false -> 15 <= top_k s).
Proof.
  cbv zeta. unfold _decide_retrieval_strategy, adjust_for_shape, base_strategy.
  destruct (any_in objective_markers (lower (original pq)));
    destruct (is_generic_definition (intent pq) (lower (original pq)));
    destruct (120 <? len (original pq));
    destruct (intent pq); simpl; repeat split; intros; try lia; try reflexivity;
    discriminate.
Qed.

End BudgetFacts.

Lemma starts_with_prefix (p s : pystr) :
  starts_with p s = true <-> exists t, s = p ++ t.
Proof.
  revert s. induction p as [|a p IH]; intros s; simpl.
  - split; [intros _; exists s; reflexivity | reflexivity].
  - destruct s as [|b s].
    + split; [discriminate | intros [t Ht]; discriminate].
    + rewrite andb_true_iff, N.eqb_eq, IH. split.
      * intros [-> [t ->]]. exists t. reflexivity.
      * intros [t Ht]. injection Ht as -> ->. split; [reflexivity | exists t; reflexivity].
Qed.

Lemma contains_infix (sub s : pystr) :
  contains sub s = true <-> exists a b, s = a ++ sub ++ b.
Proof.
  induction s as [|c s IH].
  - simpl. rewrite orb_false_r, starts_with_prefix. split.
    + intros [t Ht]. exists [], t. exact Ht.
    + intros (a & b & Hab). destruct a as [|x a]; [exists b; exact Hab | discriminate].
  - cbn [contains]. rewrite orb_true_iff, starts_with_prefix, IH. split.
    + intros [[t Ht]|(a & b & ->)]; [exists [], t; exact Ht | exists (c :: a), b; reflexivity].
    + intros (a & b & Hab). destruct a as [|x a].
      * left. exists b. exact Hab.
      * right. injection Hab as -> ->. exists a, b. reflexivity.
Qed.

Lemma contains_tail (p w s : pystr) :
  contains (p ++ w) s = true -> contains w s = true.
Proof.
  rewrite !contains_infix. intros (a & b & ->). exists (a ++ p), b.
  rewrite <- !app_assoc. reflexivity.
Qed.

Section TemporalCueFacts.
Context `{CharTables}.

Lemma first_temporal_found (table : list (pystr * Z)) (s : pystr) :
  let t := first_temporal table s in
  (has_temporal t = true ->
   exists kw days, In (kw, days) table /\ contains kw s = true
                   /\ days_back t = Some days /\ keyword t = Some kw)
  /\ (has_temporal t = false ->
      days_back t = None /\ keyword t = None
      /\ forall kw days, In (kw, days) table -> contains kw s = false).
Proof.
  induction table as [|[kw days] table IH]; simpl.
  - split; [discriminate|]. intros _. repeat split. intros kw days [].
  - destruct (contains kw s) eqn:E; simpl.
    + split; [|discriminate]. intros _. exists kw, days. repeat split.
      * left. reflexivity.
      * exact E.
    + destruct IH as [IH1 IH2]. split.
      * intros Ht. destruct (IH1 Ht) as (kw' & days' & Hin & Hrest).
        exists kw', days'. split; [right; exact Hin | exact Hrest].
      * intros Ht. destruct (IH2 Ht) as (Hd & Hk & Hall). repeat split; try assumption.
        intros kw' days' [Heq|Hin]; [injection Heq as <- <-; exact E | exact (Hall _ _ Hin)].
Qed.


End TemporalCueFacts.

Section DedupFacts.
Context {F : Type} (hash : pystr -> Z).

Let key (d : Doc F) : Z := hash (slice_to 200 (content d)).

Lemma dedup_loop_acc (docs : list (Doc F)) :
  forall (seen : gset Z) (acc : list (Doc F)),
    dedup_loop hash docs seen acc = acc ++ dedup_loop hash docs seen [].
Proof.
  induction docs as [|d docs IH]; intros seen acc; simpl.
  - rewrite app_nil_r. reflexivity.
  - destruct (decide (hash (slice_to 200 (content d)) ∈ seen)); [apply IH|].
    rewrite (IH _ (acc ++ [d])), (IH _ [d]), <- app_assoc. reflexivity.
Qed.

Lemma dedup_loop_sublist (docs : list (Doc F)) :
  forall seen : gset Z, sublist (dedup_loop hash docs seen []) docs.
Proof.
  induction docs as [|d docs IH]; intros seen; simpl; [constructor|].
  destruct (decide (hash (slice_to 200 (content d)) ∈ seen)).
  - apply sublist_cons, IH.
  - rewrite dedup_loop_acc. simpl. apply sublist_skip, IH.
Qed.

Lemma dedup_loop_fixed (docs : list (Doc F)) :
  forall seen : gset Z,
    NoDup (map key docs) -> (forall d, d ∈ docs -> key d ∉ seen) ->
    dedup_loop hash docs seen [] = docs.
Proof.
  induction docs as [|d docs IH]; intros seen Hnd Hout; simpl; [reflexivity|].
  simpl in Hnd. apply NoDup_cons in Hnd as [Hd Hnd].
  destruct (decide (hash (slice_to 200 (content d)) ∈ seen)) as [Hin|_].
  - exfalso. apply (Hout d); [apply elem_of_cons; left; reflexivity | exact Hin].
  - rewrite dedup_loop_acc. simpl. f_equal. apply IH; [exact Hnd|].
    intros d' Hd' Hin. apply elem_of_union in Hin as [Hin|Hin].
    + apply elem_of_singleton in Hin. apply Hd.
      change (key d ∈ map key docs). replace (key d) with (key d') by exact Hin.
      apply list_elem_of_In, in_map, list_elem_of_In, Hd'.
    + apply (Hout d'); [apply elem_of_cons; right; exact Hd' | exact Hin].
Qed.

(** De-duplication only drops documents: what survives is a subsequence of
    what the agents returned, in the same order.  Documents whose content
    hashes are already distinct all survive, and de-duplicating twice is the
    same as de-duplicating once. *)
Theorem deduplicate_subsequence (all_documents : list (Doc F)) :
  sublist (deduplicate hash all_documents) all_documents
  /\ (NoDup (map (fun d => hash (slice_to 200 (content d))) all_documents) ->
      deduplicate hash all_documents = all_documents)
  /\ deduplicate hash (deduplicate hash all_documents) = deduplicate hash all_documents.
Proof.
  unfold deduplicate. split; [apply dedup_loop_sublist|]. split.
  - intros Hnd. apply dedup_loop_fixed; [exact Hnd|].
    intros d _ Hin. apply elem_of_empty in Hin. exact Hin.
  - apply dedup_loop_fixed.
    + destruct (dedup_loop_keys hash all_documents ∅ []) as (Hnd & _).
      * intros h. simpl. split; intros Hh; [apply elem_of_empty in Hh | inversion Hh]; tauto.
      * simpl. apply NoDup_nil_2.
      * exact Hnd.
    + intros d _ Hin. apply elem_of_empty in Hin. exact Hin.
Qed.

End DedupFacts.

Lemma planner_budgets_witness :
  top_k (_decide_retrieval_strategy (H := Latin1.tables) 40
           (process_query (H := Latin1.tables) Demo.no_list Demo.no_list
              (py "qual arquivo tem o cache"))) = 12.
Proof.
  pose proof (planner_budgets (H := Latin1.tables) 40
                (process_query (H := Latin1.tables) Demo.no_list Demo.no_list
                   (py "qual arquivo tem o cache"))) as T.
  cbv zeta in T. destruct T as (_ & _ & _ & _ & _ & T & _).
  apply T. vm_compute. reflexivity.
Defined.


Lemma deduplicate_subsequence_witness :
  deduplicate Demo.hash [plain_doc (py "a"); plain_doc (py "b")]
  = [plain_doc (py "a"); plain_doc (py "b")].
Proof.
  destruct (deduplicate_subsequence Demo.hash [plain_doc (py "a"); plain_doc (py "b")])
    as (_ & T & _).
  apply T. vm_compute. repeat constructor; intros Hin.
  - apply elem_of_cons in Hin as [Hin|Hin]; [discriminate | inversion Hin].
  - inversion Hin.
Defined.

(** ** Context compression when everything fits *)

Lemma compress_loop_all_fit (max_chars : Z) (documents : list (Doc Q)) :
  forall (i : Z) (parts : list Part) (size : Z),
    i + len documents <= 10 ->
    size + fold_right (fun d acc => len (content d) + acc) 0 documents <= max_chars ->
    exists added,
      compress_loop max_chars i documents parts size
      = (parts ++ added,
         size + fold_right (fun d acc => len (content d) + acc) 0 documents)
      /\ map part_body added = map content documents
      /\ Forall (fun p => part_tail p = [10%N]) added.
Proof.
  induction documents as [|doc rest IH]; intros i parts size Hi Hfit.
  - exists []. simpl. rewrite app_nil_r, Z.add_0_r. repeat split. constructor.
  - cbn [compress_loop fold_right] in *.
    assert (Hrest : 0 <= fold_right (fun d acc => len (content d) + acc) 0 rest).
    { clear. induction rest as [|d r IHr]; simpl; [lia|].
      pose proof (len_nonneg (content d)). lia. }
    assert (Hlen : len (doc :: rest) = 1 + len rest) by (unfold len; simpl; lia).
    pose proof (len_nonneg rest) as Hnn.
    destruct (i <? 10) eqn:E10; [|lia]. simpl.
    destruct (size + len (content doc) <=? max_chars) eqn:E; [|lia].
    destruct (IH (i + 1) (parts ++ [mkPart (score_head i doc) (content doc) [10%N]])
                (size + len (content doc))) as (added & Heq & Hbody & Htail);
      [lia | lia |].
    exists (mkPart (score_head i doc) (content doc) [10%N] :: added).
    rewrite Heq, <- app_assoc. simpl. rewrite Hbody.
    split; [f_equal; lia|]. split; [reflexivity|]. constructor; [reflexivity | exact Htail].
Qed.

(** When there are at most ten ranked documents and their contents
    together fit in the budget, every document is packed in full, in rank
    order: nothing is truncated, summarised or dropped. *)
Theorem compress_context_all_fit (documents : list (Doc Q)) (max_chars : Z) :
  len documents <= 10 ->
  fold_right (fun d acc => len (content d) + acc) 0 documents <= max_chars ->
  let parts := fst (compress_run documents max_chars) in
  map part_body parts = map content documents
  /\ Forall (fun p => part_tail p = [10%N]) parts
  /\ snd (compress_run documents max_chars)
     = fold_right (fun d acc => len (content d) + acc) 0 documents.
Proof.
  intros Hten Hfit. unfold compress_run.
  destruct (compress_loop_all_fit max_chars documents 0 [] 0) as (added & Heq & Hb & Ht);
    [lia | lia |].
  cbv zeta. rewrite Heq. simpl. repeat split; assumption.
Qed.

Lemma compress_context_all_fit_witness :
  map part_body (fst (compress_run [plain_doc (py "abc"); plain_doc (py "de")] 5))
  = [py "abc"; py "de"].
Proof.
  apply (compress_context_all_fit [plain_doc (py "abc"); plain_doc (py "de")] 5).
  - vm_compute. discriminate.
  - vm_compute. discriminate.
Defined.

(* ------------------------------------------------------------------ *)
(** ** The lists of the fast model *)

Section FastModelFacts.
Context `{CharTables}.

Lemma nonblank_lines_stripped (text : pystr) :
  Forall (fun c => c <> [] /\ strip c = c
                   /\ exists line, line ∈ split_on 10 (strip text) /\ c = strip line)
    (nonblank_lines text).
Proof.
  apply Forall_forall. intros c Hc. unfold nonblank_lines in Hc.
  apply list_elem_of_In, in_map_iff in Hc as (line & <- & Hline).
  apply filter_In in Hline as [Hline Hnb].
  split.
  { destruct (bool_decide_reflect (strip line = [])); [discriminate | assumption]. }
  split; [apply strip_idempotent|].
  exists line. split; [apply list_elem_of_In, Hline | reflexivity].
Qed.

Lemma fast_model_lists_len (concept_reply expansion_reply : option pystr) :
  len (extract_concepts concept_reply) <= 5
  /\ len (expand_query expansion_reply) <= 3.
Proof.
  unfold len. split.
  - destruct concept_reply as [text|]; simpl; [|lia].
    pose proof (length_slice_to_le 5 (nonblank_lines text)). lia.
  - destruct expansion_reply as [text|]; simpl; [|lia].
    pose proof (length_slice_to_le 3 (nonblank_lines text)). lia.
Qed.

Lemma fast_model_item (n : Z) (text c : pystr) :
  c ∈ slice_to n (nonblank_lines text) ->
  c <> [] /\ strip c = c
  /\ exists line, line ∈ split_on 10 (strip text) /\ c = strip line.
Proof.
  intros Hc. apply list_elem_of_In, In_slice_to, list_elem_of_In in Hc.
  pose proof (nonblank_lines_stripped text) as Hall.
  rewrite Forall_forall in Hall. exact (Hall c Hc).
Qed.

(** [extract_concepts] returns at most five concepts and [expand_query] at
    most three variations; each is a line of the model's stripped reply,
    itself stripped and not blank, and both lists are empty when the call
    to the model fails. *)
Theorem fast_model_lists (concept_reply expansion_reply : option pystr) :
  len (extract_concepts concept_reply) <= 5
  /\ len (expand_query expansion_reply) <= 3
  /\ (concept_reply = None -> extract_concepts concept_reply = [])
  /\ (expansion_reply = None -> expand_query expansion_reply = [])
  /\ (forall c, c ∈ extract_concepts concept_reply ->
        c <> [] /\ strip c = c
        /\ exists text line, concept_reply = Some text
             /\ line ∈ split_on 10 (strip text) /\ c = strip line)
  /\ (forall e, e ∈ expand_query expansion_reply ->
        e <> [] /\ strip e = e
        /\ exists text line, expansion_reply = Some text
             /\ line ∈ split_on 10 (strip text) /\ e = strip line).
Proof.
  destruct (fast_model_lists_len concept_reply expansion_reply) as [H5 H3].
  split; [exact H5|]. split; [exact H3|].
  split; [intros ->; reflexivity|]. split; [intros ->; reflexivity|]. split.
  - intros c Hc. destruct concept_reply as [text|]; [|inversion Hc].
    destruct (fast_model_item 5 text c Hc) as (Hne & Hs & line & Hl & Hc').
    split; [exact Hne|]. split; [exact Hs|]. exists text, line. auto.
  - intros e He. destruct expansion_reply as [text|]; [|inversion He].
    destruct (fast_model_item 3 text e He) as (Hne & Hs & line & Hl & He').
    split; [exact Hne|]. split; [exact Hs|]. exists text, line. auto.
Qed.

End FastModelFacts.

(* ------------------------------------------------------------------ *)
(** ** The vector and memory agents *)

Section AgentFacts.
Variable vector_search : pystr -> Z -> list (Doc Q).
Variable memory_search : pystr -> Z -> list (Doc Q).

Lemma vector_loop_prefix (n : Z) (qs : list pystr) (acc : list (Doc Q)) :
  exists used rest,
    qs = used ++ rest
    /\ vector_loop vector_search n qs acc
       = acc ++ flat_map (fun q => vector_search q n) used
    /\ (qs <> [] -> used <> [])
    /\ (rest <> [] -> 30 <= high_quality (vector_loop vector_search n qs acc))
    /\ (forall u v, used = u ++ v -> u <> [] -> v <> [] ->
          high_quality (acc ++ flat_map (fun q => vector_search q n) u) < 30).
Proof.
  revert acc. induction qs as [|q qs IH]; intros acc; simpl.
  - exists [], []. simpl. rewrite app_nil_r.
    split; [reflexivity|]. split; [reflexivity|]. split; [congruence|].
    split; [congruence|].
    intros u v Huv Hu. destruct u; [congruence | discriminate].
  - destruct (30 <=? high_quality (acc ++ vector_search q n)) eqn:E.
    + exists [q], qs. simpl. rewrite app_nil_r.
      split; [reflexivity|]. split; [reflexivity|]. split; [discriminate|].
      split.
      * intros _. lia.
      * intros u v Huv Hu Hv. destruct u as [|a u]; [congruence|].
        injection Huv as _ Huv. destruct u; [|discriminate]. simpl in Huv. congruence.
    + destruct (IH (acc ++ vector_search q n))
        as (used & rest & Hqs & Hres & _ & Hstop & Hbefore).
      exists (q :: used), rest. simpl. rewrite Hres, <- app_assoc.
      split; [f_equal; exact Hqs|]. split; [reflexivity|]. split; [discriminate|].
      split.
      * intros Hr. rewrite app_assoc, <- Hres. exact (Hstop Hr).
      * intros u v Huv Hu Hv. destruct u as [|a u]; [congruence|].
        injection Huv as <- Hused. destruct u as [|b u].
        -- simpl. rewrite app_nil_r. apply Z.leb_gt in E. exact E.
        -- simpl. rewrite app_assoc. apply (Hbefore (b :: u) v); [exact Hused | discriminate | exact Hv].
Qed.

(** The vector agent searches the original query first, then the concepts,
    then the expansions, and stops after the first search that brings the
    number of results scored above 0.8 to thirty: what it returns is the
    concatenation, in order, of the searches of a non-empty prefix of the
    variants, it reached thirty high-quality results whenever a variant was
    left unsearched, and it had not reached thirty before its last search. *)
Theorem vector_agent_stops_at_budget (pq : ProcessedQuery) (st : Strategy) :
  let search := fun q => vector_search q (vector_n_results st) in
  exists used rest,
    original pq :: concepts pq ++ expansions pq = used ++ rest
    /\ used <> []
    /\ _vector_agent vector_search pq st = flat_map search used
    /\ (rest <> [] -> 30 <= high_quality (_vector_agent vector_search pq st))
    /\ (forall u v, used = u ++ v -> u <> [] -> v <> [] ->
          high_quality (flat_map search u) < 30).
Proof.
  cbv zeta. unfold _vector_agent.
  destruct (vector_loop_prefix (vector_n_results st)
              ([original pq] ++ concepts pq ++ expansions pq) [])
    as (used & rest & Hqs & Hres & Hne & Hstop & Hbefore).
  exists used, rest. split; [exact Hqs|]. split; [apply Hne; discriminate|].
  split; [exact Hres|]. split; [exact Hstop|]. exact Hbefore.
Qed.

Lemma len_flat_map_le {A B} (f : A -> list B) (m : Z) (l : list A) :
  (forall x, len (f x) <= m) -> len (flat_map f l) <= m * len l.
Proof.
  intros Hf. induction l as [|a l IH]; simpl; [unfold len; simpl; lia|].
  rewrite len_app. specialize (Hf a). unfold len in *. simpl length. lia.
Qed.

Lemma vector_agent_len (pq : ProcessedQuery) (st : Strategy) :
  (forall q n, 0 <= n -> len (vector_search q n) <= n) ->
  0 <= vector_n_results st ->
  len (_vector_agent vector_search pq st)
  <= vector_n_results st * (1 + len (concepts pq) + len (expansions pq)).
Proof.
  intros Hs Hn.
  destruct (vector_loop_prefix (vector_n_results st)
              ([original pq] ++ concepts pq ++ expansions pq) [])
    as (used & rest & Hqs & Hres & _).
  unfold _vector_agent. rewrite Hres. simpl.
  pose proof (len_flat_map_le (fun q => vector_search q (vector_n_results st))
                (vector_n_results st) used (fun q => Hs q _ Hn)) as Hle.
  assert (Hu : len used <= 1 + len (concepts pq) + len (expansions pq)).
  { apply (f_equal (@length pystr)) in Hqs. rewrite !length_app in Hqs.
    simpl in Hqs. unfold len. lia. }
  nia.
Qed.

Lemma memory_agent_len (pq : ProcessedQuery) (st : Strategy) :
  (forall q n, 0 <= n -> len (memory_search q n) <= n) ->
  0 <= memory_limit st -> 0 <= memory_concepts st ->
  len (_memory_agent memory_search pq st)
  <= memory_limit st + Z.max 5 (memory_limit st / 2) * memory_concepts st.
Proof.
  intros Hs Hl Hc. unfold _memory_agent. cbv zeta. rewrite len_app.
  pose proof (Hs (original pq) _ Hl) as H1.
  assert (H5 : 0 <= Z.max 5 (memory_limit st / 2)) by lia.
  pose proof (len_flat_map_le
                (fun concept => memory_search concept (Z.max 5 (memory_limit st / 2)))
                (Z.max 5 (memory_limit st / 2))
                (slice_to (memory_concepts st) (concepts pq))
                (fun q => Hs q _ H5)) as H2.
  pose proof (length_slice_to_le (memory_concepts st) (concepts pq) Hc) as H3.
  assert (len (slice_to (memory_concepts st) (concepts pq)) <= memory_concepts st)
    by (unfold len; lia).
  nia.
Qed.

End AgentFacts.

Section RetrievalBudget.
Context `{CharTables}.
Variable vector_search : pystr -> Z -> list (Doc Q).
Variable memory_search : pystr -> Z -> list (Doc Q).
Variable concept_reply expansion_reply : pystr -> option pystr.

(** From the analysis of the query to the two search agents: with the
    concepts and the expansions of the fast model and the strategy of the
    planner, and stores that return no more documents than they are asked
    for, the vector agent returns at most 162 documents (nine variants of
    at most eighteen) and the memory agent at most 75 (thirty for the query
    and fifteen for each of three concepts), whatever the query, the model's
    replies and the configured [top_k]. *)
Theorem search_agents_bounded (default_top_k : Z) (query : pystr) :
  let pq :=
    process_query (fun q => extract_concepts (concept_reply q))
      (fun q => expand_query (expansion_reply q)) query in
  let st := _decide_retrieval_strategy default_top_k pq in
  (forall q n, 0 <= n -> len (vector_search q n) <= n) ->
  (forall q n, 0 <= n -> len (memory_search q n) <= n) ->
  len (_vector_agent vector_search pq st) <= 162
  /\ len (_memory_agent memory_search pq st) <= 75.
Proof.
  intros pq st Hv Hm.
  assert (Hb : 8 <= vector_n_results st <= 18 /\ 10 <= memory_limit st <= 30
               /\ memory_concepts st = 3).
  { subst st. unfold _decide_retrieval_strategy, adjust_for_shape, base_strategy.
    destruct (any_in objective_markers (lower (original pq)));
      destruct (is_generic_definition (intent pq) (lower (original pq)));
      destruct (120 <? len (original pq));
      destruct (intent pq); simpl; repeat split; lia. }
  destruct Hb as (Hn & Hl & Hc).
  pose proof (fast_model_lists_len (concept_reply query) (expansion_reply query)) as [H5 H3].
  split.
  - pose proof (vector_agent_len vector_search pq st Hv ltac:(lia)) as Hlen.
    subst pq. simpl in *. pose proof (len_nonneg (extract_concepts (concept_reply query))).
    pose proof (len_nonneg (expand_query (expansion_reply query))). nia.
  - pose proof (memory_agent_len memory_search pq st Hm ltac:(lia) ltac:(lia)) as Hlen.
    rewrite Hc in Hlen.
    assert (Z.max 5 (memory_limit st / 2) <= 15).
    { apply Z.max_lub; [lia|]. apply Z.div_le_upper_bound; lia. }
    lia.
Qed.

End RetrievalBudget.

Lemma search_agents_bounded_witness :
  let search := fun (q : pystr) (n : Z) => slice_to n [plain_doc q; plain_doc q] in
  let pq :=
    process_query (H := Latin1.tables)
      (fun q => extract_concepts (H := Latin1.tables) (Some (py "cache")))
      (fun q => expand_query (H := Latin1.tables) None) (py "status") in
  let st := _decide_retrieval_strategy (H := Latin1.tables) 12 pq in
  len (_vector_agent search pq st) <= 162
  /\ len (_memory_agent search pq st) <= 75.
Proof.
  apply (search_agents_bounded (H := Latin1.tables)
           (fun q n => slice_to n [plain_doc q; plain_doc q])
           (fun q n => slice_to n [plain_doc q; plain_doc q])
           (fun q => Some (py "cache")) (fun q => None) 12 (py "status")).
  - intros q n Hn. pose proof (length_slice_to_le n [plain_doc q; plain_doc q] Hn).
    unfold len. lia.
  - intros q n Hn. pose proof (length_slice_to_le n [plain_doc q; plain_doc q] Hn).
    unfold len. lia.
Defined.

(* ------------------------------------------------------------------ *)
(** ** The keyword scanner's token *)

Section SplitFacts.
Variable in_class : N -> bool.

Lemma run_of_nil : run_of in_class [].
Proof. constructor. Qed.

Lemma occurs_in_len (w s : pystr) : occurs_in w s -> len w <= len s.
Proof. intros (a & b & ->). unfold len. rewrite !length_app. lia. Qed.

Lemma re_split_from_pieces (s : pystr) : forall (in_sep : bool) (cur : pystr),
  run_of in_class cur -> (in_sep = true -> cur = []) ->
  Forall (fun p => run_of in_class p /\ occurs_in p (rev cur ++ s))
    (re_split_from in_class in_sep cur s).
Proof.
  induction s as [|c s IH]; intros in_sep cur Hcur Hsep; simpl.
  - constructor; [|constructor]. split.
    + apply Forall_forall. intros x Hx. unfold run_of in Hcur. rewrite Forall_forall in Hcur.
      apply Hcur. apply list_elem_of_In. apply list_elem_of_In, in_rev in Hx. exact Hx.
    + exists [], []. simpl. reflexivity.
  - destruct (in_class c) eqn:Ec.
    + specialize (IH false (c :: cur)).
      simpl in IH. rewrite <- app_assoc in IH. simpl in IH.
      apply IH; [constructor; assumption | discriminate].
    + destruct in_sep.
      * rewrite (Hsep eq_refl). simpl.
        specialize (IH true [] run_of_nil (fun _ => eq_refl)). simpl in IH.
        eapply Forall_impl; [exact IH|]. intros p [Hw (a & b & Hp)].
        split; [exact Hw|]. exists (c :: a), b. rewrite Hp. reflexivity.
      * constructor.
        -- split.
           ++ apply Forall_forall. intros x Hx. unfold run_of in Hcur.
              rewrite Forall_forall in Hcur.
              apply Hcur. apply list_elem_of_In. apply list_elem_of_In, in_rev in Hx. exact Hx.
           ++ exists [], (c :: s). reflexivity.
        -- specialize (IH true [] run_of_nil (fun _ => eq_refl)). simpl in IH.
           eapply Forall_impl; [exact IH|]. intros p [Hw (a & b & Hp)].
           split; [exact Hw|]. exists (rev cur ++ c :: a), b. rewrite Hp.
           rewrite <- app_assoc. reflexivity.
Qed.

(** A run_of in_class that lies across a character outside the class lies on one
    side of it. *)
Lemma occurs_in_across (l1 l2 w : pystr) (c : N) :
  in_class c = false -> run_of in_class w -> w <> [] ->
  occurs_in w (l1 ++ c :: l2) -> occurs_in w l1 \/ occurs_in w l2.
Proof.
  intros Hc Hw Hne (a & b & Heq).
  apply app_eq_app in Heq as [l [[H1 H2]|[H1 H2]]].
  - symmetry in H2. apply app_eq_app in H2 as [l' [[H3 H4]|[H3 H4]]].
    + left. exists a, l'. subst. reflexivity.
    + destruct l' as [|c' l'].
      * left. exists a, []. rewrite app_nil_r in H3. subst. rewrite app_nil_r. reflexivity.
      * simpl in H4. injection H4 as -> _. subst w. unfold run_of in Hw.
        apply Forall_app in Hw as [_ Hw]. apply Forall_inv in Hw. congruence.
  - destruct l as [|c' l].
    + simpl in H2. destruct w as [|x w]; [congruence|]. injection H2 as -> _.
      apply Forall_inv in Hw. congruence.
    + injection H2 as _ H2. right. exists l, b. exact H2.
Qed.

Lemma re_split_from_covers (s : pystr) : forall (in_sep : bool) (cur w : pystr),
  run_of in_class cur -> (in_sep = true -> cur = []) -> run_of in_class w -> w <> [] ->
  occurs_in w (rev cur ++ s) ->
  exists p, p ∈ re_split_from in_class in_sep cur s /\ occurs_in w p.
Proof.
  induction s as [|c s IH]; intros in_sep cur w Hcur Hsep Hw Hne Hin; simpl.
  - exists (rev cur). split; [apply list_elem_of_here|]. rewrite app_nil_r in Hin. exact Hin.
  - destruct (in_class c) eqn:Ec.
    + apply (IH false (c :: cur) w); [constructor; assumption | discriminate | assumption..|].
      simpl. rewrite <- app_assoc. exact Hin.
    + apply occurs_in_across in Hin; [|assumption..].
      destruct in_sep.
      * rewrite (Hsep eq_refl) in *. simpl in Hin. destruct Hin as [Hin|Hin].
        -- destruct Hin as (a & b & Hab). destruct a; [destruct w; [congruence|discriminate]|discriminate].
        -- apply (IH true [] w); [constructor | reflexivity | assumption..].
      * destruct Hin as [Hin|Hin].
        -- exists (rev cur). split; [apply list_elem_of_here | exact Hin].
        -- destruct (IH true [] w) as (p & Hp & Hwp); [constructor | reflexivity | assumption..|].
           exists p. split; [apply list_elem_of_further, Hp | exact Hwp].
Qed.

End SplitFacts.

Section HeadOfSorted.
Context {A : Type} (key : A -> Q).

Lemma sorted_reverse_first (l : list A) :
  match sorted_reverse key l with
  | [] => l = []
  | h :: _ => h ∈ l /\ forall x, x ∈ l -> (key x <= key h)%Q
  end.
Proof.
  pose proof (sorted_reverse_perm key l) as Hp.
  pose proof (sorted_reverse_sorted key l) as Hs.
  destruct (sorted_reverse key l) as [|h r].
  - symmetry. apply Permutation_nil_l in Hp. exact Hp.
  - split; [rewrite <- Hp; apply list_elem_of_here|].
    intros x Hx. rewrite <- Hp in Hx. apply StronglySorted_inv in Hs as [_ Hs].
    apply elem_of_cons in Hx as [->|Hx]; [apply Qle_refl|].
    rewrite Forall_forall in Hs. apply (Hs x Hx).
Qed.

End HeadOfSorted.

(** The keyword scanner searches for the longest run of letters, digits
    and underscores of the query: [_select_token] returns nothing exactly
    when the query has no run of more than three such characters, and
    otherwise returns a run of the query, longer than three characters, that
    is at least as long as every other run. *)
Theorem select_token_longest_run (query : pystr) :
  match _select_token query with
  | Some token =>
      3 < len token /\ run_of token_char token /\ occurs_in token query
      /\ forall w, run_of token_char w -> occurs_in w query -> len w <= len token
  | None => forall w, run_of token_char w -> occurs_in w query -> len w <= 3
  end.
Proof.
  unfold _select_token. cbv zeta.
  set (pieces := re_split token_char query).
  set (tokens := List.filter (fun t => 3 <? len t) pieces).
  pose proof (re_split_from_pieces token_char query false [] (run_of_nil _)
                ltac:(discriminate)) as Hpieces.
  simpl in Hpieces. fold (re_split token_char query) in Hpieces. fold pieces in Hpieces.
  rewrite Forall_forall in Hpieces.
  assert (Hcover : forall w, run_of token_char w -> occurs_in w query -> w <> [] ->
            exists p, p ∈ pieces /\ len w <= len p).
  { intros w Hw Hin Hne.
    destruct (re_split_from_covers token_char query false [] w) as (p & Hp & Hwp);
      [constructor | discriminate | assumption..|].
    exists p. split; [exact Hp | apply occurs_in_len, Hwp]. }
  pose proof (sorted_reverse_first (fun t => inject_Z (len t)) tokens) as Hfirst.
  destruct (sorted_reverse (fun t => inject_Z (len t)) tokens) as [|token r].
  - intros w Hw Hin. destruct w as [|c w]; [unfold len; simpl; lia|].
    destruct (Hcover (c :: w) Hw Hin) as (p & Hp & Hle); [discriminate|].
    destruct (3 <? len p) eqn:E; [|apply Z.ltb_ge in E; lia].
    assert (Hin' : In p tokens) by (apply filter_In; split; [apply list_elem_of_In, Hp | exact E]).
    rewrite Hfirst in Hin'. destruct Hin'.
  - destruct Hfirst as [Htok Hmax].
    apply list_elem_of_In, filter_In in Htok as [Htok Hlen].
    apply Z.ltb_lt in Hlen. destruct (Hpieces token (proj2 (list_elem_of_In _ _) Htok)) as [Hw Hin].
    split; [exact Hlen|]. split; [exact Hw|]. split; [exact Hin|].
    intros w Hw' Hin'. destruct w as [|c w]; [unfold len in *; simpl; lia|].
    destruct (Hcover (c :: w) Hw' Hin') as (p & Hp & Hle); [discriminate|].
    destruct (3 <? len p) eqn:E; [|apply Z.ltb_ge in E; lia].
    assert (Hin'' : p ∈ tokens).
    { apply list_elem_of_In, filter_In. split; [apply list_elem_of_In, Hp | exact E]. }
    specialize (Hmax p Hin''). rewrite <- Zle_Qle in Hmax. lia.
Qed.

(* ------------------------------------------------------------------ *)
(** ** The entity graph *)

Lemma gtb_lt (a b : Q) : gtb a b = true <-> (b < a)%Q.
Proof.
  unfold gtb. rewrite negb_true_iff. split.
  - intros Hle. apply Qnot_le_lt. intros Hc. apply Qle_bool_iff in Hc. congruence.
  - intros Hlt. destruct (Qle_bool a b) eqn:E; [|reflexivity].
    apply Qle_bool_iff in E. exfalso. apply (Qlt_not_le _ _ Hlt E).
Qed.

Lemma contains_nil (s : pystr) : contains [] s = true.
Proof. destruct s; reflexivity. Qed.

Lemma slice_to_map {A B} (f : A -> B) (n : Z) (l : list A) :
  slice_to n (map f l) = map f (slice_to n l).
Proof.
  unfold slice_to. rewrite length_map. destruct (0 <=? n); apply firstn_map.
Qed.

Lemma slice_to_nil {A} (n : Z) : slice_to n (@nil A) = [].
Proof.
  unfold slice_to. destruct (0 <=? n); [destruct (Z.to_nat n) | simpl]; reflexivity.
Qed.

Section ScoreFold.
Variable step : Q -> pystr -> Q.
Variable f : pystr -> Q.
Hypothesis step_adds : forall s t, (step s t == s + f t)%Q.
Hypothesis f_nonneg : forall t, (0 <= f t)%Q.

Lemma fold_score_ge (tokens : list pystr) : forall acc,
  (acc <= fold_left step tokens acc)%Q.
Proof.
  induction tokens as [|t ts IH]; intros acc; simpl; [apply Qle_refl|].
  specialize (IH (step acc t)). pose proof (step_adds acc t). pose proof (f_nonneg t). Lqa.lra.
Qed.

Lemma fold_score_pos (tokens : list pystr) : forall acc,
  (acc < fold_left step tokens acc)%Q <-> exists t, t ∈ tokens /\ (0 < f t)%Q.
Proof.
  induction tokens as [|t ts IH]; intros acc; simpl.
  - split; [intros Hlt; exfalso; apply (Qlt_irrefl _ Hlt) | intros (t & Ht & _); inversion Ht].
  - pose proof (step_adds acc t) as Hs. pose proof (f_nonneg t) as Hf.
    pose proof (fold_score_ge ts (step acc t)) as Hge. split.
    + intros Hlt. destruct (Qlt_le_dec 0 (f t)) as [Hpos|Hz].
      * exists t. split; [apply list_elem_of_here | exact Hpos].
      * destruct (proj1 (IH (step acc t))) as (t' & Ht' & Hp); [Lqa.lra|].
        exists t'. split; [apply list_elem_of_further, Ht' | exact Hp].
    + intros (t' & Ht' & Hp). apply elem_of_cons in Ht' as [->|Ht'].
      * Lqa.lra.
      * pose proof (proj2 (IH (step acc t)) (ex_intro _ t' (conj Ht' Hp))). Lqa.lra.
Qed.

Lemma fold_score_le (m : Q) (tokens : list pystr) : forall acc,
  (forall t, f t <= m)%Q ->
  (fold_left step tokens acc <= acc + m * inject_Z (len tokens))%Q.
Proof.
  intros acc Hm. revert acc. induction tokens as [|t ts IH]; intros acc; cbn [fold_left].
  - change (inject_Z (len (@nil pystr))) with 0%Q. Lqa.lra.
  - specialize (IH (step acc t)). pose proof (step_adds acc t). pose proof (Hm t).
    replace (len (t :: ts)) with (len ts + 1) by (unfold len; simpl length; lia).
    rewrite inject_Z_plus. change (inject_Z 1) with 1%Q. Lqa.lra.
Qed.

End ScoreFold.

Section SortedConst.
Context {A : Type} (key : A -> Q).

Lemma sorted_reverse_const (m : Q) (l : list A) :
  Forall (fun x => key x == m)%Q l -> sorted_reverse key l = l.
Proof.
  induction l as [|x l IH]; intros Hall; [reflexivity|].
  apply Forall_cons in Hall as [Hx Hl]. simpl. rewrite (IH Hl).
  destruct l as [|y l']; [reflexivity|]. simpl.
  apply Forall_inv in Hl.
  assert (E : Qle_bool (key y) (key x) = true) by (apply Qle_bool_iff; Lqa.lra).
  rewrite E. reflexivity.
Qed.

End SortedConst.

Section GraphFacts.
Context `{CharTables}.

Lemma token_score_nonneg (entity : Entity) (token : pystr) :
  (0 <= token_score entity token)%Q.
Proof.
  unfold token_score.
  destruct (contains token (lower (ent_name entity)));
    destruct (contains token (lower (ent_description entity)));
    destruct (contains token (lower (join (py ",") (ent_tags entity))));
    vm_compute; discriminate.
Qed.

Lemma token_score_pos (entity : Entity) (token : pystr) :
  (0 < token_score entity token)%Q <-> entity_mentions entity token = true.
Proof.
  unfold token_score, entity_mentions.
  destruct (contains token (lower (ent_name entity)));
    destruct (contains token (lower (ent_description entity)));
    destruct (contains token (lower (join (py ",") (ent_tags entity))));
    simpl; split; intros Hx; try reflexivity; try discriminate;
    try (vm_compute; reflexivity); vm_compute in Hx; discriminate.
Qed.

Lemma graph_score_pos (entity : Entity) (tokens : list pystr) :
  (0 < graph_score entity tokens)%Q
  <-> exists token, token ∈ tokens /\ entity_mentions entity token = true.
Proof.
  unfold graph_score.
  rewrite (fold_score_pos _ (token_score entity)
             (fun s t => Qeq_refl _) (token_score_nonneg entity)).
  split; intros (t & Ht & Hp); exists t; (split; [exact Ht|]); apply token_score_pos, Hp.
Qed.

Lemma graph_scored_elem (entities : list Entity) (tokens : list pystr)
    (se : Q * Entity) :
  se ∈ graph_scored entities tokens
  <-> snd se ∈ entities /\ fst se = graph_score (snd se) tokens
      /\ (0 < fst se)%Q.
Proof.
  unfold graph_scored. rewrite (sorted_reverse_perm fst).
  rewrite list_elem_of_In, filter_In, in_map_iff, gtb_lt. split.
  - intros [(ent & <- & Hent) Hpos]. simpl in *.
    split; [apply list_elem_of_In, Hent|]. split; [reflexivity | exact Hpos].
  - intros (Hent & Hs & Hpos). split; [|exact Hpos].
    exists (snd se). split; [|apply list_elem_of_In, Hent].
    destruct se as [s e]. simpl in *. subst s. reflexivity.
Qed.

(** The graph search returns, best score first, at most [limit] of the
    entities that mention a token of the query in their name, their
    description or their tags, and no other entity; when the graph has no
    more than [limit] entities, every entity that mentions a token is
    returned. *)
Theorem graph_search_mentions (serialize : Entity -> pystr)
    (entities : list Entity) (query : pystr) (limit : Z) :
  0 <= limit ->
  let tokens := graph_tokenize query in
  exists ranked,
    graph_search serialize entities query limit = map (graph_doc serialize) ranked
    /\ len ranked <= limit
    /\ StronglySorted (fun a b => (fst b <= fst a)%Q) ranked
    /\ (forall se, se ∈ ranked ->
          snd se ∈ entities /\ fst se = graph_score (snd se) tokens
          /\ exists token, token ∈ tokens /\ entity_mentions (snd se) token = true)
    /\ (len entities <= limit ->
        forall ent token, ent ∈ entities -> token ∈ tokens ->
          entity_mentions ent token = true ->
          (graph_score ent tokens, ent) ∈ ranked).
Proof.
  intros Hlimit tokens.
  exists (slice_to limit (graph_scored entities tokens)).
  split.
  { unfold graph_search. destruct entities; [|reflexivity].
    unfold graph_scored. simpl. rewrite slice_to_nil. reflexivity. }
  split.
  { pose proof (length_slice_to_le limit (graph_scored entities tokens) Hlimit).
    unfold len. lia. }
  split.
  { apply slice_to_sorted. unfold graph_scored. apply sorted_reverse_sorted. }
  split.
  { intros se Hse. apply list_elem_of_In, In_slice_to, list_elem_of_In in Hse.
    apply graph_scored_elem in Hse as (Hent & Hs & Hpos).
    split; [exact Hent|]. split; [exact Hs|].
    apply graph_score_pos. rewrite <- Hs. exact Hpos. }
  intros Hall ent token Hent Htoken Hm.
  rewrite slice_to_all.
  - apply graph_scored_elem. simpl. split; [exact Hent|]. split; [reflexivity|].
    apply graph_score_pos. exists token. split; assumption.
  - unfold graph_scored. rewrite len_sorted_reverse.
    unfold len in *. 
    pose proof (filter_length_le (fun se : Q * Entity => gtb (fst se) 0)
                  (map (fun ent => (graph_score ent tokens, ent)) entities)) as Hl.
    rewrite length_map in Hl. lia.
Qed.

(** The empty query matches every entity: its single token is the empty
    string, which every name, description and tag list contains, so the
    search returns the first [limit] entities of the graph in the order of
    the file, each with the score 4.5. *)
Theorem graph_search_empty_query (serialize : Entity -> pystr)
    (entities : list Entity) (limit : Z) :
  exists ranked,
    graph_search serialize entities [] limit = map (graph_doc serialize) ranked
    /\ map snd ranked = slice_to limit entities
    /\ Forall (fun se => fst se == 9 # 2)%Q ranked.
Proof.
  set (scored := map (fun ent => (graph_score ent [[]], ent)) entities).
  assert (Hscore : forall ent, (graph_score ent [[]] == 9 # 2)%Q).
  { intros ent. unfold graph_score, token_score. simpl. rewrite !contains_nil.
    vm_compute. reflexivity. }
  assert (Hall : Forall (fun se : Q * Entity => fst se == 9 # 2)%Q scored).
  { apply Forall_forall. intros se Hse. subst scored.
    apply list_elem_of_In, in_map_iff in Hse as (ent & <- & _). apply Hscore. }
  assert (Hranked : graph_scored entities (graph_tokenize []) = scored).
  { unfold graph_scored. change (graph_tokenize []) with [@nil N]. fold scored.
    assert (Hf : List.filter (fun se : Q * Entity => gtb (fst se) 0) scored = scored).
    { clear -Hall. induction scored as [|se l IH]; [reflexivity|].
      apply Forall_cons in Hall as [Hse Hl]. simpl.
      assert (E : gtb (fst se) 0 = true) by (apply gtb_lt; rewrite Hse; reflexivity).
      rewrite E, (IH Hl). reflexivity. }
    rewrite Hf. apply (sorted_reverse_const fst (9 # 2)), Hall. }
  exists (slice_to limit scored). split.
  { unfold graph_search. rewrite Hranked. destruct entities; [|reflexivity].
    subst scored. simpl. rewrite slice_to_nil. reflexivity. }
  split.
  { rewrite <- slice_to_map. subst scored. rewrite map_map. simpl. rewrite map_id.
    reflexivity. }
  apply Forall_slice_to, Hall.
Qed.

End GraphFacts.

Lemma graph_search_mentions_witness :
  exists ranked,
    graph_search (H := Latin1.tables) ent_name
      [mkEntity (py "cache") (py "service") (py "query cache") [] [] [] [py "rag"]]
      (py "cache") 5
    = map (graph_doc ent_name) ranked
    /\ len ranked <= 5.
Proof.
  destruct (graph_search_mentions (H := Latin1.tables) ent_name
              [mkEntity (py "cache") (py "service") (py "query cache") [] [] [] [py "rag"]]
              (py "cache") 5 ltac:(lia))
    as (ranked & Heq & Hlen & _).
  exists ranked. split; [exact Heq | exact Hlen].
Defined.

(* ------------------------------------------------------------------ *)
(** ** The code symbol index *)

Lemma unique_from_spec (l : list pystr) : forall seen,
  NoDup (unique_from seen l)
  /\ forall t, t ∈ unique_from seen l <-> t ∈ l /\ t ∉ seen.
Proof.
  induction l as [|a l IH]; intros seen; simpl.
  - split; [constructor|]. intros t.
    split; [intros Ht; inversion Ht | intros [Ht _]; inversion Ht].
  - destruct (decide (a ∈ seen)) as [Hin|Hnot].
    + destruct (IH seen) as [Hnd Hel]. split; [exact Hnd|]. intros t. rewrite Hel. split.
      * intros [Ht Hs]. split; [apply list_elem_of_further, Ht | exact Hs].
      * intros [Ht Hs]. apply elem_of_cons in Ht as [->|Ht];
          [contradiction | split; assumption].
    + destruct (IH ({[a]} ∪ seen)) as [Hnd Hel]. split.
      * constructor; [|exact Hnd]. rewrite Hel. intros [_ Hn]. apply Hn, elem_of_union_l, elem_of_singleton. reflexivity.
      * intros t. rewrite elem_of_cons, Hel. split.
        -- intros [->|[Ht Hn]].
           ++ split; [apply list_elem_of_here | exact Hnot].
           ++ split; [apply list_elem_of_further, Ht|].
              intros Hs. apply Hn, elem_of_union_r, Hs.
        -- intros [Ht Hs]. apply elem_of_cons in Ht as [->|Ht]; [left; reflexivity|].
           destruct (decide (t = a)) as [->|Hne]; [left; reflexivity|].
           right. split; [exact Ht|].
           intros [Hx|Hx]%elem_of_union; [apply elem_of_singleton in Hx|]; contradiction.
Qed.

Lemma unique_from_sublist (l : list pystr) : forall seen,
  sublist (unique_from seen l) l.
Proof.
  induction l as [|a l IH]; intros seen; simpl; [constructor|].
  destruct (decide (a ∈ seen)); [apply sublist_cons, IH | apply sublist_skip, IH].
Qed.

Lemma filter_sublist {A} (keep : A -> bool) (l : list A) :
  sublist (List.filter keep l) l.
Proof.
  induction l as [|a l IH]; simpl; [constructor|].
  destruct (keep a); [apply sublist_skip, IH | apply sublist_cons, IH].
Qed.

Section CodeIndexFacts.
Context `{CharTables}.


Lemma symbol_gain_adds (symbol : SerenaSymbol) (s : Q) (token : pystr) :
  ((if contains token (lower (sym_name symbol)) then s + 3
    else if contains token (lower (sym_full_name symbol)) then s + 2
    else if contains token (lower (sym_relative_path symbol)) then s + 1
    else s) == s + symbol_gain symbol token)%Q.
Proof.
  unfold symbol_gain.
  destruct (contains token (lower (sym_name symbol)));
    destruct (contains token (lower (sym_full_name symbol)));
    destruct (contains token (lower (sym_relative_path symbol))); Lqa.lra.
Qed.

Lemma symbol_gain_range (symbol : SerenaSymbol) (token : pystr) :
  (0 <= symbol_gain symbol token <= 3)%Q
  /\ ((0 < symbol_gain symbol token)%Q <-> symbol_mentions symbol token = true).
Proof.
  unfold symbol_gain, symbol_mentions.
  destruct (contains token (lower (sym_name symbol)));
    destruct (contains token (lower (sym_full_name symbol)));
    destruct (contains token (lower (sym_relative_path symbol)));
    simpl; (split; [Lqa.lra|]); split; intros Hx; try reflexivity; try discriminate;
    Lqa.lra.
Qed.

Lemma score_symbol_pos (symbol : SerenaSymbol) (tokens : list pystr) :
  (0 < _score_symbol symbol tokens)%Q
  <-> exists token, token ∈ tokens /\ symbol_mentions symbol token = true.
Proof.
  unfold _score_symbol.
  rewrite (fold_score_pos _ (symbol_gain symbol) (symbol_gain_adds symbol)
             (fun t => proj1 (proj1 (symbol_gain_range symbol t)))).
  split; intros (t & Ht & Hp); exists t; (split; [exact Ht|]);
    apply (symbol_gain_range symbol t), Hp.
Qed.

(** A symbol scores between 0 and three times the number of tokens, and
    above 0 exactly when its name, its qualified name or its path contains
    one of the tokens. *)
Theorem score_symbol_range (symbol : SerenaSymbol) (tokens : list pystr) :
  (0 <= _score_symbol symbol tokens <= 3 * inject_Z (len tokens))%Q
  /\ ((0 < _score_symbol symbol tokens)%Q
      <-> exists token, token ∈ tokens /\ symbol_mentions symbol token = true).
Proof.
  unfold _score_symbol.
  pose proof (fold_score_ge _ (symbol_gain symbol) (symbol_gain_adds symbol)
                (fun t => proj1 (proj1 (symbol_gain_range symbol t))) tokens 0%Q) as Hge.
  pose proof (fold_score_le _ (symbol_gain symbol) (symbol_gain_adds symbol) 3 tokens 0%Q
                (fun t => proj2 (proj1 (symbol_gain_range symbol t)))) as Hle.
  split; [split; [exact Hge | Lqa.lra]|].
  fold (_score_symbol symbol tokens). apply score_symbol_pos.
Qed.

Lemma serena_scored_elem (symbols : list SerenaSymbol) (tokens : list pystr)
    (ss : Q * SerenaSymbol) :
  ss ∈ serena_scored symbols tokens
  <-> snd ss ∈ symbols /\ fst ss = _score_symbol (snd ss) tokens
      /\ (0 < fst ss)%Q.
Proof.
  unfold serena_scored. rewrite (sorted_reverse_perm fst).
  rewrite list_elem_of_In, filter_In, in_map_iff, gtb_lt. split.
  - intros [(sym & <- & Hsym) Hpos]. simpl in *.
    split; [apply list_elem_of_In, Hsym|]. split; [reflexivity | exact Hpos].
  - intros (Hsym & Hs & Hpos). split; [|exact Hpos].
    exists (snd ss). split; [|apply list_elem_of_In, Hsym].
    destruct ss as [s e]. simpl in *. subst s. reflexivity.
Qed.

Lemma read_snippet_header (lines : list pystr) (symbol : SerenaSymbol) :
  exists rest, _read_snippet (Some lines) symbol = Some (py "# File: " ++ rest).
Proof.
  unfold _read_snippet. cbv zeta. eexists. rewrite <- !app_assoc. reflexivity.
Qed.

Lemma serena_results_spec (read_lines : SerenaSymbol -> option (list pystr))
    (scored : list (Q * SerenaSymbol)) :
  len (serena_results read_lines scored) <= len scored
  /\ (forall doc, doc ∈ serena_results read_lines scored ->
        exists ss lines, ss ∈ scored /\ read_lines (snd ss) = Some lines
          /\ doc_id doc = Some (serena_id (snd ss))
          /\ _read_snippet (Some lines) (snd ss) = Some (content doc))
  /\ (forall ss lines, ss ∈ scored -> read_lines (snd ss) = Some lines ->
        exists doc, doc ∈ serena_results read_lines scored
          /\ doc_id doc = Some (serena_id (snd ss))).
Proof.
  unfold serena_results.
  set (one := fun ss : Q * SerenaSymbol => _).
  split.
  { pose proof (len_flat_map_le one 1 scored) as Hle.
    rewrite Z.mul_1_l in Hle. apply Hle. intros ss. subst one. simpl.
    destruct (_read_snippet (read_lines (snd ss)) (snd ss)) as [[|c s]|];
      unfold len; simpl; lia. }
  split.
  { intros doc Hdoc. apply list_elem_of_In, in_flat_map in Hdoc as (ss & Hss & Hdoc).
    subst one. cbv beta in Hdoc.
    destruct (read_lines (snd ss)) as [lines|] eqn:Hr; [|simpl in Hdoc; destruct Hdoc].
    exists ss, lines. split; [apply list_elem_of_In, Hss|]. split; [exact Hr|].
    destruct (_read_snippet (Some lines) (snd ss)) as [[|c s]|];
      [destruct Hdoc | | destruct Hdoc].
    destruct Hdoc as [<-|[]]. split; reflexivity. }
  intros ss lines Hss Hr.
  destruct (read_snippet_header lines (snd ss)) as (rest & Hsn).
  eexists. split.
  - apply list_elem_of_In, in_flat_map. exists ss. split; [apply list_elem_of_In, Hss|].
    subst one. cbv beta. rewrite Hr, Hsn. simpl. left. reflexivity.
  - reflexivity.
Qed.

(** The code search returns at most [limit] documents; each is the snippet
    of a loaded symbol whose file could be read and whose name, qualified
    name or path contains a token of the queries.  A symbol whose file
    cannot be read is skipped without an error, and when the index holds no
    more than [limit] symbols every readable symbol that contains a token
    has its document. *)
Theorem serena_search_readable_matches
    (read_lines : SerenaSymbol -> option (list pystr))
    (symbols : list SerenaSymbol) (queries : list pystr) (limit : Z) :
  0 <= limit ->
  let tokens := serena_tokenize queries in
  let results := serena_search read_lines symbols queries limit in
  len results <= limit
  /\ (forall doc, doc ∈ results ->
        exists symbol lines token,
          symbol ∈ symbols /\ read_lines symbol = Some lines
          /\ doc_id doc = Some (serena_id symbol)
          /\ _read_snippet (Some lines) symbol = Some (content doc)
          /\ token ∈ tokens /\ symbol_mentions symbol token = true)
  /\ (len symbols <= limit ->
      forall symbol lines token,
        symbol ∈ symbols -> read_lines symbol = Some lines ->
        token ∈ tokens -> symbol_mentions symbol token = true ->
        exists doc, doc ∈ results /\ doc_id doc = Some (serena_id symbol)).
Proof.
  intros Hlimit tokens results.
  assert (Hres : results
                 = serena_results read_lines (slice_to limit (serena_scored symbols tokens))
                 \/ (results = [] /\ (symbols = [] \/ tokens = []))).
  { subst results. unfold serena_search. fold tokens.
    destruct symbols as [|sym symbols].
    - right. split; [destruct queries; reflexivity | left; reflexivity].
    - destruct queries as [|q qs]; [right; split; [reflexivity | right; reflexivity]|].
      destruct tokens as [|t ts] eqn:Et; [right; split; [reflexivity | right; reflexivity]|].
      left. reflexivity. }
  destruct Hres as [Hres|[Hres Hempty]].
  - rewrite Hres.
    destruct (serena_results_spec read_lines (slice_to limit (serena_scored symbols tokens)))
      as (Hlen & Hsound & Hcomplete).
    split.
    { pose proof (length_slice_to_le limit (serena_scored symbols tokens) Hlimit).
      unfold len in *. lia. }
    split.
    { intros doc Hdoc. destruct (Hsound doc Hdoc) as (ss & lines & Hss & Hr & Hid & Hsn).
      apply list_elem_of_In, In_slice_to, list_elem_of_In in Hss.
      apply serena_scored_elem in Hss as (Hsym & Hs & Hpos).
      rewrite Hs in Hpos. apply score_symbol_pos in Hpos as (token & Ht & Hm).
      exists (snd ss), lines, token. repeat split; assumption. }
    intros Hall symbol lines token Hsym Hr Ht Hm.
    apply (Hcomplete (_score_symbol symbol tokens, symbol) lines); [|exact Hr].
    rewrite slice_to_all.
    + apply serena_scored_elem. simpl. split; [exact Hsym|]. split; [reflexivity|].
      apply score_symbol_pos. exists token. split; assumption.
    + unfold serena_scored. rewrite len_sorted_reverse. unfold len in *.
      pose proof (filter_length_le (fun ss : Q * SerenaSymbol => gtb (fst ss) 0)
                    (map (fun sym => (_score_symbol sym tokens, sym)) symbols)) as Hl.
      rewrite length_map in Hl. lia.
  - rewrite Hres. split; [unfold len; simpl; lia|]. split.
    + intros doc Hdoc. inversion Hdoc.
    + intros _ symbol lines token Hsym _ Ht. exfalso.
      destruct Hempty as [->| ->]; [inversion Hsym | inversion Ht].
Qed.

End CodeIndexFacts.

Lemma serena_search_readable_matches_witness :
  len (serena_search (H := Latin1.tables) (fun _ => Some [py "class QueryCache:"])
         [mkSymbol (py "QueryCache") (py "QueryCache") (py "utils/cache.py") 14 24]
         [py "cache"] 20)
  <= 20.
Proof.
  apply (serena_search_readable_matches (H := Latin1.tables)
           (fun _ => Some [py "class QueryCache:"])
           [mkSymbol (py "QueryCache") (py "QueryCache") (py "utils/cache.py") 14 24]
           [py "cache"] 20).
  lia.
Defined.
